(** * MoarVM instance bootstrap and teardown (src/moar.c)

    A shallow embedding of [src/moar.c]: the log-path sanitizer
    [fopen_perhaps_with_pid], [MVM_vm_create_instance],
    [MVM_vm_exit], [MVM_vm_destroy_instance], [MVM_vm_set_lib_path],
    [cleanup_callsite_interns] and the output loop of [MVM_vm_dump_file].

    C strings are Rocq [string]s (the characters before the terminating
    NUL), [MVMuint64] values are [Z] with the wrap-around written out, and
    the calls into libc and libuv act on an explicit process state. *)

From Stdlib Require Import ZArith Ascii String Lia.
From stdpp Require Import base gmap strings list.

Local Open Scope Z_scope.

(** ** C strings *)

Module CString.

(** [strlen]. *)
Definition strlen (s : string) : Z := Z.of_nat (String.length s).

(** [s[i]]; reading at the end of the string yields the terminating NUL. *)
Definition char_at (s : string) (i : Z) : ascii :=
  match String.get (Z.to_nat i) s with
  | Some c => c
  | None => Ascii.zero
  end.

(** [strstr haystack needle]: the suffix of [haystack] that starts at the
    first occurrence of [needle], or [None] for a NULL result. *)
Fixpoint strstr (haystack needle : string) : option string :=
  if String.prefix needle haystack then Some haystack
  else match haystack with
       | EmptyString => None
       | String _ rest => strstr rest needle
       end.

(** The pointer [s + n]. *)
Fixpoint advance (n : nat) (s : string) : string :=
  match n, s with
  | O, _ => s
  | S n', String _ rest => advance n' rest
  | S _, EmptyString => EmptyString
  end.

(** The first [n] characters of [s] (what fits a buffer of [n + 1] bytes). *)
Fixpoint truncate (n : nat) (s : string) : string :=
  match n, s with
  | S n', String c rest => String c (truncate n' rest)
  | _, _ => EmptyString
  end.

Definition newline : string := String (ascii_of_nat 10) EmptyString.

End CString.

Import CString.

(** ** Decimal output of an integer, as [%d] prints it *)

Definition digit_char (d : Z) : ascii := ascii_of_nat (48 + Z.to_nat d).

Fixpoint decimal_digits (fuel : nat) (n : Z) (acc : string) : string :=
  let acc' := String (digit_char (n mod 10)) acc in
  match fuel with
  | O => acc'
  | S fuel' => if n <? 10 then acc' else decimal_digits fuel' (n / 10) acc'
  end.

(** Twenty digits cover every 64-bit value. *)
Definition decimal (n : Z) : string :=
  if n <? 0 then String "-"%char (decimal_digits 20 (- n) EmptyString)
  else decimal_digits 20 n EmptyString.

(** ** Hexadecimal output of an integer, as [%x] prints it *)

Definition hex_digit_char (d : Z) : ascii :=
  if d <? 10 then ascii_of_nat (48 + Z.to_nat d) else ascii_of_nat (87 + Z.to_nat d).

Fixpoint hex_digits (fuel : nat) (n : Z) (acc : string) : string :=
  let acc' := String (hex_digit_char (n mod 16)) acc in
  match fuel with
  | O => acc'
  | S fuel' => if n <? 16 then acc' else hex_digits fuel' (n / 16) acc'
  end.

(** [%x] takes its argument as an [unsigned int]: 32 bits, at most eight
    digits. *)
Definition hexadecimal (n : Z) : string :=
  hex_digits 8 (n mod 2 ^ 32) EmptyString.

(** ** [snprintf] with one integer argument

    The fragment of [printf] formats modelled: ordinary characters, [%%],
    [%d] and [%x]. Any other conversion, a [%] at the end of the format, or a
    conversion with no argument left is outside the fragment (for most of
    them, such as [%s] with an integer argument, C leaves the behaviour
    undefined) and yields [None]. *)
Fixpoint vformat (format : string) (args : list Z) : option string :=
  match format with
  | EmptyString => Some EmptyString
  | String c rest =>
      if Ascii.eqb c "%"%char then
        match rest with
        | EmptyString => None
        | String c2 rest2 =>
            if Ascii.eqb c2 "%"%char then
              String "%"%char <$> vformat rest2 args
            else if Ascii.eqb c2 "d"%char then
              match args with
              | a :: args' => String.append (decimal a) <$> vformat rest2 args'
              | [] => None
              end
            else if Ascii.eqb c2 "x"%char then
              match args with
              | a :: args' => String.append (hexadecimal a) <$> vformat rest2 args'
              | [] => None
              end
            else None
        end
      else String c <$> vformat rest args
  end.

(** [snprintf(buf, size, format, arg)]: at most [size - 1] characters are
    stored. *)
Definition snprintf (size : Z) (format : string) (arg : Z) : option string :=
  truncate (Z.to_nat (size - 1)) <$> vformat format [arg].

(** ** The directive count of [fopen_perhaps_with_pid] *)

Definition MVMuint64 (z : Z) : Z := z mod 2 ^ 64.

(** The [for] loop of [fopen_perhaps_with_pid] over the index [i]; every
    iteration advances [i], so [fuel] bounds the iterations and [None] is
    fuel running out. *)
Fixpoint count_percents (fuel : nat) (path : string) (path_length i found_percents : Z)
  : option Z :=
  if i <? path_length then
    match fuel with
    | O => None
    | S fuel' =>
        if Ascii.eqb (char_at path i) "%"%char then
          if (MVMuint64 (i + 1) <? path_length)
             && Ascii.eqb (char_at path (MVMuint64 (i + 1))) "%"%char
          then (* i++; continue; *)
            count_percents fuel' path path_length
              (MVMuint64 (MVMuint64 (i + 1) + 1)) found_percents
          else
            count_percents fuel' path path_length
              (MVMuint64 (i + 1)) (MVMuint64 (found_percents + 1))
        else count_percents fuel' path path_length (MVMuint64 (i + 1)) found_percents
    end
  else Some found_percents.

(** The loop run from [i = 0] and [found_percents = 0] with
    [path_length = strlen(path)]; [strlen path] iterations always suffice. *)
Definition found_percents_of (path : string) : option Z :=
  count_percents (String.length path) path (MVMuint64 (strlen path)) 0 0.

(** ** Vocabulary for format strings *)

(** The number of independent directives: [%] characters that are not part
    of a [%%] pair, pairs being read from left to right. *)
Fixpoint directives (s : string) : nat :=
  match s with
  | EmptyString => O
  | String c rest =>
      if Ascii.eqb c "%"%char then
        match rest with
        | EmptyString => 1%nat
        | String c2 rest2 =>
            if Ascii.eqb c2 "%"%char then directives rest2 else S (directives rest)
        end
      else directives rest
  end.

(** A string without independent directives with each [%%] pair written as
    the single [%] it stands for. *)
Fixpoint unescape (s : string) : string :=
  match s with
  | EmptyString => EmptyString
  | String c rest =>
      if Ascii.eqb c "%"%char then
        match rest with
        | EmptyString => String c EmptyString
        | String c2 rest2 =>
            if Ascii.eqb c2 "%"%char then String "%"%char (unescape rest2)
            else String c (unescape rest)
        end
      else String c (unescape rest)
  end.

(** Whether some [%%] pair is immediately followed by the letter [d]. *)
Fixpoint pair_then_d (s : string) : bool :=
  match s with
  | EmptyString => false
  | String c rest =>
      if Ascii.eqb c "%"%char then
        match rest with
        | EmptyString => false
        | String c2 rest2 =>
            if Ascii.eqb c2 "%"%char then
              String.prefix "d" rest2 || pair_then_d rest2
            else pair_then_d rest
        end
      else pair_then_d rest
  end.

(** No [%] character at all. *)
Fixpoint no_percent (s : string) : bool :=
  match s with
  | EmptyString => true
  | String c rest => negb (Ascii.eqb c "%"%char) && no_percent rest
  end.

(** ** The process state *)

(** The mutexes of an [MVMInstance]; [nfg_update_mutex] is
    [instance->nfg->update_mutex]. *)
Inductive mutex : Set :=
| mutex_permroots | mutex_repr_registry | mutex_hllconfigs | mutex_dll_registry
| mutex_ext_registry | mutex_extop_registry | mutex_sc_weakhash
| mutex_loaded_compunits | mutex_container_registry | mutex_object_ids
| mutex_int_const_cache | mutex_event_loop_start | mutex_compiler_registry
| mutex_hll_syms | mutex_callsite_interns | mutex_multi_cache_add
| mutex_spesh_install | mutex_cross_thread_write_logging | nfg_update_mutex.

Global Instance mutex_eq_dec : EqDecision mutex.
Proof. solve_decision. Defined.

(** A [FILE *] that is not NULL: the standard error stream or a stream that
    [fopen] returned. *)
Inductive FILE : Set :=
| stderr
| stream (id : nat).

Global Instance FILE_eq_dec : EqDecision FILE.
Proof. solve_decision. Defined.

Record MVMThreadContext := { thread_id : Z }.

(** The fields of [MVMInstance] that [src/moar.c] itself reads and writes.
    Flags are the integers the C code stores; a NULL pointer is [None]. *)
Record MVMInstance := {
  main_thread : MVMThreadContext;
  next_user_thread_id : Z;
  instrumentation_level : Z;
  spesh_log_fh : option FILE;
  spesh_enabled : Z;
  spesh_inline_enabled : Z;
  spesh_osr_enabled : Z;
  spesh_nodelay : Z;
  spesh_limit : Z;
  jit_enabled : Z;
  jit_log_fh : option FILE;
  jit_bytecode_map : option FILE;
  jit_bytecode_dir : option string;
  jit_seq_nr : Z;
  dynvar_log_fh : option FILE;
  nfa_debug_enabled : Z;
  cross_thread_write_logging : Z;
  cross_thread_write_logging_include_locked : Z;
  coverage_logging : Z;
  coverage_log_fh : option FILE;
  lib_path : list (option string);
}.

Definition set_main_thread (v : MVMThreadContext) (i : MVMInstance) : MVMInstance :=
  {| main_thread := v; next_user_thread_id := next_user_thread_id i; instrumentation_level :=
  instrumentation_level i; spesh_log_fh := spesh_log_fh i; spesh_enabled := spesh_enabled i;
  spesh_inline_enabled := spesh_inline_enabled i; spesh_osr_enabled := spesh_osr_enabled i;
  spesh_nodelay := spesh_nodelay i; spesh_limit := spesh_limit i; jit_enabled := jit_enabled
  i; jit_log_fh := jit_log_fh i; jit_bytecode_map := jit_bytecode_map i; jit_bytecode_dir :=
  jit_bytecode_dir i; jit_seq_nr := jit_seq_nr i; dynvar_log_fh := dynvar_log_fh i;
  nfa_debug_enabled := nfa_debug_enabled i; cross_thread_write_logging :=
  cross_thread_write_logging i; cross_thread_write_logging_include_locked :=
  cross_thread_write_logging_include_locked i; coverage_logging := coverage_logging i;
  coverage_log_fh := coverage_log_fh i; lib_path := lib_path i |}.

Definition set_next_user_thread_id (v : Z) (i : MVMInstance) : MVMInstance :=
  {| main_thread := main_thread i; next_user_thread_id := v; instrumentation_level :=
  instrumentation_level i; spesh_log_fh := spesh_log_fh i; spesh_enabled := spesh_enabled i;
  spesh_inline_enabled := spesh_inline_enabled i; spesh_osr_enabled := spesh_osr_enabled i;
  spesh_nodelay := spesh_nodelay i; spesh_limit := spesh_limit i; jit_enabled := jit_enabled
  i; jit_log_fh := jit_log_fh i; jit_bytecode_map := jit_bytecode_map i; jit_bytecode_dir :=
  jit_bytecode_dir i; jit_seq_nr := jit_seq_nr i; dynvar_log_fh := dynvar_log_fh i;
  nfa_debug_enabled := nfa_debug_enabled i; cross_thread_write_logging :=
  cross_thread_write_logging i; cross_thread_write_logging_include_locked :=
  cross_thread_write_logging_include_locked i; coverage_logging := coverage_logging i;
  coverage_log_fh := coverage_log_fh i; lib_path := lib_path i |}.

Definition set_instrumentation_level (v : Z) (i : MVMInstance) : MVMInstance :=
  {| main_thread := main_thread i; next_user_thread_id := next_user_thread_id i;
  instrumentation_level := v; spesh_log_fh := spesh_log_fh i; spesh_enabled := spesh_enabled
  i; spesh_inline_enabled := spesh_inline_enabled i; spesh_osr_enabled := spesh_osr_enabled i;
  spesh_nodelay := spesh_nodelay i; spesh_limit := spesh_limit i; jit_enabled := jit_enabled
  i; jit_log_fh := jit_log_fh i; jit_bytecode_map := jit_bytecode_map i; jit_bytecode_dir :=
  jit_bytecode_dir i; jit_seq_nr := jit_seq_nr i; dynvar_log_fh := dynvar_log_fh i;
  nfa_debug_enabled := nfa_debug_enabled i; cross_thread_write_logging :=
  cross_thread_write_logging i; cross_thread_write_logging_include_locked :=
  cross_thread_write_logging_include_locked i; coverage_logging := coverage_logging i;
  coverage_log_fh := coverage_log_fh i; lib_path := lib_path i |}.

Definition set_spesh_log_fh (v : option FILE) (i : MVMInstance) : MVMInstance :=
  {| main_thread := main_thread i; next_user_thread_id := next_user_thread_id i;
  instrumentation_level := instrumentation_level i; spesh_log_fh := v; spesh_enabled :=
  spesh_enabled i; spesh_inline_enabled := spesh_inline_enabled i; spesh_osr_enabled :=
  spesh_osr_enabled i; spesh_nodelay := spesh_nodelay i; spesh_limit := spesh_limit i;
  jit_enabled := jit_enabled i; jit_log_fh := jit_log_fh i; jit_bytecode_map :=
  jit_bytecode_map i; jit_bytecode_dir := jit_bytecode_dir i; jit_seq_nr := jit_seq_nr i;
  dynvar_log_fh := dynvar_log_fh i; nfa_debug_enabled := nfa_debug_enabled i;
  cross_thread_write_logging := cross_thread_write_logging i;
  cross_thread_write_logging_include_locked := cross_thread_write_logging_include_locked i;
  coverage_logging := coverage_logging i; coverage_log_fh := coverage_log_fh i; lib_path :=
  lib_path i |}.

Definition set_spesh_enabled (v : Z) (i : MVMInstance) : MVMInstance :=
  {| main_thread := main_thread i; next_user_thread_id := next_user_thread_id i;
  instrumentation_level := instrumentation_level i; spesh_log_fh := spesh_log_fh i;
  spesh_enabled := v; spesh_inline_enabled := spesh_inline_enabled i; spesh_osr_enabled :=
  spesh_osr_enabled i; spesh_nodelay := spesh_nodelay i; spesh_limit := spesh_limit i;
  jit_enabled := jit_enabled i; jit_log_fh := jit_log_fh i; jit_bytecode_map :=
  jit_bytecode_map i; jit_bytecode_dir := jit_bytecode_dir i; jit_seq_nr := jit_seq_nr i;
  dynvar_log_fh := dynvar_log_fh i; nfa_debug_enabled := nfa_debug_enabled i;
  cross_thread_write_logging := cross_thread_write_logging i;
  cross_thread_write_logging_include_locked := cross_thread_write_logging_include_locked i;
  coverage_logging := coverage_logging i; coverage_log_fh := coverage_log_fh i; lib_path :=
  lib_path i |}.

Definition set_spesh_inline_enabled (v : Z) (i : MVMInstance) : MVMInstance :=
  {| main_thread := main_thread i; next_user_thread_id := next_user_thread_id i;
  instrumentation_level := instrumentation_level i; spesh_log_fh := spesh_log_fh i;
  spesh_enabled := spesh_enabled i; spesh_inline_enabled := v; spesh_osr_enabled :=
  spesh_osr_enabled i; spesh_nodelay := spesh_nodelay i; spesh_limit := spesh_limit i;
  jit_enabled := jit_enabled i; jit_log_fh := jit_log_fh i; jit_bytecode_map :=
  jit_bytecode_map i; jit_bytecode_dir := jit_bytecode_dir i; jit_seq_nr := jit_seq_nr i;
  dynvar_log_fh := dynvar_log_fh i; nfa_debug_enabled := nfa_debug_enabled i;
  cross_thread_write_logging := cross_thread_write_logging i;
  cross_thread_write_logging_include_locked := cross_thread_write_logging_include_locked i;
  coverage_logging := coverage_logging i; coverage_log_fh := coverage_log_fh i; lib_path :=
  lib_path i |}.

Definition set_spesh_osr_enabled (v : Z) (i : MVMInstance) : MVMInstance :=
  {| main_thread := main_thread i; next_user_thread_id := next_user_thread_id i;
  instrumentation_level := instrumentation_level i; spesh_log_fh := spesh_log_fh i;
  spesh_enabled := spesh_enabled i; spesh_inline_enabled := spesh_inline_enabled i;
  spesh_osr_enabled := v; spesh_nodelay := spesh_nodelay i; spesh_limit := spesh_limit i;
  jit_enabled := jit_enabled i; jit_log_fh := jit_log_fh i; jit_bytecode_map :=
  jit_bytecode_map i; jit_bytecode_dir := jit_bytecode_dir i; jit_seq_nr := jit_seq_nr i;
  dynvar_log_fh := dynvar_log_fh i; nfa_debug_enabled := nfa_debug_enabled i;
  cross_thread_write_logging := cross_thread_write_logging i;
  cross_thread_write_logging_include_locked := cross_thread_write_logging_include_locked i;
  coverage_logging := coverage_logging i; coverage_log_fh := coverage_log_fh i; lib_path :=
  lib_path i |}.

Definition set_spesh_nodelay (v : Z) (i : MVMInstance) : MVMInstance :=
  {| main_thread := main_thread i; next_user_thread_id := next_user_thread_id i;
  instrumentation_level := instrumentation_level i; spesh_log_fh := spesh_log_fh i;
  spesh_enabled := spesh_enabled i; spesh_inline_enabled := spesh_inline_enabled i;
  spesh_osr_enabled := spesh_osr_enabled i; spesh_nodelay := v; spesh_limit := spesh_limit i;
  jit_enabled := jit_enabled i; jit_log_fh := jit_log_fh i; jit_bytecode_map :=
  jit_bytecode_map i; jit_bytecode_dir := jit_bytecode_dir i; jit_seq_nr := jit_seq_nr i;
  dynvar_log_fh := dynvar_log_fh i; nfa_debug_enabled := nfa_debug_enabled i;
  cross_thread_write_logging := cross_thread_write_logging i;
  cross_thread_write_logging_include_locked := cross_thread_write_logging_include_locked i;
  coverage_logging := coverage_logging i; coverage_log_fh := coverage_log_fh i; lib_path :=
  lib_path i |}.

Definition set_spesh_limit (v : Z) (i : MVMInstance) : MVMInstance :=
  {| main_thread := main_thread i; next_user_thread_id := next_user_thread_id i;
  instrumentation_level := instrumentation_level i; spesh_log_fh := spesh_log_fh i;
  spesh_enabled := spesh_enabled i; spesh_inline_enabled := spesh_inline_enabled i;
  spesh_osr_enabled := spesh_osr_enabled i; spesh_nodelay := spesh_nodelay i; spesh_limit :=
  v; jit_enabled := jit_enabled i; jit_log_fh := jit_log_fh i; jit_bytecode_map :=
  jit_bytecode_map i; jit_bytecode_dir := jit_bytecode_dir i; jit_seq_nr := jit_seq_nr i;
  dynvar_log_fh := dynvar_log_fh i; nfa_debug_enabled := nfa_debug_enabled i;
  cross_thread_write_logging := cross_thread_write_logging i;
  cross_thread_write_logging_include_locked := cross_thread_write_logging_include_locked i;
  coverage_logging := coverage_logging i; coverage_log_fh := coverage_log_fh i; lib_path :=
  lib_path i |}.

Definition set_jit_enabled (v : Z) (i : MVMInstance) : MVMInstance :=
  {| main_thread := main_thread i; next_user_thread_id := next_user_thread_id i;
  instrumentation_level := instrumentation_level i; spesh_log_fh := spesh_log_fh i;
  spesh_enabled := spesh_enabled i; spesh_inline_enabled := spesh_inline_enabled i;
  spesh_osr_enabled := spesh_osr_enabled i; spesh_nodelay := spesh_nodelay i; spesh_limit :=
  spesh_limit i; jit_enabled := v; jit_log_fh := jit_log_fh i; jit_bytecode_map :=
  jit_bytecode_map i; jit_bytecode_dir := jit_bytecode_dir i; jit_seq_nr := jit_seq_nr i;
  dynvar_log_fh := dynvar_log_fh i; nfa_debug_enabled := nfa_debug_enabled i;
  cross_thread_write_logging := cross_thread_write_logging i;
  cross_thread_write_logging_include_locked := cross_thread_write_logging_include_locked i;
  coverage_logging := coverage_logging i; coverage_log_fh := coverage_log_fh i; lib_path :=
  lib_path i |}.

Definition set_jit_log_fh (v : option FILE) (i : MVMInstance) : MVMInstance :=
  {| main_thread := main_thread i; next_user_thread_id := next_user_thread_id i;
  instrumentation_level := instrumentation_level i; spesh_log_fh := spesh_log_fh i;
  spesh_enabled := spesh_enabled i; spesh_inline_enabled := spesh_inline_enabled i;
  spesh_osr_enabled := spesh_osr_enabled i; spesh_nodelay := spesh_nodelay i; spesh_limit :=
  spesh_limit i; jit_enabled := jit_enabled i; jit_log_fh := v; jit_bytecode_map :=
  jit_bytecode_map i; jit_bytecode_dir := jit_bytecode_dir i; jit_seq_nr := jit_seq_nr i;
  dynvar_log_fh := dynvar_log_fh i; nfa_debug_enabled := nfa_debug_enabled i;
  cross_thread_write_logging := cross_thread_write_logging i;
  cross_thread_write_logging_include_locked := cross_thread_write_logging_include_locked i;
  coverage_logging := coverage_logging i; coverage_log_fh := coverage_log_fh i; lib_path :=
  lib_path i |}.

Definition set_jit_bytecode_map (v : option FILE) (i : MVMInstance) : MVMInstance :=
  {| main_thread := main_thread i; next_user_thread_id := next_user_thread_id i;
  instrumentation_level := instrumentation_level i; spesh_log_fh := spesh_log_fh i;
  spesh_enabled := spesh_enabled i; spesh_inline_enabled := spesh_inline_enabled i;
  spesh_osr_enabled := spesh_osr_enabled i; spesh_nodelay := spesh_nodelay i; spesh_limit :=
  spesh_limit i; jit_enabled := jit_enabled i; jit_log_fh := jit_log_fh i; jit_bytecode_map :=
  v; jit_bytecode_dir := jit_bytecode_dir i; jit_seq_nr := jit_seq_nr i; dynvar_log_fh :=
  dynvar_log_fh i; nfa_debug_enabled := nfa_debug_enabled i; cross_thread_write_logging :=
  cross_thread_write_logging i; cross_thread_write_logging_include_locked :=
  cross_thread_write_logging_include_locked i; coverage_logging := coverage_logging i;
  coverage_log_fh := coverage_log_fh i; lib_path := lib_path i |}.

Definition set_jit_bytecode_dir (v : option string) (i : MVMInstance) : MVMInstance :=
  {| main_thread := main_thread i; next_user_thread_id := next_user_thread_id i;
  instrumentation_level := instrumentation_level i; spesh_log_fh := spesh_log_fh i;
  spesh_enabled := spesh_enabled i; spesh_inline_enabled := spesh_inline_enabled i;
  spesh_osr_enabled := spesh_osr_enabled i; spesh_nodelay := spesh_nodelay i; spesh_limit :=
  spesh_limit i; jit_enabled := jit_enabled i; jit_log_fh := jit_log_fh i; jit_bytecode_map :=
  jit_bytecode_map i; jit_bytecode_dir := v; jit_seq_nr := jit_seq_nr i; dynvar_log_fh :=
  dynvar_log_fh i; nfa_debug_enabled := nfa_debug_enabled i; cross_thread_write_logging :=
  cross_thread_write_logging i; cross_thread_write_logging_include_locked :=
  cross_thread_write_logging_include_locked i; coverage_logging := coverage_logging i;
  coverage_log_fh := coverage_log_fh i; lib_path := lib_path i |}.

Definition set_jit_seq_nr (v : Z) (i : MVMInstance) : MVMInstance :=
  {| main_thread := main_thread i; next_user_thread_id := next_user_thread_id i;
  instrumentation_level := instrumentation_level i; spesh_log_fh := spesh_log_fh i;
  spesh_enabled := spesh_enabled i; spesh_inline_enabled := spesh_inline_enabled i;
  spesh_osr_enabled := spesh_osr_enabled i; spesh_nodelay := spesh_nodelay i; spesh_limit :=
  spesh_limit i; jit_enabled := jit_enabled i; jit_log_fh := jit_log_fh i; jit_bytecode_map :=
  jit_bytecode_map i; jit_bytecode_dir := jit_bytecode_dir i; jit_seq_nr := v; dynvar_log_fh
  := dynvar_log_fh i; nfa_debug_enabled := nfa_debug_enabled i; cross_thread_write_logging :=
  cross_thread_write_logging i; cross_thread_write_logging_include_locked :=
  cross_thread_write_logging_include_locked i; coverage_logging := coverage_logging i;
  coverage_log_fh := coverage_log_fh i; lib_path := lib_path i |}.

Definition set_dynvar_log_fh (v : option FILE) (i : MVMInstance) : MVMInstance :=
  {| main_thread := main_thread i; next_user_thread_id := next_user_thread_id i;
  instrumentation_level := instrumentation_level i; spesh_log_fh := spesh_log_fh i;
  spesh_enabled := spesh_enabled i; spesh_inline_enabled := spesh_inline_enabled i;
  spesh_osr_enabled := spesh_osr_enabled i; spesh_nodelay := spesh_nodelay i; spesh_limit :=
  spesh_limit i; jit_enabled := jit_enabled i; jit_log_fh := jit_log_fh i; jit_bytecode_map :=
  jit_bytecode_map i; jit_bytecode_dir := jit_bytecode_dir i; jit_seq_nr := jit_seq_nr i;
  dynvar_log_fh := v; nfa_debug_enabled := nfa_debug_enabled i; cross_thread_write_logging :=
  cross_thread_write_logging i; cross_thread_write_logging_include_locked :=
  cross_thread_write_logging_include_locked i; coverage_logging := coverage_logging i;
  coverage_log_fh := coverage_log_fh i; lib_path := lib_path i |}.

Definition set_nfa_debug_enabled (v : Z) (i : MVMInstance) : MVMInstance :=
  {| main_thread := main_thread i; next_user_thread_id := next_user_thread_id i;
  instrumentation_level := instrumentation_level i; spesh_log_fh := spesh_log_fh i;
  spesh_enabled := spesh_enabled i; spesh_inline_enabled := spesh_inline_enabled i;
  spesh_osr_enabled := spesh_osr_enabled i; spesh_nodelay := spesh_nodelay i; spesh_limit :=
  spesh_limit i; jit_enabled := jit_enabled i; jit_log_fh := jit_log_fh i; jit_bytecode_map :=
  jit_bytecode_map i; jit_bytecode_dir := jit_bytecode_dir i; jit_seq_nr := jit_seq_nr i;
  dynvar_log_fh := dynvar_log_fh i; nfa_debug_enabled := v; cross_thread_write_logging :=
  cross_thread_write_logging i; cross_thread_write_logging_include_locked :=
  cross_thread_write_logging_include_locked i; coverage_logging := coverage_logging i;
  coverage_log_fh := coverage_log_fh i; lib_path := lib_path i |}.

Definition set_cross_thread_write_logging (v : Z) (i : MVMInstance) : MVMInstance :=
  {| main_thread := main_thread i; next_user_thread_id := next_user_thread_id i;
  instrumentation_level := instrumentation_level i; spesh_log_fh := spesh_log_fh i;
  spesh_enabled := spesh_enabled i; spesh_inline_enabled := spesh_inline_enabled i;
  spesh_osr_enabled := spesh_osr_enabled i; spesh_nodelay := spesh_nodelay i; spesh_limit :=
  spesh_limit i; jit_enabled := jit_enabled i; jit_log_fh := jit_log_fh i; jit_bytecode_map :=
  jit_bytecode_map i; jit_bytecode_dir := jit_bytecode_dir i; jit_seq_nr := jit_seq_nr i;
  dynvar_log_fh := dynvar_log_fh i; nfa_debug_enabled := nfa_debug_enabled i;
  cross_thread_write_logging := v; cross_thread_write_logging_include_locked :=
  cross_thread_write_logging_include_locked i; coverage_logging := coverage_logging i;
  coverage_log_fh := coverage_log_fh i; lib_path := lib_path i |}.

Definition set_cross_thread_write_logging_include_locked (v : Z) (i : MVMInstance) : MVMInstance :=
  {| main_thread := main_thread i; next_user_thread_id := next_user_thread_id i;
  instrumentation_level := instrumentation_level i; spesh_log_fh := spesh_log_fh i;
  spesh_enabled := spesh_enabled i; spesh_inline_enabled := spesh_inline_enabled i;
  spesh_osr_enabled := spesh_osr_enabled i; spesh_nodelay := spesh_nodelay i; spesh_limit :=
  spesh_limit i; jit_enabled := jit_enabled i; jit_log_fh := jit_log_fh i; jit_bytecode_map :=
  jit_bytecode_map i; jit_bytecode_dir := jit_bytecode_dir i; jit_seq_nr := jit_seq_nr i;
  dynvar_log_fh := dynvar_log_fh i; nfa_debug_enabled := nfa_debug_enabled i;
  cross_thread_write_logging := cross_thread_write_logging i;
  cross_thread_write_logging_include_locked := v; coverage_logging := coverage_logging i;
  coverage_log_fh := coverage_log_fh i; lib_path := lib_path i |}.

Definition set_coverage_logging (v : Z) (i : MVMInstance) : MVMInstance :=
  {| main_thread := main_thread i; next_user_thread_id := next_user_thread_id i;
  instrumentation_level := instrumentation_level i; spesh_log_fh := spesh_log_fh i;
  spesh_enabled := spesh_enabled i; spesh_inline_enabled := spesh_inline_enabled i;
  spesh_osr_enabled := spesh_osr_enabled i; spesh_nodelay := spesh_nodelay i; spesh_limit :=
  spesh_limit i; jit_enabled := jit_enabled i; jit_log_fh := jit_log_fh i; jit_bytecode_map :=
  jit_bytecode_map i; jit_bytecode_dir := jit_bytecode_dir i; jit_seq_nr := jit_seq_nr i;
  dynvar_log_fh := dynvar_log_fh i; nfa_debug_enabled := nfa_debug_enabled i;
  cross_thread_write_logging := cross_thread_write_logging i;
  cross_thread_write_logging_include_locked := cross_thread_write_logging_include_locked i;
  coverage_logging := v; coverage_log_fh := coverage_log_fh i; lib_path := lib_path i |}.

Definition set_coverage_log_fh (v : option FILE) (i : MVMInstance) : MVMInstance :=
  {| main_thread := main_thread i; next_user_thread_id := next_user_thread_id i;
  instrumentation_level := instrumentation_level i; spesh_log_fh := spesh_log_fh i;
  spesh_enabled := spesh_enabled i; spesh_inline_enabled := spesh_inline_enabled i;
  spesh_osr_enabled := spesh_osr_enabled i; spesh_nodelay := spesh_nodelay i; spesh_limit :=
  spesh_limit i; jit_enabled := jit_enabled i; jit_log_fh := jit_log_fh i; jit_bytecode_map :=
  jit_bytecode_map i; jit_bytecode_dir := jit_bytecode_dir i; jit_seq_nr := jit_seq_nr i;
  dynvar_log_fh := dynvar_log_fh i; nfa_debug_enabled := nfa_debug_enabled i;
  cross_thread_write_logging := cross_thread_write_logging i;
  cross_thread_write_logging_include_locked := cross_thread_write_logging_include_locked i;
  coverage_logging := coverage_logging i; coverage_log_fh := v; lib_path := lib_path i |}.

Definition set_lib_path (v : list (option string)) (i : MVMInstance) : MVMInstance :=
  {| main_thread := main_thread i; next_user_thread_id := next_user_thread_id i;
  instrumentation_level := instrumentation_level i; spesh_log_fh := spesh_log_fh i;
  spesh_enabled := spesh_enabled i; spesh_inline_enabled := spesh_inline_enabled i;
  spesh_osr_enabled := spesh_osr_enabled i; spesh_nodelay := spesh_nodelay i; spesh_limit :=
  spesh_limit i; jit_enabled := jit_enabled i; jit_log_fh := jit_log_fh i; jit_bytecode_map :=
  jit_bytecode_map i; jit_bytecode_dir := jit_bytecode_dir i; jit_seq_nr := jit_seq_nr i;
  dynvar_log_fh := dynvar_log_fh i; nfa_debug_enabled := nfa_debug_enabled i;
  cross_thread_write_logging := cross_thread_write_logging i;
  cross_thread_write_logging_include_locked := cross_thread_write_logging_include_locked i;
  coverage_logging := coverage_logging i; coverage_log_fh := coverage_log_fh i; lib_path := v
  |}.

(** What the process did to its surroundings, newest first. *)
Inductive event : Type :=
| ev_getenv (name : string)
| ev_fopen (path mode : string)
| ev_fclose (f : FILE)
| ev_snprintf (format : string) (arg : Z)
| ev_stderr (text : string)
| ev_exit (status : Z).

Record World := {
  instance : MVMInstance;            (* the MVMInstance in memory *)
  open_files : list (nat * string);  (* streams fopen returned, not yet closed *)
  next_stream : nat;
  live_mutexes : list mutex;         (* initialised and not destroyed *)
  trace : list event;
}.

Definition with_instance (f : MVMInstance -> MVMInstance) (w : World) : World :=
  {| instance := f (instance w); open_files := open_files w;
     next_stream := next_stream w; live_mutexes := live_mutexes w; trace := trace w |}.

Definition with_event (e : event) (w : World) : World :=
  {| instance := instance w; open_files := open_files w;
     next_stream := next_stream w; live_mutexes := live_mutexes w;
     trace := e :: trace w |}.

Definition with_stream (path : string) (w : World) : World :=
  {| instance := instance w; open_files := (next_stream w, path) :: open_files w;
     next_stream := S (next_stream w); live_mutexes := live_mutexes w;
     trace := trace w |}.

Definition without_stream (f : FILE) (w : World) : World :=
  {| instance := instance w;
     open_files := filter (fun s => bool_decide (stream s.1 <> f)) (open_files w);
     next_stream := next_stream w; live_mutexes := live_mutexes w; trace := trace w |}.

Definition with_mutexes (f : list mutex -> list mutex) (w : World) : World :=
  {| instance := instance w; open_files := open_files w;
     next_stream := next_stream w; live_mutexes := f (live_mutexes w);
     trace := trace w |}.

(** Whether the stream is open. *)
Definition is_open (f : FILE) (w : World) : Prop :=
  match f with
  | stderr => True
  | stream id => id ∈ (open_files w).*1
  end.

Global Instance is_open_dec (f : FILE) (w : World) : Decision (is_open f w).
Proof. destruct f; cbn [is_open]; apply _. Defined.

(** What is outside the program: the environment, the process id, and the
    results of the libuv and libc calls whose outcome the program cannot
    influence. *)
Record Host := {
  environ : gmap string string;
  getpid : Z;
  uv_mutex_init : mutex -> Z;
  uv_strerror : Z -> string;
  fopen_succeeds : string -> string -> bool;
  atoi : string -> Z;
}.

(** ** Computations: a run returns, leaves through [exit], or is undefined *)

Inductive outcome (A : Type) : Type :=
| Return (a : A) (w : World)
| Exit (status : Z) (w : World)
| Undefined.
Arguments Return {A} a w.
Arguments Exit {A} status w.
Arguments Undefined {A}.

Definition M (A : Type) : Type := World -> outcome A.

Definition ret {A} (a : A) : M A := fun w => Return a w.

Definition bind {A B} (m : M A) (k : A -> M B) : M B :=
  fun w =>
    match m w with
    | Return a w' => k a w'
    | Exit status w' => Exit status w'
    | Undefined => Undefined
    end.

Notation "'let*' x ':=' m 'in' k" := (bind m (fun x => k))
  (at level 10, x name, m at level 100, k at level 200).
Notation "m >> k" := (bind m (fun _ => k))
  (at level 90, right associativity).

Definition undefined {A} : M A := fun _ => Undefined.

(** [instance->field = v] and reads of the instance. *)
Definition store (f : MVMInstance -> MVMInstance) : M unit :=
  fun w => Return tt (with_instance f w).

Definition load {A} (f : MVMInstance -> A) : M A :=
  fun w => Return (f (instance w)) w.

(** [exit(status)]. *)
Definition exit {A} (status : Z) : M A :=
  fun w => Exit status (with_event (ev_exit status) w).

(** [fprintf(stderr, ...)] with the text it prints. *)
Definition fprintf_stderr (text : string) : M unit :=
  fun w => Return tt (with_event (ev_stderr text) w).

(** [fprintf(fh, ...)], [fflush(fh)] on a log stream; what is written to a
    log is not tracked, but a NULL stream is undefined behaviour. *)
Definition fprintf (fh : option FILE) : M unit :=
  match fh with
  | Some _ => ret tt
  | None => undefined
  end.

(** [fclose(fh)]; on a stream that is not open (closed before, or never
    opened) the behaviour is undefined. *)
Definition fclose (fh : FILE) : M unit :=
  fun w =>
    if decide (is_open fh w)
    then Return tt (with_event (ev_fclose fh) (without_stream fh w))
    else Undefined.

(** A call into a collaborator whose code is outside [src/moar.c] (thread
    contexts, the allocators, the GC, Unicode, 6model, callsites, ...). It is
    taken to return and to leave the modelled fields alone. *)
Definition collaborator (name : string) : M unit := ret tt.

(** What [init_mutex] prints when [uv_mutex_init] fails: the format
    ["MoarVM: Initialization of " name " mutex failed\n    %s\n"] with
    [uv_strerror(init_stat)]. *)
Definition mutex_failure_message (name error : string) : string :=
  "MoarVM: Initialization of " +:+ name +:+ " mutex failed" +:+ newline
  +:+ "    " +:+ error +:+ newline.

Section Moar.

Variable host : Host.

(** [sizeof instance->lib_path / sizeof *instance->lib_path]: the array is
    declared in [moar.h]. *)
Variable MAX_COUNT : nat.

Definition getenv (name : string) : M (option string) :=
  fun w => Return (environ host !! name) (with_event (ev_getenv name) w).

Definition fopen (path mode : string) : M (option FILE) :=
  fun w =>
    let w := with_event (ev_fopen path mode) w in
    if fopen_succeeds host path mode
    then Return (Some (stream (next_stream w))) (with_stream path w)
    else Return None w.

(** The [init_mutex(loc, name)] macro. *)
Definition init_mutex (loc : mutex) (name : string) : M unit :=
  let init_stat := uv_mutex_init host loc in
  if init_stat <? 0 then
    fprintf_stderr (mutex_failure_message name (uv_strerror host init_stat)) >>
    exit 1
  else
    fun w => Return tt (with_mutexes (cons loc) w).

Definition uv_mutex_destroy (loc : mutex) : M unit :=
  fun w => Return tt (with_mutexes (filter (fun m => m <> loc)) w).

(** [snprintf(fixed_path, size, path, pid)] into a freshly allocated buffer. *)
Definition snprintf_path (size : Z) (format : string) (arg : Z) : M string :=
  fun w =>
    match snprintf size format arg with
    | Some fixed_path => Return fixed_path (with_event (ev_snprintf format arg) w)
    | None => Undefined
    end.

Definition fopen_perhaps_with_pid (path mode : string) : M (option FILE) :=
  match strstr path "%d" with
  | Some _ =>
      let path_length := MVMuint64 (strlen path) in
      match count_percents (String.length path) path path_length 0 0 with
      | None => undefined (* not reached: see [found_percents_total] *)
      | Some found_percents =>
          if 1 <? found_percents then fopen path mode
          else
            let pid := getpid host in
            let* fixed_path := snprintf_path (MVMuint64 (path_length + 16)) path pid in
            fopen fixed_path mode
      end
  | None => fopen path mode
  end.

(** ** [MVM_vm_create_instance] *)

(** [v && strlen(v)] and [!v || strlen(v) == 0] on a [getenv] result. *)
Definition set_and_nonempty (v : option string) : bool :=
  match v with
  | Some s => negb (strlen s =? 0)
  | None => false
  end.

(** A pointer tested for being non-NULL. *)
Definition is_set {A} (v : option A) : bool :=
  match v with
  | Some _ => true
  | None => false
  end.

Definition unset_or_empty (v : option string) : bool :=
  match v with
  | Some s => strlen s =? 0
  | None => true
  end.

Definition MVMuint32 (z : Z) : Z := z mod 2 ^ 32.

(** [instance->instrumentation_level++] on the [MVMuint32] field. *)
Definition incr_instrumentation_level (i : MVMInstance) : MVMInstance :=
  set_instrumentation_level (MVMuint32 (instrumentation_level i + 1)) i.

(** [MVM_calloc(1, sizeof(MVMInstance))]. *)
Definition calloc_instance : MVMInstance :=
  {| main_thread := {| thread_id := 0 |}; next_user_thread_id := 0;
     instrumentation_level := 0; spesh_log_fh := None; spesh_enabled := 0;
     spesh_inline_enabled := 0; spesh_osr_enabled := 0; spesh_nodelay := 0;
     spesh_limit := 0; jit_enabled := 0; jit_log_fh := None;
     jit_bytecode_map := None; jit_bytecode_dir := None; jit_seq_nr := 0;
     dynvar_log_fh := None; nfa_debug_enabled := 0;
     cross_thread_write_logging := 0;
     cross_thread_write_logging_include_locked := 0; coverage_logging := 0;
     coverage_log_fh := None; lib_path := replicate MAX_COUNT None |}.

(** The body of [MVM_vm_create_instance] is cut into blocks at the comments
    of the source; the local variables of the C function are used only within
    one block each. *)

(** Lines 75-84: the instance, the main thread's context and the thread ids. *)
Definition create_main_thread : M unit :=
  store (fun _ => calloc_instance) >>
  collaborator "MVM_tc_create" >>
  store (set_main_thread {| thread_id := 1 |}) >>
  (* Next thread to be created gets ID 2 (the main thread got ID 1). *)
  store (set_next_user_thread_id 2).

(** Lines 86-179: permanent roots, allocator, registries, caches, Unicode,
    6model, the main thread object, compiler registry, callsites. *)
Definition create_registries : M unit :=
  collaborator "MVM_malloc permroots" >>
  init_mutex mutex_permroots "permanent roots" >>
  collaborator "MVM_fixed_size_create" >>
  init_mutex mutex_repr_registry "REPR registry" >>
  init_mutex mutex_hllconfigs "hll configs" >>
  (* Set up DLL registry mutex. *)
  init_mutex mutex_dll_registry "REPR registry" >>
  init_mutex mutex_ext_registry "extension registry" >>
  init_mutex mutex_extop_registry "extension op registry" >>
  init_mutex mutex_sc_weakhash "sc weakhash" >>
  init_mutex mutex_loaded_compunits "loaded compunits" >>
  init_mutex mutex_container_registry "container registry" >>
  init_mutex mutex_object_ids "object ID hash" >>
  collaborator "MVM_gc_allocate_gen2_default_set" >>
  init_mutex mutex_int_const_cache "int constant cache" >>
  collaborator "MVM_calloc int_const_cache, int_to_str_cache" >>
  collaborator "MVM_unicode_init" >>
  collaborator "MVM_string_cclass_init" >>
  collaborator "MVM_nfg_init" >>
  collaborator "MVM_6model_bootstrap" >>
  collaborator "MVM_repr_alloc_init cur_usecapture" >>
  init_mutex mutex_event_loop_start "event loop thread start" >>
  collaborator "allocate BOOTThread, instance->threads" >>
  collaborator "MVM_repr_alloc_init compiler_registry" >>
  init_mutex mutex_compiler_registry "compiler registry" >>
  collaborator "MVM_repr_alloc_init hll_syms" >>
  init_mutex mutex_hll_syms "hll syms" >>
  collaborator "MVM_calloc callsite_interns" >>
  init_mutex mutex_callsite_interns "callsite interns" >>
  collaborator "MVM_callsite_initialize_common" >>
  init_mutex mutex_multi_cache_add "multi-cache addition".

(** Lines 185-213: spesh installation mutex, log and switches. *)
Definition configure_spesh : M unit :=
  init_mutex mutex_spesh_install "spesh installations" >>
  let* spesh_log := getenv "MVM_SPESH_LOG" in
  match spesh_log with
  | Some path =>
      if negb (strlen path =? 0) then
        let* fh := fopen_perhaps_with_pid path "w" in
        store (set_spesh_log_fh fh)
      else ret tt
  | None => ret tt
  end >>
  let* spesh_disable := getenv "MVM_SPESH_DISABLE" in
  (if unset_or_empty spesh_disable then
     store (set_spesh_enabled 1) >>
     let* spesh_inline_disable := getenv "MVM_SPESH_INLINE_DISABLE" in
     (if unset_or_empty spesh_inline_disable
      then store (set_spesh_inline_enabled 1) else ret tt) >>
     let* spesh_osr_disable := getenv "MVM_SPESH_OSR_DISABLE" in
     (if unset_or_empty spesh_osr_disable
      then store (set_spesh_osr_enabled 1) else ret tt)
   else ret tt) >>
  let* spesh_nodelay := getenv "MVM_SPESH_NODELAY" in
  (if set_and_nonempty spesh_nodelay
   then store (set_spesh_nodelay 1) else ret tt) >>
  let* spesh_limit := getenv "MVM_SPESH_LIMIT" in
  match spesh_limit with
  | Some limit =>
      if negb (strlen limit =? 0)
      then store (set_spesh_limit (atoi host limit)) else ret tt
  | None => ret tt
  end.

(** Lines 215-230: JIT switches and logs. *)
Definition configure_jit : M unit :=
  let* jit_disable := getenv "MVM_JIT_DISABLE" in
  (if unset_or_empty jit_disable then store (set_jit_enabled 1) else ret tt) >>
  let* jit_log := getenv "MVM_JIT_LOG" in
  match jit_log with
  | Some path =>
      if negb (strlen path =? 0) then
        let* fh := fopen_perhaps_with_pid path "w" in
        store (set_jit_log_fh fh)
      else ret tt
  | None => ret tt
  end >>
  let* jit_bytecode_dir := getenv "MVM_JIT_BYTECODE_DIR" in
  match jit_bytecode_dir with
  | Some dir =>
      if negb (strlen dir =? 0) then
        (* sprintf(bytecode_map_name, "%s/jit-map.txt", jit_bytecode_dir) *)
        let bytecode_map_name := dir +:+ "/jit-map.txt" in
        let* fh := fopen bytecode_map_name "w" in
        store (set_jit_bytecode_map fh) >>
        store (set_jit_bytecode_dir (Some dir))
      else ret tt
  | None => ret tt
  end >>
  store (set_jit_seq_nr 0).

(** Lines 232-242: the dynamic variable log and NFA debugging. *)
Definition configure_dynvar_log : M unit :=
  let* dynvar_log := getenv "MVM_DYNVAR_LOG" in
  (if set_and_nonempty dynvar_log then
     match dynvar_log with
     | Some path =>
         let* fh := fopen_perhaps_with_pid path "w" in
         store (set_dynvar_log_fh fh) >>
         let* dynvar_log_fh := load dynvar_log_fh in
         fprintf dynvar_log_fh
     | None => ret tt
     end
   else store (set_dynvar_log_fh None)) >>
  let* nfa_deb := getenv "MVM_NFA_DEB" in
  store (set_nfa_debug_enabled (if is_set nfa_deb then 1 else 0)).

(** Lines 243-253: cross-thread write logging. *)
Definition configure_cross_thread_write_log : M unit :=
  let* cross_thread_write_log := getenv "MVM_CROSS_THREAD_WRITE_LOG" in
  if is_set cross_thread_write_log then
    store (set_cross_thread_write_logging 1) >>
    let* include_locked := getenv "MVM_CROSS_THREAD_WRITE_LOG_INCLUDE_LOCKED" in
    store (set_cross_thread_write_logging_include_locked
             (if is_set include_locked then 1 else 0)) >>
    store incr_instrumentation_level >>
    init_mutex mutex_cross_thread_write_logging "cross thread write logging output"
  else
    store (set_cross_thread_write_logging 0).

(** Lines 255-266: coverage logging. *)
Definition configure_coverage_log : M unit :=
  let* coverage := getenv "MVM_COVERAGE_LOG" in
  if is_set coverage then
    let* coverage_log := getenv "MVM_COVERAGE_LOG" in
    store (set_coverage_logging 1) >>
    store incr_instrumentation_level >>
    match coverage_log with
    | Some path =>
        if negb (strlen path =? 0) then
          let* fh := fopen_perhaps_with_pid path "a" in
          store (set_coverage_log_fh fh)
        else store (set_coverage_log_fh (Some stderr))
    | None => undefined (* strlen(NULL) *)
    end
  else
    store (set_coverage_logging 0).

(** [setup_std_handles]: three handle objects made and rooted by
    collaborators. *)
Definition setup_std_handles : M unit :=
  collaborator "MVM_file_get_stdstream 0, MVM_gc_root_add_permanent_desc stdin handle" >>
  collaborator "MVM_file_get_stdstream 1, MVM_gc_root_add_permanent_desc stdout handle" >>
  collaborator "MVM_file_get_stdstream 2, MVM_gc_root_add_permanent_desc stderr handle".

Definition MVM_vm_create_instance : M MVMInstance :=
  create_main_thread >>
  create_registries >>
  (* Current instrumentation level starts at 1 *)
  store (set_instrumentation_level 1) >>
  configure_spesh >>
  configure_jit >>
  configure_dynvar_log >>
  configure_cross_thread_write_log >>
  configure_coverage_log >>
  setup_std_handles >>
  collaborator "MVM_gc_allocate_gen2_default_clear" >>
  load (fun instance => instance).

(** ** [MVM_vm_exit] and [MVM_vm_destroy_instance] *)

(** [if (fh) fclose(fh);] *)
Definition fclose_if_set (fh : option FILE) : M unit :=
  match fh with
  | Some f => fclose f
  | None => ret tt
  end.

Definition MVM_vm_exit : M unit :=
  collaborator "MVM_thread_join_foreground" >>
  let* fh := load spesh_log_fh in fclose_if_set fh >>
  let* fh := load jit_log_fh in fclose_if_set fh >>
  let* fh := load jit_bytecode_map in fclose_if_set fh >>
  let* fh := load dynvar_log_fh in
  match fh with
  | Some f => fprintf fh >> fclose f
  | None => ret tt
  end >>
  exit 0.

Definition MVM_vm_destroy_instance : M unit :=
  collaborator "MVM_thread_join_foreground" >>
  collaborator "MVM_gc_global_destruction" >>
  uv_mutex_destroy mutex_repr_registry >>
  collaborator "free repr_hash, repr_list" >>
  uv_mutex_destroy mutex_permroots >>
  collaborator "free permroots, permroot_descriptions" >>
  uv_mutex_destroy mutex_hllconfigs >>
  collaborator "free compiler_hll_configs, compilee_hll_configs" >>
  uv_mutex_destroy mutex_dll_registry >>
  collaborator "free dll_registry" >>
  uv_mutex_destroy mutex_ext_registry >>
  collaborator "free ext_registry" >>
  uv_mutex_destroy mutex_extop_registry >>
  collaborator "free extop_registry" >>
  uv_mutex_destroy mutex_sc_weakhash >>
  collaborator "free sc_weakhash, all_scs" >>
  uv_mutex_destroy mutex_loaded_compunits >>
  collaborator "free loaded_compunits" >>
  uv_mutex_destroy mutex_container_registry >>
  collaborator "free container_registry" >>
  uv_mutex_destroy mutex_compiler_registry >>
  uv_mutex_destroy mutex_hll_syms >>
  uv_mutex_destroy mutex_multi_cache_add >>
  uv_mutex_destroy mutex_callsite_interns >>
  collaborator "cleanup_callsite_interns" >>
  collaborator "MVM_unicode_release" >>
  (* Clean up spesh install mutex and close any log. *)
  uv_mutex_destroy mutex_spesh_install >>
  let* fh := load spesh_log_fh in fclose_if_set fh >>
  let* fh := load jit_log_fh in fclose_if_set fh >>
  let* fh := load dynvar_log_fh in fclose_if_set fh >>
  uv_mutex_destroy mutex_cross_thread_write_logging >>
  uv_mutex_destroy nfg_update_mutex >>
  collaborator "MVM_nfg_destroy" >>
  collaborator "MVM_fixed_size_destroy" >>
  uv_mutex_destroy mutex_int_const_cache >>
  collaborator "free int_const_cache, int_to_str_cache" >>
  uv_mutex_destroy mutex_event_loop_start >>
  collaborator "MVM_tc_destroy" >>
  collaborator "MVM_free instance".

(** ** [MVM_vm_set_lib_path] *)

(** Modelled from the spec: [MVM_panic] (declared in [moar.h], defined outside
    [src/moar.c]) is the "fatal panic with diagnostic": it prints the message
    on the standard error stream and terminates the process with the status
    it is given. *)
Definition MVM_panic {A} (exitCode : Z) (message : string) : M A :=
  fprintf_stderr message >> exit exitCode.

(** [for (; i < count; ++i) instance->lib_path[i] = lib_path[i];] ([new_lib_path] is the
    caller's array) with [count]
    bounded by [MAX_COUNT]; reading past the end of the caller's array is
    undefined. Returns the final [i]. *)
Fixpoint copy_lib_path (fuel : nat) (i count : Z) (new_lib_path : list (option string))
  : M Z :=
  if i <? count then
    match fuel with
    | O => undefined
    | S fuel' =>
        match new_lib_path !! Z.to_nat i with
        | Some p =>
            store (fun inst => set_lib_path (<[Z.to_nat i := p]> (lib_path inst)) inst) >>
            copy_lib_path fuel' (i + 1) count new_lib_path
        | None => undefined
        end
    end
  else ret i.

(** [for (; i < MAX_COUNT; ++i) instance->lib_path[i] = NULL;] *)
Fixpoint clear_lib_path (fuel : nat) (i : Z) : M unit :=
  if i <? Z.of_nat MAX_COUNT then
    match fuel with
    | O => undefined
    | S fuel' =>
        store (fun inst => set_lib_path (<[Z.to_nat i := None]> (lib_path inst)) inst) >>
        clear_lib_path fuel' (i + 1)
    end
  else ret tt.

Definition MVM_vm_set_lib_path (count : Z) (new_lib_path : list (option string)) : M unit :=
  let i := 0 in
  (if count >? Z.of_nat MAX_COUNT then
     MVM_panic 1 ("Cannot set more than " +:+ decimal (Z.of_nat MAX_COUNT)
                  +:+ " library paths")
   else ret tt) >>
  let* i := copy_lib_path MAX_COUNT i count new_lib_path in
  (* Clear remainder to allow repeated calls *)
  clear_lib_path MAX_COUNT i.

End Moar.

(** ** Vocabulary for statements about runs *)

(** The run of [m] from [w] returns, and its result and final state satisfy
    [Q]. *)
Definition returns {A} (m : M A) (Q : A -> World -> Prop) (w : World) : Prop :=
  match m w with
  | Return a w' => Q a w'
  | Exit _ _ | Undefined => False
  end.

(** The trace [t'] extends [t] by events that satisfy [E]. *)
Definition extends (E : event -> Prop) (t t' : list event) : Prop :=
  exists l, t' = l ++ t /\ Forall E l.

(** From [w] to [w'] only events that satisfy [E] were logged. *)
Definition logs (E : event -> Prop) (w w' : World) : Prop :=
  extends E (trace w) (trace w').

(** [m] returns from every state, leaves the view [π] of the instance as it
    was and logs only events that satisfy [E]. *)
Definition frames {A T} (π : MVMInstance -> T) (E : event -> Prop) (m : M A) : Prop :=
  forall w,
    returns m (fun _ w' => π (instance w') = π (instance w) /\ logs E w w') w.

(** Views of the instance. *)
Definition thread_ids (i : MVMInstance) : Z * Z :=
  (thread_id (main_thread i), next_user_thread_id i).

Definition spesh_switches (i : MVMInstance) : Z * Z * Z :=
  (spesh_enabled i, spesh_inline_enabled i, spesh_osr_enabled i).

(** A [getenv] of one of the two toggles that refine the specializer. *)
Definition toggle_consulted (e : event) : bool :=
  match e with
  | ev_getenv name =>
      String.eqb name "MVM_SPESH_INLINE_DISABLE" || String.eqb name "MVM_SPESH_OSR_DISABLE"
  | _ => false
  end.

Definition Z_of_bool (b : bool) : Z := if b then 1 else 0.

Section Bootable.

Variable host : Host.

(** The path [fopen_perhaps_with_pid] hands to [fopen]; [None] when the call
    is undefined. *)
Definition sanitized (path : string) : option string :=
  match strstr path "%d" with
  | Some _ =>
      match found_percents_of path with
      | None => None
      | Some found_percents =>
          if 1 <? found_percents then Some path
          else snprintf (MVMuint64 (MVMuint64 (strlen path) + 16)) path (getpid host)
      end
  | None => Some path
  end.

(** The mutexes [MVM_vm_create_instance] always initialises, in its order. *)
Definition bootstrap_mutexes : list mutex :=
  [mutex_permroots; mutex_repr_registry; mutex_hllconfigs; mutex_dll_registry;
   mutex_ext_registry; mutex_extop_registry; mutex_sc_weakhash;
   mutex_loaded_compunits; mutex_container_registry; mutex_object_ids;
   mutex_int_const_cache; mutex_event_loop_start; mutex_compiler_registry;
   mutex_hll_syms; mutex_callsite_interns; mutex_multi_cache_add;
   mutex_spesh_install].

Definition mutex_init_ok (loc : mutex) : bool := 0 <=? uv_mutex_init host loc.

(** The value of a log variable, when set, is a format the sanitizer
    handles. *)
Definition log_path_ok (name : string) : bool :=
  match environ host !! name with
  | Some path => is_set (sanitized path)
  | None => true
  end.

(** The dynamic variable log, when asked for, can be opened (the program
    writes to it without a check). *)
Definition dynvar_log_ok : bool :=
  match environ host !! "MVM_DYNVAR_LOG" with
  | Some path =>
      if strlen path =? 0 then true
      else match sanitized path with
           | Some fixed_path => fopen_succeeds host fixed_path "w"
           | None => false
           end
  | None => true
  end.

(** The conditions under which bootstrap runs to its end: every mutex it
    initialises can be initialised, and the log paths are usable. *)
Definition bootable : bool :=
  forallb mutex_init_ok bootstrap_mutexes
  && (negb (is_set (environ host !! "MVM_CROSS_THREAD_WRITE_LOG"))
      || mutex_init_ok mutex_cross_thread_write_logging)
  && log_path_ok "MVM_SPESH_LOG" && log_path_ok "MVM_JIT_LOG"
  && log_path_ok "MVM_COVERAGE_LOG" && dynvar_log_ok.

(** Events the specializer configuration may log: a toggle is asked for
    only if the specializer is not disabled. *)
Definition spesh_events (e : event) : Prop :=
  toggle_consulted e = false
  \/ unset_or_empty (environ host !! "MVM_SPESH_DISABLE") = true.

(** What [configure_spesh] does to the three switches. *)
Definition configured_switches (before : Z * Z * Z) : Z * Z * Z :=
  let '(enabled, inline, osr) := before in
  if unset_or_empty (environ host !! "MVM_SPESH_DISABLE") then
    (1,
     if unset_or_empty (environ host !! "MVM_SPESH_INLINE_DISABLE") then 1 else inline,
     if unset_or_empty (environ host !! "MVM_SPESH_OSR_DISABLE") then 1 else osr)
  else (enabled, inline, osr).

(** The state a process starts in: nothing open, no mutex, nothing logged;
    the instance memory is not yet allocated (its content here is
    overwritten by [MVM_vm_create_instance]). *)
Definition process_start (MAX_COUNT : nat) : World :=
  {| instance := calloc_instance MAX_COUNT; open_files := []; next_stream := 0;
     live_mutexes := []; trace := [] |}.

(** Modelled from the spec: thread creation (outside [src/moar.c]) assigns
    identifiers "from a shared atomic counter starting at 2, monotonically
    increasing, never reused": a new thread takes the counter's value and the
    counter moves on by one. *)
Definition next_thread_id : M Z :=
  let* id := load next_user_thread_id in
  store (set_next_user_thread_id (id + 1)) >>
  ret id.

Fixpoint spawn_threads (n : nat) : M (list Z) :=
  match n with
  | O => ret []
  | S n' =>
      let* id := next_thread_id in
      let* ids := spawn_threads n' in
      ret (id :: ids)
  end.

End Bootable.

(** ** Teardown *)

(** The streams [MVM_vm_destroy_instance] and [MVM_vm_exit] close. *)
Definition closed_by_destroy (i : MVMInstance) : list (option FILE) :=
  [spesh_log_fh i; jit_log_fh i; dynvar_log_fh i].

Definition closed_by_exit (i : MVMInstance) : list (option FILE) :=
  [spesh_log_fh i; jit_log_fh i; jit_bytecode_map i; dynvar_log_fh i].

(** The handles of the list that are not NULL can be closed one after the
    other: they are open and no two of them are the same stream. *)
Definition closable (handles : list (option FILE)) (w : World) : Prop :=
  NoDup (omap id handles) /\ forall f, Some f ∈ handles -> is_open f w.

(** The state after [if (fh) fclose(fh);] on a handle that can be closed. *)
Definition after_fclose (fh : option FILE) (w : World) : World :=
  match fh with
  | Some f => with_event (ev_fclose f) (without_stream f w)
  | None => w
  end.


(** ** Mutex initialisation failures *)

(** The calls of [init_mutex] that every bootstrap makes, each with the
    name it passes. *)
Definition init_mutex_sites : list (mutex * string) :=
  [(mutex_permroots, "permanent roots"); (mutex_repr_registry, "REPR registry");
   (mutex_hllconfigs, "hll configs"); (mutex_dll_registry, "REPR registry");
   (mutex_ext_registry, "extension registry");
   (mutex_extop_registry, "extension op registry");
   (mutex_sc_weakhash, "sc weakhash"); (mutex_loaded_compunits, "loaded compunits");
   (mutex_container_registry, "container registry");
   (mutex_object_ids, "object ID hash");
   (mutex_int_const_cache, "int constant cache");
   (mutex_event_loop_start, "event loop thread start");
   (mutex_compiler_registry, "compiler registry"); (mutex_hll_syms, "hll syms");
   (mutex_callsite_interns, "callsite interns");
   (mutex_multi_cache_add, "multi-cache addition");
   (mutex_spesh_install, "spesh installations")].

(** The outcome [o] of a run from [w] is an exit with status 1 right after
    the diagnostic of one failed [init_mutex] call. *)
Definition mutex_failure_exit (host : Host) {A} (w : World) (o : outcome A) : Prop :=
  exists loc name w',
    (loc, name) ∈ init_mutex_sites
    /\ uv_mutex_init host loc < 0
    /\ o = Exit 1 w'
    /\ trace w'
       = ev_exit 1
         :: ev_stderr (mutex_failure_message name
                         (uv_strerror host (uv_mutex_init host loc)))
         :: trace w.


(** ** The state [MVM_vm_create_instance] leaves, in closed form *)

(** The streams of the process: the ids of the open ones, newest first, and
    the id the next [fopen] will hand out. *)
Definition streams (w : World) : list nat * nat := ((open_files w).*1, next_stream w).

(** The ids of the handles that are streams [fopen] returned. *)
Fixpoint stream_ids (handles : list (option FILE)) : list nat :=
  match handles with
  | [] => []
  | Some (stream id) :: handles' => id :: stream_ids handles'
  | _ :: handles' => stream_ids handles'
  end.

(** Between [before] and [after] the streams held by [handles] were opened,
    in this order, and nothing else was opened or closed. *)
Definition opens (handles : list (option FILE)) (before after : list nat * nat) : Prop :=
  stream_ids handles = seq before.2 (length (stream_ids handles))
  /\ after.1 = rev (stream_ids handles) ++ before.1
  /\ after.2 = (before.2 + length (stream_ids handles))%nat.

(** From [w] to [w'] the instance went through [T], the mutexes [mutexes]
    were initialised and the streams of [handles] opened. *)
Definition evolves (T : MVMInstance -> MVMInstance) (mutexes : list mutex)
    (handles : list (option FILE)) (w w' : World) : Prop :=
  instance w' = T (instance w)
  /\ live_mutexes w' = mutexes ++ live_mutexes w
  /\ opens handles (streams w) (streams w').

Section Configured.

Variable host : Host.
Variable MAX_COUNT : nat.

Local Abbreviation env name := (environ host !! name).

(** Whether the log named by the variable [name] was asked for and could be
    opened. *)
Definition log_opened (name mode : string) : bool :=
  match env name with
  | Some path =>
      negb (strlen path =? 0)
      && match sanitized host path with
         | Some fixed_path => fopen_succeeds host fixed_path mode
         | None => false
         end
  | None => false
  end.

Definition bytecode_map_opened : bool :=
  match env "MVM_JIT_BYTECODE_DIR" with
  | Some dir => negb (strlen dir =? 0) && fopen_succeeds host (dir +:+ "/jit-map.txt") "w"
  | None => false
  end.

(** What each block of [MVM_vm_create_instance] makes of the instance, given
    the streams its [fopen] calls returned. *)
Definition main_thread_created (_ : MVMInstance) : MVMInstance :=
  set_next_user_thread_id 2
    (set_main_thread {| thread_id := 1 |} (calloc_instance MAX_COUNT)).

Definition spesh_configured (s : option FILE) (i : MVMInstance) : MVMInstance :=
  let enabled := unset_or_empty (env "MVM_SPESH_DISABLE") in
  set_spesh_limit
    (match env "MVM_SPESH_LIMIT" with
     | Some limit => if negb (strlen limit =? 0) then atoi host limit else spesh_limit i
     | None => spesh_limit i
     end)
    (set_spesh_nodelay
       (if set_and_nonempty (env "MVM_SPESH_NODELAY") then 1 else spesh_nodelay i)
       (set_spesh_osr_enabled
          (if enabled && unset_or_empty (env "MVM_SPESH_OSR_DISABLE")
           then 1 else spesh_osr_enabled i)
          (set_spesh_inline_enabled
             (if enabled && unset_or_empty (env "MVM_SPESH_INLINE_DISABLE")
              then 1 else spesh_inline_enabled i)
             (set_spesh_enabled (if enabled then 1 else spesh_enabled i)
                (set_spesh_log_fh
                   (if set_and_nonempty (env "MVM_SPESH_LOG") then s else spesh_log_fh i)
                   i))))).

Definition jit_configured (j m : option FILE) (i : MVMInstance) : MVMInstance :=
  let with_dir := set_and_nonempty (env "MVM_JIT_BYTECODE_DIR") in
  set_jit_seq_nr 0
    (set_jit_bytecode_dir
       (if with_dir then env "MVM_JIT_BYTECODE_DIR" else jit_bytecode_dir i)
       (set_jit_bytecode_map (if with_dir then m else jit_bytecode_map i)
          (set_jit_log_fh
             (if set_and_nonempty (env "MVM_JIT_LOG") then j else jit_log_fh i)
             (set_jit_enabled
                (if unset_or_empty (env "MVM_JIT_DISABLE") then 1 else jit_enabled i)
                i)))).

Definition dynvar_configured (d : option FILE) (i : MVMInstance) : MVMInstance :=
  set_nfa_debug_enabled (if is_set (env "MVM_NFA_DEB") then 1 else 0)
    (set_dynvar_log_fh d i).

Definition cross_thread_write_log_configured (i : MVMInstance) : MVMInstance :=
  if is_set (env "MVM_CROSS_THREAD_WRITE_LOG") then
    incr_instrumentation_level
      (set_cross_thread_write_logging_include_locked
         (if is_set (env "MVM_CROSS_THREAD_WRITE_LOG_INCLUDE_LOCKED") then 1 else 0)
         (set_cross_thread_write_logging 1 i))
  else set_cross_thread_write_logging 0 i.

Definition coverage_configured (c : option FILE) (i : MVMInstance) : MVMInstance :=
  if is_set (env "MVM_COVERAGE_LOG") then
    set_coverage_log_fh c (incr_instrumentation_level (set_coverage_logging 1 i))
  else set_coverage_logging 0 i.

(** The instance [MVM_vm_create_instance] returns when its five log handles
    come out as [s], [j], [m], [d] and [c]. *)
Definition bootstrapped (s j m d c : option FILE) : MVMInstance :=
  coverage_configured c
    (cross_thread_write_log_configured
       (dynvar_configured d
          (jit_configured j m
             (spesh_configured s
                (set_instrumentation_level 1
                   (main_thread_created (calloc_instance MAX_COUNT))))))).

(** The mutexes a bootstrap that returns leaves initialised, newest first. *)
Definition bootstrapped_mutexes : list mutex :=
  (if is_set (env "MVM_CROSS_THREAD_WRITE_LOG")
   then [mutex_cross_thread_write_logging] else [])
  ++ rev bootstrap_mutexes.

(** How the five handles depend on the environment and on [fopen]. *)
Definition bootstrapped_handles (s j m d c : option FILE) : Prop :=
  is_set s = log_opened "MVM_SPESH_LOG" "w"
  /\ is_set j = log_opened "MVM_JIT_LOG" "w"
  /\ is_set m = bytecode_map_opened
  /\ is_set d = log_opened "MVM_DYNVAR_LOG" "w"
  /\ (c = Some stderr <-> env "MVM_COVERAGE_LOG" = Some EmptyString)
  /\ (c <> Some stderr -> is_set c = log_opened "MVM_COVERAGE_LOG" "a")
  /\ Some stderr ∉ [s; j; m; d].

End Configured.

(** The mutexes [MVM_vm_destroy_instance] destroys. *)
Definition destroyed_mutexes : list mutex :=
  [mutex_repr_registry; mutex_permroots; mutex_hllconfigs; mutex_dll_registry;
   mutex_ext_registry; mutex_extop_registry; mutex_sc_weakhash;
   mutex_loaded_compunits; mutex_container_registry; mutex_compiler_registry;
   mutex_hll_syms; mutex_multi_cache_add; mutex_callsite_interns;
   mutex_spesh_install; mutex_cross_thread_write_logging; nfg_update_mutex;
   mutex_int_const_cache; mutex_event_loop_start].

(** The five log handles of an instance, in the order bootstrap sets them. *)
Definition log_handles (i : MVMInstance) : list (option FILE) :=
  [spesh_log_fh i; jit_log_fh i; jit_bytecode_map i; dynvar_log_fh i; coverage_log_fh i].

(** ** [MVM_vm_set_lib_path] within the capacity *)

(** The library paths after a call within the capacity: the caller's first
    [count] entries, then NULL up to the capacity. *)
Definition installed_lib_path (MAX_COUNT : nat) (count : Z)
    (new_lib_path : list (option string)) : list (option string) :=
  take (Z.to_nat count) new_lib_path ++ replicate (MAX_COUNT - Z.to_nat count) None.

(** ** [cleanup_callsite_interns] *)

(** An [MVMCallsite *], identified by a number. *)
Definition MVMCallsite : Set := nat.

(** [MVMCallsiteInterns] as [cleanup_callsite_interns] reads it: for every
    arity the array of interned callsites and the number of its entries. *)
Record MVMCallsiteInterns := {
  by_arity : list (list MVMCallsite);
  num_by_arity : list Z;
}.

(** What the function releases, in the order of the calls. *)
Inductive release : Set :=
| callsite_destroyed (callsite : MVMCallsite)  (* MVM_callsite_destroy(callsite) *)
| callsites_freed (arity : nat)                (* MVM_free(callsites) *)
| interns_freed.                               (* MVM_free(instance->callsite_interns) *)

Global Instance release_eq_dec : EqDecision release.
Proof. solve_decision. Defined.

(** The callsites destroyed by a sequence of calls, in order. *)
Definition destroyed_callsites (released : list release) : list MVMCallsite :=
  omap (fun r => match r with
                 | callsite_destroyed callsite => Some callsite
                 | _ => None
                 end) released.

Section CallsiteInterns.

(** Both are defined outside [src/moar.c]: the number of arities that are
    interned, and the test for the callsites that are shared by all
    instances. *)
Variable MVM_INTERN_ARITY_LIMIT : nat.
Variable MVM_callsite_is_common : MVMCallsite -> bool.

(** The inner loop [for (j = 0; j < callsite_count; j++)]; reading past the
    end of the array is undefined ([None]). [released] collects the calls
    made so far. *)
Fixpoint destroy_callsites (fuel : nat) (callsites : list MVMCallsite)
    (j callsite_count : Z) (released : list release) : option (list release) :=
  if j <? callsite_count then
    match fuel with
    | O => None
    | S fuel' =>
        callsite ← callsites !! Z.to_nat j;
        if MVM_callsite_is_common callsite then
          (* continue; *)
          destroy_callsites fuel' callsites (j + 1) callsite_count released
        else
          destroy_callsites fuel' callsites (j + 1) callsite_count
            (released ++ [callsite_destroyed callsite])
    end
  else Some released.

(** The outer loop [for (i = 0; i < MVM_INTERN_ARITY_LIMIT; i++)]. *)
Fixpoint cleanup_arities (fuel : nat) (interns : MVMCallsiteInterns) (i : Z)
    (released : list release) : option (list release) :=
  if i <? Z.of_nat MVM_INTERN_ARITY_LIMIT then
    match fuel with
    | O => None
    | S fuel' =>
        callsite_count ← num_by_arity interns !! Z.to_nat i;
        if negb (callsite_count =? 0) then
          callsites ← by_arity interns !! Z.to_nat i;
          released ← destroy_callsites (Z.to_nat callsite_count) callsites 0
                       callsite_count released;
          cleanup_arities fuel' interns (i + 1)
            (released ++ [callsites_freed (Z.to_nat i)])
        else cleanup_arities fuel' interns (i + 1) released
    end
  else Some released.

Definition cleanup_callsite_interns (interns : MVMCallsiteInterns)
  : option (list release) :=
  released ← cleanup_arities MVM_INTERN_ARITY_LIMIT interns 0 [];
  Some (released ++ [interns_freed]).

(** The callsites [destroy_callsites] destroys among the first
    [callsite_count] entries of an array. *)
Definition destroyed_of (callsites : list MVMCallsite) (callsite_count : Z)
  : list MVMCallsite :=
  filter (fun callsite => MVM_callsite_is_common callsite = false)
    (take (Z.to_nat callsite_count) callsites).

(** What is released for the arities from [i] on. *)
Fixpoint releases_from (i : nat) (arrays : list (list MVMCallsite)) (counts : list Z)
  : list release :=
  match arrays, counts with
  | callsites :: arrays', callsite_count :: counts' =>
      (if callsite_count =? 0 then []
       else (callsite_destroyed <$> destroyed_of callsites callsite_count)
            ++ [callsites_freed i])
      ++ releases_from (S i) arrays' counts'
  | _, _ => []
  end.

(** The interned callsites: the counted entries of every array. *)
Definition interned (interns : MVMCallsiteInterns) : list MVMCallsite :=
  concat (zip_with (fun callsites callsite_count =>
                      take (Z.to_nat callsite_count) callsites)
            (by_arity interns) (num_by_arity interns)).

(** The arrays hold at least as many entries as are counted, and both tables
    have one entry per arity. *)
Definition well_formed (interns : MVMCallsiteInterns) : Prop :=
  length (by_arity interns) = MVM_INTERN_ARITY_LIMIT
  /\ length (num_by_arity interns) = MVM_INTERN_ARITY_LIMIT
  /\ Forall2 (fun callsites callsite_count =>
                callsite_count <= Z.of_nat (length callsites))
       (by_arity interns) (num_by_arity interns).

End CallsiteInterns.

(** ** The output loop of [MVM_vm_dump_file] *)

(** The integer types of the loop on the targets MoarVM builds for: [int]
    is 32 bits in two's complement and [size_t] is 64 bits. A value converted
    to [size_t] is reduced modulo 2^64, and an out-of-range value converted
    to [int] wraps around. *)
Definition size_t (z : Z) : Z := z mod 2 ^ 64.
Definition int (z : Z) : Z := (z + 2 ^ 31) mod 2 ^ 32 - 2 ^ 31.

(** How a run of the loop ends: with the bytes that went to the standard
    output, still running when the iterations allowed are used up, or
    undefined. *)
Inductive dumped : Set :=
| Written (stdout : string)
| Running
| Out_of_bounds.

Section DumpFile.

(** [write(1, buf, count)]: the result of the [calls]-th call, which is up
    to the system: the number of bytes taken from [buf], or -1. *)
Variable write : nat -> Z -> Z.

(** [while (position < dumplen) { size_t written = write(1, dump + position,
    dumplen - position); if (written > 0) position += written; }] with
    [int position] and [size_t dumplen]. The pointer [dump + position] has
    to stay within the buffer; [stdout] collects the bytes [write] took. *)
Fixpoint write_dump (fuel : nat) (dump : string) (dumplen position : Z) (calls : nat)
    (stdout : string) : dumped :=
  if size_t position <? dumplen then
    match fuel with
    | O => Running
    | S fuel' =>
        if (position <? 0) || (strlen dump <? position) then Out_of_bounds
        else
          let count := size_t (dumplen - size_t position) in
          let result := write calls count in
          let stdout :=
            if 0 <? result
            then stdout +:+ substring (Z.to_nat position) (Z.to_nat result) dump
            else stdout in
          let written := size_t result in
          if 0 <? written then
            write_dump fuel' dump dumplen (int (size_t (size_t position + written)))
              (S calls) stdout
          else write_dump fuel' dump dumplen position (S calls) stdout
    end
  else Written stdout.

(** The loop as [MVM_vm_dump_file] enters it, on the text that
    [MVM_bytecode_dump] returned. *)
Definition dump_to_stdout (fuel : nat) (dump : string) : dumped :=
  let dumplen := size_t (strlen dump) in
  let position := 0 in
  write_dump fuel dump dumplen position 0 EmptyString.

End DumpFile.


(** ** Concrete hosts, for the examples *)

(** A host on which every call succeeds. *)
Definition example_host (env : gmap string string) : Host :=
  {| environ := env; getpid := 4242; uv_mutex_init := fun _ => 0;
     uv_strerror := fun _ => "unknown error";
     fopen_succeeds := fun _ _ => true; atoi := fun _ => 0 |}.

(** A host on which [uv_mutex_init] fails with [UV_ENOMEM] on one mutex. *)
Definition failing_host (loc : mutex) : Host :=
  {| environ := ∅; getpid := 4242;
     uv_mutex_init := fun m => if decide (m = loc) then -12 else 0;
     uv_strerror := fun _ => "not enough memory";
     fopen_succeeds := fun _ _ => true; atoi := fun _ => 0 |}.

(** A host on which no file can be opened. *)
Definition closed_host (env : gmap string string) : Host :=
  {| environ := env; getpid := 4242; uv_mutex_init := fun _ => 0;
     uv_strerror := fun _ => "unknown error";
     fopen_succeeds := fun _ _ => false; atoi := fun _ => 0 |}.

(** A host with an environment on which [uv_mutex_init] fails with
    [UV_ENOMEM] on one mutex. *)
Definition failing_host_with (env : gmap string string) (loc : mutex) : Host :=
  {| environ := env; getpid := 4242;
     uv_mutex_init := fun m => if decide (m = loc) then -12 else 0;
     uv_strerror := fun _ => "not enough memory";
     fopen_succeeds := fun _ _ => true; atoi := fun _ => 0 |}.

(** * Properties *)

Example decimal_4242 : decimal 4242 = "4242".
Proof. reflexivity. Qed.

Example snprintf_pid : snprintf (5 + 16) "a%d.b" 77 = Some "a77.b".
Proof. reflexivity. Qed.

Example count_three : found_percents_of "%d%%x%s%" = Some 3.
Proof. reflexivity. Qed.

Example directives_three : directives "%d%%x%s%" = 3%nat.
Proof. reflexivity. Qed.

Example unescape_pairs : unescape "100%%-a%%b" = "100%-a%b".
Proof. reflexivity. Qed.

(** ** Strings *)

Section StringFacts.

Local Open Scope nat_scope.

Lemma string_pair_ind (P : string -> Prop) :
  P EmptyString ->
  (forall c, P (String c EmptyString)) ->
  (forall c1 c2 s, P s -> P (String c2 s) -> P (String c1 (String c2 s))) ->
  forall s, P s.
Proof.
  intros Hnil Hone Htwo s.
  enough (P s /\ forall c, P (String c s)) by tauto.
  induction s as [|c2 s [IH1 IH2]]; split; auto.
Qed.

Lemma append_nil (s : string) : EmptyString +:+ s = s.
Proof. reflexivity. Qed.

Lemma append_cons (c : ascii) (a b : string) : String c a +:+ b = String c (a +:+ b).
Proof. reflexivity. Qed.

Lemma length_append (a b : string) :
  String.length (a +:+ b) = String.length a + String.length b.
Proof.
  induction a as [|c a IH]; [reflexivity|].
  rewrite append_cons. simpl. now rewrite IH.
Qed.

Lemma truncate_all (n : nat) (s : string) :
  String.length s <= n -> truncate n s = s.
Proof.
  revert n; induction s as [|c s IH]; intros [|n] Hn; simpl in *; try lia; auto.
  rewrite IH by lia. reflexivity.
Qed.

Lemma advance_step (n : nat) (s : string) :
  n < String.length s ->
  advance n s = String (char_at s (Z.of_nat n)) (advance (S n) s).
Proof.
  unfold char_at. rewrite Nat2Z.id.
  revert s; induction n; intros [|c s] Hn; simpl in *; try lia; auto.
  apply IHn. lia.
Qed.

Lemma advance_end (n : nat) (s : string) :
  String.length s <= n -> advance n s = EmptyString.
Proof.
  revert s; induction n; intros [|c s] Hn; simpl in *; try lia; auto.
  apply IHn. lia.
Qed.

Lemma prefix_nil (s : string) : String.prefix EmptyString s = true.
Proof. now destruct s. Qed.

Lemma prefix_cons (c : ascii) (n s : string) (c' : ascii) :
  String.prefix (String c n) (String c' s) = Ascii.eqb c c' && String.prefix n s.
Proof.
  simpl. destruct (ascii_dec c c') as [->|Hne].
  - now rewrite Ascii.eqb_refl.
  - apply Ascii.eqb_neq in Hne. now rewrite Hne.
Qed.

Lemma prefix_append (n s : string) : String.prefix n (n +:+ s) = true.
Proof.
  induction n as [|c n IH]; [now destruct s|].
  rewrite append_cons, prefix_cons, Ascii.eqb_refl. exact IH.
Qed.

Lemma strstr_unfold (haystack needle : string) :
  strstr haystack needle =
  if String.prefix needle haystack then Some haystack
  else match haystack with
       | EmptyString => None
       | String _ rest => strstr rest needle
       end.
Proof. destruct haystack; reflexivity. Qed.

Lemma strstr_append (a n b : string) : is_Some (strstr (a +:+ n +:+ b) n).
Proof.
  induction a as [|c a IH]; [rewrite append_nil | rewrite append_cons];
    rewrite strstr_unfold.
  - rewrite prefix_append. eauto.
  - destruct (String.prefix n (String c (a +:+ n +:+ b))); eauto.
Qed.

End StringFacts.

(** ** The counting loop computes the number of independent directives *)

Lemma MVMuint64_small (z : Z) : 0 <= z < 2 ^ 64 -> MVMuint64 z = z.
Proof. apply Z.mod_small. Qed.

Lemma directives_cons (c : ascii) (rest : string) :
  directives (String c rest) =
  if Ascii.eqb c "%" then
    match rest with
    | EmptyString => 1%nat
    | String c2 rest2 =>
        if Ascii.eqb c2 "%" then directives rest2 else S (directives rest)
    end
  else directives rest.
Proof. reflexivity. Qed.

Lemma count_percents_directives (path : string) :
  strlen path < 2 ^ 64 ->
  forall (fuel i : nat) (found : Z),
    (i <= String.length path)%nat ->
    (String.length path - i <= fuel)%nat ->
    0 <= found <= Z.of_nat i ->
    count_percents fuel path (strlen path) (Z.of_nat i) found
    = Some (found + Z.of_nat (directives (advance i path))).
Proof.
  unfold strlen. intros Hlen fuel.
  induction fuel as [|fuel IH]; intros i found Hi Hfuel Hfound.
  - assert (i = String.length path) as -> by lia.
    simpl. rewrite Z.ltb_irrefl, advance_end by lia. simpl. f_equal. lia.
  - cbn [count_percents].
    destruct (Z.ltb_spec (Z.of_nat i) (Z.of_nat (String.length path))) as [Hlt|Hge].
    2: { rewrite advance_end by lia. simpl. f_equal. lia. }
    rewrite (advance_step i path) by lia.
    rewrite directives_cons.
    rewrite (MVMuint64_small (Z.of_nat i + 1)) by lia.
    replace (Z.of_nat i + 1) with (Z.of_nat (S i)) by lia.
    destruct (Ascii.eqb (char_at path (Z.of_nat i)) "%").
    + destruct (Z.ltb_spec (Z.of_nat (S i)) (Z.of_nat (String.length path))) as [Hlt2|Hge2].
      * rewrite (advance_step (S i) path) by lia.
        destruct (Ascii.eqb (char_at path (Z.of_nat (S i))) "%"); cbn [andb].
        -- rewrite (MVMuint64_small (Z.of_nat (S i) + 1)) by lia.
           replace (Z.of_nat (S i) + 1) with (Z.of_nat (S (S i))) by lia.
           rewrite IH by lia. reflexivity.
        -- rewrite (MVMuint64_small (found + 1)) by lia.
           rewrite IH by lia.
           rewrite <- (advance_step (S i) path) by lia. f_equal. lia.
      * cbn [andb]. rewrite (MVMuint64_small (found + 1)) by lia.
        rewrite IH by lia. rewrite advance_end by lia. simpl. f_equal. lia.
    + rewrite IH by lia. reflexivity.
Qed.

(** The loop always runs to its end, and its count is [directives]. *)
Lemma found_percents_total (path : string) :
  strlen path < 2 ^ 64 ->
  found_percents_of path = Some (Z.of_nat (directives path)).
Proof.
  intros Hlen. unfold found_percents_of.
  rewrite MVMuint64_small by (unfold strlen in *; lia).
  rewrite (count_percents_directives path Hlen _ 0%nat 0) by lia.
  reflexivity.
Qed.

(** ** Formatting a path with one [%d] directive *)

Lemma vformat_cons (c : ascii) (rest : string) (args : list Z) :
  vformat (String c rest) args =
  if Ascii.eqb c "%" then
    match rest with
    | EmptyString => None
    | String c2 rest2 =>
        if Ascii.eqb c2 "%" then String "%" <$> vformat rest2 args
        else if Ascii.eqb c2 "d" then
          match args with
          | a :: args' => String.append (decimal a) <$> vformat rest2 args'
          | [] => None
          end
        else if Ascii.eqb c2 "x" then
          match args with
          | a :: args' => String.append (hexadecimal a) <$> vformat rest2 args'
          | [] => None
          end
        else None
    end
  else String c <$> vformat rest args.
Proof. reflexivity. Qed.

Lemma unescape_cons (c : ascii) (rest : string) :
  unescape (String c rest) =
  if Ascii.eqb c "%" then
    match rest with
    | EmptyString => String c EmptyString
    | String c2 rest2 =>
        if Ascii.eqb c2 "%" then String "%" (unescape rest2)
        else String c (unescape rest)
    end
  else String c (unescape rest).
Proof. reflexivity. Qed.

Lemma pair_then_d_cons (c : ascii) (rest : string) :
  pair_then_d (String c rest) =
  if Ascii.eqb c "%" then
    match rest with
    | EmptyString => false
    | String c2 rest2 =>
        if Ascii.eqb c2 "%" then String.prefix "d" rest2 || pair_then_d rest2
        else pair_then_d rest
    end
  else pair_then_d rest.
Proof. reflexivity. Qed.

(** Case analysis on the first one or two characters of a string without
    independent directives. *)
Ltac directive_cases c1 c2 H :=
  rewrite (directives_cons c1) in H;
  rewrite ?append_cons, ?(directives_cons c1), ?(vformat_cons c1),
    ?(unescape_cons c1), ?(pair_then_d_cons c1);
  let E1 := fresh "E1" in let E2 := fresh "E2" in
  destruct (Ascii.eqb c1 "%") eqn:E1;
  [destruct (Ascii.eqb c2 "%") eqn:E2; [|discriminate H]|].

Lemma directives_append (pre s : string) :
  directives pre = 0%nat -> directives (pre +:+ s) = directives s.
Proof.
  induction pre as [| c | c1 c2 pre IH1 IH2] using string_pair_ind; intros H.
  - reflexivity.
  - rewrite append_cons, append_nil, directives_cons in *.
    destruct (Ascii.eqb c "%"); [discriminate H | reflexivity].
  - directive_cases c1 c2 H; auto.
Qed.

Lemma vformat_append (pre s : string) (args : list Z) :
  directives pre = 0%nat ->
  vformat (pre +:+ s) args = String.append (unescape pre) <$> vformat s args.
Proof.
  induction pre as [| c | c1 c2 pre IH1 IH2] using string_pair_ind; intros H.
  - rewrite append_nil. now destruct (vformat s args).
  - rewrite append_cons, append_nil, directives_cons, vformat_cons, unescape_cons in *.
    destruct (Ascii.eqb c "%"); [discriminate H|].
    now destruct (vformat s args).
  - directive_cases c1 c2 H.
    + rewrite IH1 by assumption. now destruct (vformat s args).
    + rewrite <- append_cons, IH2 by assumption. now destruct (vformat s args).
Qed.

Lemma vformat_plain (s : string) (args : list Z) :
  directives s = 0%nat -> vformat s args = Some (unescape s).
Proof.
  induction s as [| c | c1 c2 s IH1 IH2] using string_pair_ind; intros H.
  - reflexivity.
  - rewrite directives_cons, vformat_cons, unescape_cons in *.
    destruct (Ascii.eqb c "%"); [discriminate H | reflexivity].
  - directive_cases c1 c2 H.
    + now rewrite IH1.
    + now rewrite IH2.
Qed.

Lemma vformat_single (pre post : string) (a : Z) :
  directives pre = 0%nat -> directives post = 0%nat ->
  vformat (pre +:+ "%d" +:+ post) [a]
  = Some (unescape pre +:+ decimal a +:+ unescape post).
Proof.
  intros Hpre Hpost. rewrite vformat_append by assumption.
  rewrite !append_cons, append_nil, vformat_cons. simpl Ascii.eqb. cbv iota.
  now rewrite (vformat_plain post []) by assumption.
Qed.

Lemma directives_single (pre post : string) :
  directives pre = 0%nat -> directives post = 0%nat ->
  directives (pre +:+ "%d" +:+ post) = 1%nat.
Proof.
  intros Hpre Hpost. rewrite directives_append by assumption.
  rewrite !append_cons, append_nil, directives_cons. simpl Ascii.eqb. cbv iota.
  rewrite directives_cons. simpl Ascii.eqb. cbv iota. now rewrite Hpost.
Qed.

Lemma length_unescape (s : string) :
  (String.length (unescape s) <= String.length s)%nat.
Proof.
  induction s as [| c | c1 c2 s IH1 IH2] using string_pair_ind.
  - reflexivity.
  - rewrite unescape_cons. destruct (Ascii.eqb c "%"); reflexivity.
  - rewrite unescape_cons.
    destruct (Ascii.eqb c1 "%"); [destruct (Ascii.eqb c2 "%")|];
      cbn [String.length] in *; lia.
Qed.

(** ** What [%d] prints *)

Lemma digit_char_plain (d : Z) :
  0 <= d < 10 ->
  Ascii.eqb (digit_char d) "%" = false /\ Ascii.eqb "d" (digit_char d) = false.
Proof.
  intros Hd. unfold digit_char.
  assert (Z.to_nat d < 10)%nat as Hk by lia.
  destruct (Z.to_nat d) as [|k]; [split; reflexivity|].
  do 9 (destruct k as [|k]; [split; reflexivity|]). lia.
Qed.

Lemma decimal_digits_no_percent (fuel : nat) (n : Z) (acc : string) :
  no_percent acc = true -> no_percent (decimal_digits fuel n acc) = true.
Proof.
  revert n acc; induction fuel as [|fuel IH]; intros n acc Hacc;
    pose proof (digit_char_plain (n mod 10) (Z.mod_pos_bound n 10 eq_refl)) as [Hp _];
    cbn [decimal_digits].
  - cbn [no_percent]. now rewrite Hp, Hacc.
  - destruct (n <? 10); [cbn [no_percent]; now rewrite Hp, Hacc|].
    apply IH. cbn [no_percent]. now rewrite Hp, Hacc.
Qed.

Lemma decimal_digits_head (fuel : nat) (n : Z) (acc : string) :
  exists d rest, 0 <= d < 10 /\ decimal_digits fuel n acc = String (digit_char d) rest.
Proof.
  revert n acc; induction fuel as [|fuel IH]; intros n acc;
    pose proof (Z.mod_pos_bound n 10 eq_refl); cbn [decimal_digits].
  - eauto.
  - destruct (n <? 10); eauto.
Qed.

Lemma length_decimal_digits (fuel : nat) :
  forall (n : Z) (acc : string) (k : nat),
    (1 <= k)%nat -> 0 <= n < 10 ^ Z.of_nat k ->
    (String.length (decimal_digits fuel n acc) <= k + String.length acc)%nat.
Proof.
  induction fuel as [|fuel IH]; intros n acc k Hk Hn; cbn [decimal_digits].
  - cbn [String.length]. lia.
  - destruct (Z.ltb_spec n 10) as [Hlt|Hge]; [cbn [String.length]; lia|].
    destruct k as [|[|k]]; [lia | change (10 ^ Z.of_nat 1) with 10 in Hn; lia |].
    etransitivity; [apply (IH _ _ (S k)); [lia|]|cbn [String.length]; lia].
    split; [apply Z.div_pos; lia|].
    apply Z.div_lt_upper_bound; [lia|].
    rewrite <- Z.pow_succ_r by lia.
    replace (Z.succ (Z.of_nat (S k))) with (Z.of_nat (S (S k))) by lia. lia.
Qed.

Lemma decimal_no_percent (n : Z) : no_percent (decimal n) = true.
Proof.
  unfold decimal. destruct (n <? 0); [cbn [no_percent]; simpl Ascii.eqb; cbn [negb andb]|];
    now apply decimal_digits_no_percent.
Qed.

Lemma decimal_head (n : Z) (tail : string) :
  String.prefix "d" (decimal n +:+ tail) = false.
Proof.
  unfold decimal. destruct (n <? 0); [reflexivity|].
  destruct (decimal_digits_head 20 n EmptyString) as (d & rest & Hd & ->).
  rewrite append_cons, prefix_cons. now destruct (digit_char_plain d Hd) as [_ ->].
Qed.

(** A process id is a positive [int]; it prints as at most ten digits. *)
Lemma length_decimal_pid (n : Z) :
  0 <= n < 2 ^ 31 -> (String.length (decimal n) <= 10)%nat.
Proof.
  intros Hn. unfold decimal. destruct (Z.ltb_spec n 0); [lia|].
  etransitivity; [apply (length_decimal_digits 20 n EmptyString 10); lia|].
  reflexivity.
Qed.

(** ** Where a literal [%d] can come from in the formatted path *)

Lemma strstr_pd_cons (c : ascii) (s : string) :
  strstr (String c s) "%d" =
  if Ascii.eqb c "%" && String.prefix "d" s then Some (String c s)
  else strstr s "%d".
Proof.
  now rewrite strstr_unfold, prefix_cons, Ascii.eqb_sym.
Qed.

Lemma prefix_d_unescape (s : string) :
  String.prefix "d" (unescape s) = String.prefix "d" s.
Proof.
  destruct s as [|c s]; [reflexivity|].
  rewrite unescape_cons.
  destruct (Ascii.eqb c "%") eqn:Ec; [|now rewrite !prefix_cons, !prefix_nil].
  apply Ascii.eqb_eq in Ec as ->.
  destruct s as [|c2 s]; [reflexivity|].
  destruct (Ascii.eqb c2 "%"); now rewrite !prefix_cons, !prefix_nil.
Qed.

Lemma prefix_d_append (a b : string) :
  String.prefix "d" a = false -> String.prefix "d" b = false ->
  String.prefix "d" (a +:+ b) = false.
Proof.
  destruct a as [|c a]; [now rewrite append_nil|].
  rewrite append_cons, !prefix_cons, !prefix_nil. intros Ha _.
  destruct (Ascii.eqb "d" c); [discriminate Ha | reflexivity].
Qed.

Lemma prefix_d_append_inv (a b : string) :
  String.prefix "d" (a +:+ b) = false -> String.prefix "d" a = false.
Proof.
  destruct a as [|c a]; [reflexivity|].
  rewrite append_cons, !prefix_cons, !prefix_nil.
  destruct (Ascii.eqb "d" c); [|reflexivity]. intros H; discriminate H.
Qed.

Lemma strstr_pd_no_percent (dec tail : string) :
  no_percent dec = true -> strstr tail "%d" = None ->
  strstr (dec +:+ tail) "%d" = None.
Proof.
  induction dec as [|c dec IH]; intros Hdec Htail; [exact Htail|].
  simpl in Hdec. apply andb_prop in Hdec as [Hc Hdec].
  rewrite append_cons, strstr_pd_cons.
  destruct (Ascii.eqb c "%"); [discriminate Hc|]. now apply IH.
Qed.

Lemma strstr_pd_unescape (s : string) :
  directives s = 0%nat -> pair_then_d s = false ->
  strstr (unescape s) "%d" = None.
Proof.
  induction s as [| c | c1 c2 s IH1 IH2] using string_pair_ind; intros H Hp.
  - reflexivity.
  - rewrite directives_cons in H. rewrite unescape_cons.
    destruct (Ascii.eqb c "%") eqn:Ec; [discriminate H|].
    now rewrite strstr_pd_cons, Ec.
  - rewrite (pair_then_d_cons c1) in Hp. directive_cases c1 c2 H.
    + apply orb_false_elim in Hp as [Hd Hp].
      rewrite strstr_pd_cons, prefix_d_unescape, Hd, andb_false_r. auto.
    + rewrite strstr_pd_cons, E1. cbn [andb]. auto.
Qed.

Lemma pair_then_d_append (pre t : string) :
  directives pre = 0%nat -> pair_then_d (pre +:+ t) = false ->
  pair_then_d t = false.
Proof.
  induction pre as [| c | c1 c2 pre IH1 IH2] using string_pair_ind; intros H Hp.
  - exact Hp.
  - rewrite directives_cons in H.
    rewrite append_cons, append_nil, pair_then_d_cons in Hp.
    destruct (Ascii.eqb c "%"); [discriminate H | exact Hp].
  - rewrite !append_cons, (pair_then_d_cons c1) in Hp. directive_cases c1 c2 H.
    + apply orb_false_elim in Hp as [_ Hp]. auto.
    + auto.
Qed.

Lemma strstr_pd_formatted (pre t r : string) :
  directives pre = 0%nat -> pair_then_d (pre +:+ t) = false ->
  String.prefix "d" r = false -> strstr r "%d" = None ->
  strstr (unescape pre +:+ r) "%d" = None.
Proof.
  intros H Hp Hr1 Hr2. revert H Hp.
  induction pre as [| c | c1 c2 pre IH1 IH2] using string_pair_ind; intros H Hp.
  - exact Hr2.
  - rewrite directives_cons in H. rewrite unescape_cons.
    destruct (Ascii.eqb c "%") eqn:Ec; [discriminate H|].
    now rewrite append_cons, append_nil, strstr_pd_cons, Ec.
  - rewrite !append_cons, (pair_then_d_cons c1) in Hp. directive_cases c1 c2 H.
    + apply orb_false_elim in Hp as [Hd Hp].
      rewrite append_cons, strstr_pd_cons.
      rewrite prefix_d_append;
        [rewrite andb_false_r; auto
        | rewrite prefix_d_unescape; eapply prefix_d_append_inv; eauto | auto].
    + rewrite append_cons, strstr_pd_cons, E1. cbn [andb]. auto.
Qed.

(** ** The log-path sanitizer *)

Section Sanitizer.

Variable host : Host.

(** [fopen] always returns, and logs the path it was given. *)
Lemma fopen_returns (path mode : string) (w : World) :
  exists fh w', fopen host path mode w = Return fh w'
                /\ trace w' = ev_fopen path mode :: trace w
                /\ instance w' = instance w.
Proof.
  unfold fopen. destruct (fopen_succeeds host path mode); eauto.
Qed.

(** C4: a path with two or more independent directives is opened as it is:
    [fopen_perhaps_with_pid] is then exactly [fopen] on the original path,
    and the only thing it does is that one [fopen] (no [snprintf]). *)
Theorem fopen_perhaps_with_pid_many_directives (path mode : string) (w : World) :
  strlen path < 2 ^ 64 ->
  (2 <= directives path)%nat ->
  fopen_perhaps_with_pid host path mode w = fopen host path mode w
  /\ exists fh w', fopen_perhaps_with_pid host path mode w = Return fh w'
                   /\ trace w' = ev_fopen path mode :: trace w.
Proof.
  intros Hlen Hdir.
  assert (fopen_perhaps_with_pid host path mode w = fopen host path mode w) as E.
  { unfold fopen_perhaps_with_pid.
    destruct (strstr path "%d"); [|reflexivity].
    fold (found_percents_of path). rewrite found_percents_total by assumption.
    destruct (Z.ltb_spec 1 (Z.of_nat (directives path))); [reflexivity | lia]. }
  split; [exact E|]. rewrite E.
  destruct (fopen_returns path mode w) as (fh & w' & ? & ? & _); eauto.
Qed.

(** C10 (as amended): substitution is attempted, that is [snprintf] is
    called with the path as its format and the process id, exactly when the
    path holds the two characters [%d] and at most one independent directive.
    Without the two characters [%d], whatever other directives the path
    holds, and with two or more independent directives, the call is exactly
    [fopen] on the literal path and logs nothing but that [fopen]. *)
Theorem fopen_perhaps_with_pid_substitution_gate (path mode : string) (w : World) :
  strlen path + 16 < 2 ^ 64 ->
  (strstr path "%d" = None \/ (2 <= directives path)%nat ->
   fopen_perhaps_with_pid host path mode w = fopen host path mode w
   /\ exists fh w', fopen_perhaps_with_pid host path mode w = Return fh w'
                    /\ trace w' = ev_fopen path mode :: trace w)
  /\ (is_Some (strstr path "%d") -> (directives path <= 1)%nat ->
      fopen_perhaps_with_pid host path mode w
      = (let* fixed_path := snprintf_path (strlen path + 16) path (getpid host) in
         fopen host fixed_path mode) w).
Proof.
  intros Hlen.
  assert (0 <= strlen path) as Hlen0 by (unfold strlen; lia).
  split.
  - intros Hliteral.
    assert (fopen_perhaps_with_pid host path mode w = fopen host path mode w) as E.
    { unfold fopen_perhaps_with_pid.
      destruct (strstr path "%d") as [suffix|]; [|reflexivity].
      destruct Hliteral as [Hnone | Hmany]; [discriminate Hnone|].
      fold (found_percents_of path). rewrite found_percents_total by lia.
      destruct (Z.ltb_spec 1 (Z.of_nat (directives path))); [reflexivity | lia]. }
    split; [exact E|]. rewrite E.
    destruct (fopen_returns path mode w) as (fh & w' & ? & ? & _); eauto.
  - intros [suffix Hsuffix] Hfew.
    unfold fopen_perhaps_with_pid. rewrite Hsuffix.
    fold (found_percents_of path). rewrite found_percents_total by lia.
    destruct (Z.ltb_spec 1 (Z.of_nat (directives path))); [lia|].
    rewrite (MVMuint64_small (strlen path)) by lia.
    rewrite (MVMuint64_small (strlen path + 16)) by lia.
    reflexivity.
Qed.

(** C3 (as amended): a path whose only independent directive is one [%d] is
    formatted with the process id: the file opened is the path with the
    process id in place of the directive and every [%%] pair written as one
    [%]. Unless a [%%] pair stands directly before a letter [d], the opened
    path holds no [%d]. *)
Theorem fopen_perhaps_with_pid_single_pd (pre post mode : string) (w : World) :
  let path := pre +:+ "%d" +:+ post in
  let fixed_path := unescape pre +:+ decimal (getpid host) +:+ unescape post in
  strlen path + 16 < 2 ^ 64 ->
  0 < getpid host < 2 ^ 31 ->
  directives pre = 0%nat ->
  directives post = 0%nat ->
  fopen_perhaps_with_pid host path mode w
  = fopen host fixed_path mode (with_event (ev_snprintf path (getpid host)) w)
  /\ (pair_then_d path = false -> strstr fixed_path "%d" = None).
Proof.
  intros path fixed_path Hlen Hpid Hpre Hpost.
  assert (0 <= strlen path) as Hlen0 by (unfold strlen; lia).
  split.
  - unfold fopen_perhaps_with_pid.
    destruct (strstr_append pre "%d" post) as [suffix Hsuffix].
    fold path in Hsuffix. rewrite Hsuffix.
    fold (found_percents_of path). rewrite found_percents_total by lia.
    assert (directives path = 1%nat) as -> by (apply directives_single; assumption).
    change (1 <? Z.of_nat 1) with false. cbv iota.
    unfold bind, snprintf_path, snprintf.
    assert (vformat path [getpid host] = Some fixed_path) as ->
      by (apply vformat_single; assumption).
    cbn [fmap option_fmap option_map].
    rewrite truncate_all; [reflexivity|].
    rewrite (MVMuint64_small (strlen path)) by lia.
    rewrite (MVMuint64_small (strlen path + 16)) by lia.
    pose proof (length_unescape pre). pose proof (length_unescape post).
    pose proof (length_decimal_pid (getpid host)).
    unfold fixed_path, path, strlen in *. rewrite !length_append in *.
    cbn [String.length] in *. lia.
  - intros Hpair. unfold fixed_path.
    apply (strstr_pd_formatted pre ("%d" +:+ post)); [assumption | exact Hpair | |].
    + apply decimal_head.
    + apply strstr_pd_no_percent; [apply decimal_no_percent|].
      apply strstr_pd_unescape; [assumption|].
      apply pair_then_d_append in Hpair; [|assumption].
      exact Hpair.
Qed.

End Sanitizer.

(** ** Rules for runs *)

Section Runs.

Variable host : Host.

Lemma returns_inv {A} (m : M A) (Q : A -> World -> Prop) (w : World) :
  returns m Q w -> exists a w', m w = Return a w' /\ Q a w'.
Proof. unfold returns. destruct (m w); [eauto | tauto | tauto]. Qed.

Lemma returns_intro {A} (m : M A) (Q : A -> World -> Prop) (w : World) a w' :
  m w = Return a w' -> Q a w' -> returns m Q w.
Proof. unfold returns. now intros ->. Qed.

Lemma returns_weaken {A} (m : M A) (Q Q' : A -> World -> Prop) (w : World) :
  returns m Q w -> (forall a w', Q a w' -> Q' a w') -> returns m Q' w.
Proof. unfold returns. destruct (m w); auto. Qed.

Lemma returns_bind {A B} (m : M A) (k : A -> M B) (Q : B -> World -> Prop) (w : World) :
  returns m (fun a w' => returns (k a) Q w') w -> returns (bind m k) Q w.
Proof. unfold returns, bind. destruct (m w); auto. Qed.

(** Statements that run the same way from every state are stepped over by
    conversion. *)
Lemma returns_ret {A} (a : A) (Q : A -> World -> Prop) (w : World) :
  Q a w -> returns (ret a) Q w.
Proof. exact id. Qed.

Lemma returns_store (f : MVMInstance -> MVMInstance) (Q : unit -> World -> Prop) w :
  Q tt (with_instance f w) -> returns (store f) Q w.
Proof. exact id. Qed.

Lemma returns_ret_bind {A B} (a : A) (k : A -> M B) Q w :
  returns (k a) Q w -> returns (bind (ret a) k) Q w.
Proof. exact id. Qed.

Lemma returns_store_bind {B} (f : MVMInstance -> MVMInstance) (k : unit -> M B) Q w :
  returns (k tt) Q (with_instance f w) -> returns (bind (store f) k) Q w.
Proof. exact id. Qed.

Lemma returns_load_bind {A B} (f : MVMInstance -> A) (k : A -> M B) Q w :
  returns (k (f (instance w))) Q w -> returns (bind (load f) k) Q w.
Proof. exact id. Qed.

Lemma returns_getenv_bind {B} (name : string) (k : option string -> M B) Q w :
  returns (k (environ host !! name)) Q (with_event (ev_getenv name) w) ->
  returns (bind (getenv host name) k) Q w.
Proof. exact id. Qed.

(** *** Traces *)

Lemma extends_refl (E : event -> Prop) (t : list event) : extends E t t.
Proof. exists []. split; [reflexivity | constructor]. Qed.

Lemma extends_cons (E : event -> Prop) (e : event) (t t' : list event) :
  E e -> extends E t t' -> extends E t (e :: t').
Proof.
  intros He (l & -> & Hl). exists (e :: l). split; [reflexivity | now constructor].
Qed.

Lemma extends_trans (E : event -> Prop) (t1 t2 t3 : list event) :
  extends E t1 t2 -> extends E t2 t3 -> extends E t1 t3.
Proof.
  intros (l1 & -> & HE1) (l2 & -> & HE2). exists (l2 ++ l1).
  split; [apply app_assoc | now apply Forall_app].
Qed.

Lemma extends_weaken (E E' : event -> Prop) (t t' : list event) :
  (forall e, E e -> E' e) -> extends E t t' -> extends E' t t'.
Proof.
  intros HE (l & Hl & Hall). exists l. split; [exact Hl|].
  eapply Forall_impl; eauto.
Qed.

(** *** Blocks that leave a view of the instance alone *)

Lemma returns_frames_bind {A B T} (π : MVMInstance -> T) (E : event -> Prop)
    (m : M A) (k : A -> M B) Q w :
  frames π E m ->
  (forall a w', π (instance w') = π (instance w) -> logs E w w' ->
                returns (k a) Q w') ->
  returns (bind m k) Q w.
Proof.
  intros Hm Hk. apply returns_bind. eapply returns_weaken; [apply Hm|].
  intros a w' [Hπ Hl]. now apply Hk.
Qed.

Lemma returns_of_frames {A T} (π : MVMInstance -> T) (E : event -> Prop)
    (m : M A) (Q : A -> World -> Prop) w :
  frames π E m ->
  (forall a w', π (instance w') = π (instance w) -> logs E w w' -> Q a w') ->
  returns m Q w.
Proof.
  intros Hm HQ. eapply returns_weaken; [apply Hm|].
  intros a w' [Hπ Hl]. now apply HQ.
Qed.

Section Frames.

Context {T : Type} (π : MVMInstance -> T) (E : event -> Prop).

Lemma frames_ret {A} (a : A) : frames π E (ret a).
Proof. intros w. split; [reflexivity | apply extends_refl]. Qed.

Lemma frames_bind {A B} (m : M A) (k : A -> M B) :
  frames π E m -> (forall a, frames π E (k a)) -> frames π E (bind m k).
Proof.
  intros Hm Hk w. apply returns_bind.
  eapply returns_weaken; [apply Hm|]. intros a w1 (Hπ1 & Hl1).
  eapply returns_weaken; [apply Hk|]. intros b w2 (Hπ2 & Hl2).
  split; [congruence | eapply extends_trans; eauto].
Qed.

Lemma frames_store (f : MVMInstance -> MVMInstance) :
  (forall i, π (f i) = π i) -> frames π E (store f).
Proof. intros Hf w. split; [apply Hf | apply extends_refl]. Qed.

Lemma frames_load {A} (f : MVMInstance -> A) : frames π E (load f).
Proof. intros w. split; [reflexivity | apply extends_refl]. Qed.

Lemma frames_collaborator (name : string) : frames π E (collaborator name).
Proof. exact (frames_ret _). Qed.

(** [getenv] followed by the code that uses the value it returned. *)
Lemma frames_getenv {B} (name : string) (k : option string -> M B) :
  E (ev_getenv name) ->
  frames π E (k (environ host !! name)) ->
  frames π E (bind (getenv host name) k).
Proof.
  intros He Hk w. apply returns_getenv_bind.
  eapply returns_weaken; [apply Hk|]. intros b w2 (Hπ2 & Hl2).
  split; [exact Hπ2|].
  eapply extends_trans; [|exact Hl2]. apply extends_cons, extends_refl. exact He.
Qed.

Lemma frames_fopen (path mode : string) :
  E (ev_fopen path mode) -> frames π E (fopen host path mode).
Proof.
  intros He w. unfold returns, fopen.
  destruct (fopen_succeeds host path mode);
    (split; [reflexivity | apply extends_cons, extends_refl; exact He]).
Qed.

Lemma frames_init_mutex (loc : mutex) (name : string) :
  mutex_init_ok host loc = true -> frames π E (init_mutex host loc name).
Proof.
  unfold mutex_init_ok, init_mutex. intros Hok w.
  destruct (Z.ltb_spec (uv_mutex_init host loc) 0); [lia|].
  split; [reflexivity | apply extends_refl].
Qed.

Lemma frames_weaken {A} (E' : event -> Prop) (m : M A) :
  (forall e, E' e -> E e) -> frames π E' m -> frames π E m.
Proof.
  intros HE Hm w. eapply returns_weaken; [apply Hm|].
  intros a w' (Hπ & Hl). split; [exact Hπ | eapply extends_weaken; eauto].
Qed.

End Frames.

(** What [fopen_perhaps_with_pid] does in terms of [sanitized]: at most an
    [snprintf], then [fopen] on the sanitized path. *)
Lemma fopen_perhaps_with_pid_sanitized (path mode fixed_path : string) (w : World) :
  sanitized host path = Some fixed_path ->
  exists w1,
    (w1 = w \/ w1 = with_event (ev_snprintf path (getpid host)) w)
    /\ fopen_perhaps_with_pid host path mode w = fopen host fixed_path mode w1.
Proof.
  unfold sanitized, fopen_perhaps_with_pid.
  destruct (strstr path "%d"); [|intros [= ->]; eauto].
  fold (found_percents_of path).
  destruct (found_percents_of path) as [n|]; [|discriminate].
  destruct (1 <? n); [intros [= ->]; eauto|].
  unfold bind, snprintf_path. intros ->. eauto.
Qed.

Lemma fopen_perhaps_with_pid_returns (path mode fixed_path : string) (w : World) :
  sanitized host path = Some fixed_path ->
  exists fh w',
    fopen_perhaps_with_pid host path mode w = Return fh w'
    /\ instance w' = instance w
    /\ logs (fun e => toggle_consulted e = false) w w'
    /\ (fopen_succeeds host fixed_path mode = true -> is_set fh = true).
Proof.
  intros Hs.
  destruct (fopen_perhaps_with_pid_sanitized path mode fixed_path w Hs)
    as (w1 & Hw1 & ->).
  unfold fopen.
  destruct Hw1 as [-> | ->]; destruct (fopen_succeeds host fixed_path mode);
    (do 2 eexists; split; [reflexivity|]; split; [reflexivity|];
     split; [repeat (apply extends_cons; [reflexivity|]); apply extends_refl | auto]).
Qed.

Lemma frames_fopen_perhaps_with_pid {T} (π : MVMInstance -> T) (path mode : string) :
  is_set (sanitized host path) = true ->
  frames π (fun e => toggle_consulted e = false)
    (fopen_perhaps_with_pid host path mode).
Proof.
  destruct (sanitized host path) as [fixed_path|] eqn:Hs; [intros _|discriminate].
  intros w.
  destruct (fopen_perhaps_with_pid_returns path mode fixed_path w Hs)
    as (fh & w' & Hrun & Hi & Hl & _).
  eapply returns_intro; [exact Hrun|]. now rewrite Hi.
Qed.

End Runs.

(** ** Bootstrap, block by block *)

Section Bootstrap.

Variable host : Host.
Variable MAX_COUNT : nat.
Hypothesis Hboot : bootable host = true.

(** Events other than a [getenv] of the inlining or OSR toggle. *)
Local Abbreviation quiet := (fun e : event => toggle_consulted e = false).
Local Abbreviation env name := (environ host !! name).

Lemma bootable_parts :
  (forall loc, In loc bootstrap_mutexes -> mutex_init_ok host loc = true)
  /\ (is_set (environ host !! "MVM_CROSS_THREAD_WRITE_LOG") = true ->
      mutex_init_ok host mutex_cross_thread_write_logging = true)
  /\ log_path_ok host "MVM_SPESH_LOG" = true
  /\ log_path_ok host "MVM_JIT_LOG" = true
  /\ log_path_ok host "MVM_COVERAGE_LOG" = true
  /\ dynvar_log_ok host = true.
Proof.
  unfold bootable in Hboot.
  do 5 (apply andb_prop in Hboot as [Hboot ?]).
  repeat split; try assumption.
  - now apply forallb_forall.
  - intros Hset. rewrite Hset in *. assumption.
Qed.

Lemma mutex_ok (loc : mutex) :
  In loc bootstrap_mutexes -> mutex_init_ok host loc = true.
Proof. apply bootable_parts. Qed.

Lemma log_path_sanitized (name path : string) :
  log_path_ok host name = true -> environ host !! name = Some path ->
  is_set (sanitized host path) = true.
Proof. unfold log_path_ok. intros H Henv. now rewrite Henv in H. Qed.

(** One step of a proof that a block leaves a view alone. *)
Ltac frame_step :=
  lazymatch goal with
  | |- frames _ _ (bind (getenv _ _) _) =>
      apply frames_getenv; [first [exact I | reflexivity]|]
  | |- frames _ _ (bind _ _) => apply frames_bind; [|intros ?]
  | |- frames _ _ (ret _) => apply frames_ret
  | |- frames _ _ (store _) => apply frames_store; intros; reflexivity
  | |- frames _ _ (load _) => apply frames_load
  | |- frames _ _ (collaborator _) => apply frames_collaborator
  | |- frames _ _ (init_mutex _ _ _) =>
      apply frames_init_mutex; apply mutex_ok; cbn; tauto
  | |- frames _ _ (fopen _ _ _) =>
      apply frames_fopen; first [exact I | reflexivity]
  | |- frames _ _ (if ?c then _ else _) => destruct c eqn:?
  | |- frames _ _ (match ?v with _ => _ end) => destruct v eqn:?
  end.

Ltac frame := repeat frame_step.

Section Views.

Context {T : Type} (π : MVMInstance -> T).

Lemma create_registries_frames : frames π quiet (create_registries host).
Proof. unfold create_registries. frame. Qed.

Lemma setup_std_handles_frames : frames π quiet setup_std_handles.
Proof. unfold setup_std_handles. frame. Qed.

Lemma configure_jit_frames :
  (forall v i, π (set_jit_enabled v i) = π i) ->
  (forall v i, π (set_jit_log_fh v i) = π i) ->
  (forall v i, π (set_jit_bytecode_map v i) = π i) ->
  (forall v i, π (set_jit_bytecode_dir v i) = π i) ->
  (forall v i, π (set_jit_seq_nr v i) = π i) ->
  frames π quiet (configure_jit host).
Proof.
  intros H1 H2 H3 H4 H5. unfold configure_jit.
  frame; try (apply frames_store; intros; auto).
  apply frames_fopen_perhaps_with_pid.
  eapply (log_path_sanitized "MVM_JIT_LOG"); [apply bootable_parts | eassumption].
Qed.

Lemma configure_dynvar_log_frames :
  (forall v i, π (set_dynvar_log_fh v i) = π i) ->
  (forall v i, π (set_nfa_debug_enabled v i) = π i) ->
  frames π quiet (configure_dynvar_log host).
Proof.
  intros H1 H2. unfold configure_dynvar_log.
  apply frames_getenv; [reflexivity|].
  apply frames_bind; [|intros _; frame; apply frames_store; auto].
  destruct (bootable_parts) as (_ & _ & _ & _ & _ & Hdyn).
  unfold dynvar_log_ok in Hdyn.
  destruct (env "MVM_DYNVAR_LOG") as [path|]; cbn [set_and_nonempty];
    [|apply frames_store; auto].
  destruct (strlen path =? 0); cbn [negb]; [apply frames_store; auto|].
  destruct (sanitized host path) as [fixed_path|] eqn:Hs; [|discriminate].
  intros w.
  destruct (fopen_perhaps_with_pid_returns host path "w" fixed_path w Hs)
    as (fh & w' & Hrun & Hi & Hl & Hopen).
  specialize (Hopen Hdyn). destruct fh as [fh|]; [|discriminate].
  unfold returns, bind. rewrite Hrun. cbn.
  split; [now rewrite H1, Hi | exact Hl].
Qed.

(** With the specializer disabled, [configure_spesh] never asks for the
    inlining and OSR toggles and sets none of the three switches. *)
Lemma configure_spesh_disabled_frames :
  unset_or_empty (env "MVM_SPESH_DISABLE") = false ->
  (forall v i, π (set_spesh_log_fh v i) = π i) ->
  (forall v i, π (set_spesh_nodelay v i) = π i) ->
  (forall v i, π (set_spesh_limit v i) = π i) ->
  frames π quiet (configure_spesh host).
Proof.
  intros Hdis H1 H2 H3. unfold configure_spesh.
  frame; try discriminate; try (apply frames_store; intros; auto).
  apply frames_fopen_perhaps_with_pid.
  eapply (log_path_sanitized "MVM_SPESH_LOG");
    [apply (bootable_parts) | eassumption].
Qed.

End Views.



(** Chains the trace extensions in the context up to the goal's. *)
Ltac trace_chain :=
  unfold logs in *; cbn [trace with_event with_instance] in *;
  repeat first
    [ apply extends_refl
    | apply extends_cons; [first [exact I | reflexivity]|]
    | match goal with
      | H : extends ?E ?t0 ?t |- extends ?E _ ?t =>
          apply (extends_trans E _ t0 t); [|exact H]
      end ].

(** With the specializer enabled, [configure_spesh] switches it on and
    decides inlining and OSR by their own toggles. *)
Lemma configure_spesh_enabled {T} (π : MVMInstance -> T) (w : World) :
  unset_or_empty (env "MVM_SPESH_DISABLE") = true ->
  (forall v i, π (set_spesh_log_fh v i) = π i) ->
  (forall v i, π (set_spesh_enabled v i) = π i) ->
  (forall v i, π (set_spesh_inline_enabled v i) = π i) ->
  (forall v i, π (set_spesh_osr_enabled v i) = π i) ->
  (forall v i, π (set_spesh_nodelay v i) = π i) ->
  (forall v i, π (set_spesh_limit v i) = π i) ->
  returns (configure_spesh host)
    (fun _ w' =>
       π (instance w') = π (instance w)
       /\ spesh_enabled (instance w') = 1
       /\ spesh_inline_enabled (instance w')
          = (if unset_or_empty (env "MVM_SPESH_INLINE_DISABLE") then 1
             else spesh_inline_enabled (instance w))
       /\ spesh_osr_enabled (instance w')
          = (if unset_or_empty (env "MVM_SPESH_OSR_DISABLE") then 1
             else spesh_osr_enabled (instance w))
       /\ logs (fun _ => True) w w') w.
Proof.
  intros Hen H1 H2 H3 H4 H5 H6. unfold configure_spesh.
  set (π2 := fun i => (π i, spesh_switches i)).
  eapply (returns_frames_bind π2 (fun _ => True)); [frame|].
  intros _ w1 Hπ1 Hl1. apply returns_getenv_bind.
  eapply (returns_frames_bind π2 (fun _ => True)).
  { frame. 2: { unfold π2. apply frames_store. intros. now rewrite H1. }
    eapply frames_weaken; [|apply frames_fopen_perhaps_with_pid]; [auto|].
    eapply (log_path_sanitized "MVM_SPESH_LOG"); [apply bootable_parts | eassumption]. }
  intros _ w2 Hπ2 Hl2. apply returns_getenv_bind. rewrite Hen.
  apply returns_bind. apply returns_store_bind. apply returns_getenv_bind.
  assert (frames π2 (fun _ => True)
            (let* spesh_nodelay0 := getenv host "MVM_SPESH_NODELAY" in
             (if set_and_nonempty spesh_nodelay0
              then store (set_spesh_nodelay 1) else ret tt) >>
             let* spesh_limit0 := getenv host "MVM_SPESH_LIMIT" in
             match spesh_limit0 with
             | Some limit =>
                 if negb (strlen limit =? 0)
                 then store (set_spesh_limit (atoi host limit)) else ret tt
             | None => ret tt
             end)) as Htail.
  { frame; unfold π2; apply frames_store; intros; first [now rewrite H5 | now rewrite H6]. }
  unfold π2, spesh_switches in Hπ1, Hπ2. cbn [instance with_event] in Hπ2.
  injection Hπ1 as Hπ1 He1 Hi1 Ho1. injection Hπ2 as Hπ2 He2 Hi2 Ho2.
  destruct (unset_or_empty (env "MVM_SPESH_INLINE_DISABLE"));
    [apply returns_store_bind | apply returns_ret_bind];
    apply returns_getenv_bind;
    (destruct (unset_or_empty (env "MVM_SPESH_OSR_DISABLE"));
     [apply returns_store | apply returns_ret]);
    (eapply returns_of_frames; [exact Htail|]);
    intros _ w3 Hπ3 Hl3;
    unfold π2, spesh_switches in Hπ3; cbn in Hπ3;
    injection Hπ3 as Hπ3 He3 Hi3 Ho3;
    rewrite ?H2, ?H3, ?H4 in Hπ3;
    (repeat split; [congruence.. | trace_chain]).
Qed.

Lemma quiet_spesh_events (e : event) :
  toggle_consulted e = false -> spesh_events host e.
Proof. now left. Qed.

Lemma configure_spesh_effect {T} (π : MVMInstance -> T) (w : World) :
  (forall v i, π (set_spesh_log_fh v i) = π i) ->
  (forall v i, π (set_spesh_enabled v i) = π i) ->
  (forall v i, π (set_spesh_inline_enabled v i) = π i) ->
  (forall v i, π (set_spesh_osr_enabled v i) = π i) ->
  (forall v i, π (set_spesh_nodelay v i) = π i) ->
  (forall v i, π (set_spesh_limit v i) = π i) ->
  returns (configure_spesh host)
    (fun _ w' =>
       π (instance w') = π (instance w)
       /\ spesh_switches (instance w') = configured_switches host (spesh_switches (instance w))
       /\ logs (spesh_events host) w w') w.
Proof.
  intros H1 H2 H3 H4 H5 H6. unfold configured_switches, spesh_events.
  destruct (unset_or_empty (env "MVM_SPESH_DISABLE")) eqn:Hd.
  - eapply returns_weaken; [apply (configure_spesh_enabled π); assumption|].
    intros _ w' (Hπ & He & Hi & Ho & Hl). unfold spesh_switches.
    rewrite He, Hi, Ho. split; [exact Hπ|]. split; [reflexivity|].
    eapply extends_weaken; [|exact Hl]. auto.
  - eapply returns_of_frames;
      [apply (configure_spesh_disabled_frames (fun i => (π i, spesh_switches i)) Hd);
       intros; unfold spesh_switches; cbn; now rewrite ?H1, ?H5, ?H6|].
    intros _ w' [= Hπ Hs Hi Ho] Hl. split; [exact Hπ|].
    split; [unfold spesh_switches; now rewrite Hs, Hi, Ho|].
    eapply extends_weaken; [|exact Hl]. auto.
Qed.

(** What the cross-thread write logging block does. *)
Lemma configure_cross_thread_write_log_effect {T} (π : MVMInstance -> T) (w : World) :
  (forall v i, π (set_cross_thread_write_logging v i) = π i) ->
  (forall v i, π (set_cross_thread_write_logging_include_locked v i) = π i) ->
  (forall v i, π (set_instrumentation_level v i) = π i) ->
  let enabled := is_set (env "MVM_CROSS_THREAD_WRITE_LOG") in
  returns (configure_cross_thread_write_log host)
    (fun _ w' =>
       π (instance w') = π (instance w)
       /\ cross_thread_write_logging (instance w') = Z_of_bool enabled
       /\ instrumentation_level (instance w')
          = (if enabled then MVMuint32 (instrumentation_level (instance w) + 1)
             else instrumentation_level (instance w))
       /\ logs quiet w w') w.
Proof.
  intros H1 H2 H3 enabled. unfold configure_cross_thread_write_log.
  apply returns_getenv_bind.
  destruct bootable_parts as (_ & Hmutex & _). subst enabled.
  destruct (env "MVM_CROSS_THREAD_WRITE_LOG") as [v|]; cbn [is_set] in *.
  - apply returns_store_bind, returns_getenv_bind.
    do 2 apply returns_store_bind.
    eapply (returns_of_frames (fun i => i) quiet);
      [apply frames_init_mutex; auto|].
    intros _ w' Hi Hl. rewrite Hi. cbn.
    unfold incr_instrumentation_level. rewrite H3, H2, H1.
    repeat split. trace_chain.
  - apply returns_store. cbn. rewrite H1. repeat split. trace_chain.
Qed.

(** What the coverage block does. *)
Lemma configure_coverage_log_effect {T} (π : MVMInstance -> T) (w : World) :
  (forall v i, π (set_coverage_logging v i) = π i) ->
  (forall v i, π (set_coverage_log_fh v i) = π i) ->
  (forall v i, π (set_instrumentation_level v i) = π i) ->
  let enabled := is_set (env "MVM_COVERAGE_LOG") in
  returns (configure_coverage_log host)
    (fun _ w' =>
       π (instance w') = π (instance w)
       /\ coverage_logging (instance w') = Z_of_bool enabled
       /\ instrumentation_level (instance w')
          = (if enabled then MVMuint32 (instrumentation_level (instance w) + 1)
             else instrumentation_level (instance w))
       /\ (env "MVM_COVERAGE_LOG" = Some EmptyString ->
           coverage_log_fh (instance w') = Some stderr)
       /\ logs quiet w w') w.
Proof.
  intros H1 H2 H3 enabled. unfold configure_coverage_log.
  apply returns_getenv_bind.
  destruct bootable_parts as (_ & _ & _ & _ & Hcov & _). subst enabled.
  unfold log_path_ok in Hcov.
  destruct (env "MVM_COVERAGE_LOG") as [path|] eqn:Hpath; cbn [is_set].
  - apply returns_getenv_bind. rewrite Hpath.
    do 2 apply returns_store_bind.
    destruct (strlen path =? 0) eqn:Hlen; cbn [negb].
    + apply returns_store. cbn.
      unfold incr_instrumentation_level. rewrite H2, H3, H1.
      repeat split. trace_chain.
    + eapply (returns_frames_bind (fun i => i) quiet);
        [apply frames_fopen_perhaps_with_pid; exact Hcov|].
      intros fh w' Hi Hl. apply returns_store. cbn. rewrite Hi. cbn.
      unfold incr_instrumentation_level. rewrite H2, H3, H1.
      repeat split; [|trace_chain].
      intros [= ->]. discriminate Hlen.
  - apply returns_store. cbn. rewrite H1.
    repeat split; [discriminate | trace_chain].
Qed.

(** *** The whole of [MVM_vm_create_instance] *)

Lemma create_instance_summary (w : World) :
  let ctwl := is_set (env "MVM_CROSS_THREAD_WRITE_LOG") in
  let cov := is_set (env "MVM_COVERAGE_LOG") in
  returns (MVM_vm_create_instance host MAX_COUNT)
    (fun inst w' =>
       inst = instance w'
       /\ thread_ids inst = (1, 2)
       /\ spesh_switches inst = configured_switches host (0, 0, 0)
       /\ cross_thread_write_logging inst = Z_of_bool ctwl
       /\ coverage_logging inst = Z_of_bool cov
       /\ instrumentation_level inst = 1 + Z_of_bool ctwl + Z_of_bool cov
       /\ (env "MVM_COVERAGE_LOG" = Some EmptyString ->
           coverage_log_fh inst = Some stderr)
       /\ logs (spesh_events host) w w') w.
Proof.
  intros ctwl cov. unfold MVM_vm_create_instance.
  (* the instance and the thread ids *)
  apply returns_bind. unfold create_main_thread.
  apply returns_store_bind, returns_ret_bind, returns_store_bind, returns_store.
  (* registries *)
  eapply (returns_frames_bind (fun i => i) quiet); [apply create_registries_frames|].
  intros _ w1 Hi1 Hl1. cbn [instance with_instance] in Hi1.
  apply returns_store_bind.
  (* specializer *)
  apply returns_bind. eapply returns_weaken;
    [apply (configure_spesh_effect (fun i => (thread_ids i, instrumentation_level i)));
     reflexivity|].
  intros _ w2 (Hπ2 & Hs2 & Hl2). cbn [instance with_instance] in Hπ2, Hs2.
  rewrite Hi1 in Hπ2, Hs2.
  change (spesh_switches _) with (0, 0, 0) in Hs2 at 2.
  apply pair_equal_spec in Hπ2 as [Hids2 Hlevel2].
  change (thread_ids (instance w2) = (1, 2)) in Hids2.
  change (instrumentation_level (instance w2) = 1) in Hlevel2.
  (* JIT and the dynamic variable log *)
  set (π := fun i => (thread_ids i, instrumentation_level i, spesh_switches i)).
  eapply (returns_frames_bind π quiet);
    [apply configure_jit_frames; reflexivity|].
  intros _ w3 Hπ3 Hl3.
  eapply (returns_frames_bind π quiet);
    [apply configure_dynvar_log_frames; reflexivity|].
  intros _ w4 Hπ4 Hl4.
  (* cross-thread write logging and coverage *)
  apply returns_bind. eapply returns_weaken;
    [apply (configure_cross_thread_write_log_effect
              (fun i => (thread_ids i, spesh_switches i))); reflexivity|].
  intros _ w5 (Hπ5 & Hc5 & Hlevel5 & Hl5).
  apply returns_bind. eapply returns_weaken;
    [apply (configure_coverage_log_effect
              (fun i => (thread_ids i, spesh_switches i,
                         cross_thread_write_logging i))); reflexivity|].
  intros _ w6 (Hπ6 & Hc6 & Hlevel6 & Hfh6 & Hl6).
  (* standard handles *)
  eapply (returns_frames_bind (fun i => i) quiet); [apply setup_std_handles_frames|].
  intros _ w7 Hi7 Hl7.
  apply returns_ret_bind. unfold returns, load.
  rewrite Hi7. unfold π in *. clear π. subst ctwl cov.
  assert (instrumentation_level (instance w4) = 1) as Hlevel4 by congruence.
  assert (thread_ids (instance w6) = (1, 2)) as Hids by congruence.
  assert (spesh_switches (instance w6) = configured_switches host (0, 0, 0))
    as Hswitches by congruence.
  assert (cross_thread_write_logging (instance w6)
          = Z_of_bool (is_set (env "MVM_CROSS_THREAD_WRITE_LOG")))
    as Hctwl by congruence.
  split; [reflexivity|].
  split; [exact Hids|].
  split; [exact Hswitches|].
  split; [exact Hctwl|].
  split; [exact Hc6|].
  split.
  { rewrite Hlevel6, Hlevel5, Hlevel4.
    now destruct (is_set (env "MVM_CROSS_THREAD_WRITE_LOG")),
      (is_set (env "MVM_COVERAGE_LOG")). }
  split; [exact Hfh6|].
  clear - Hl1 Hl2 Hl3 Hl4 Hl5 Hl6 Hl7.
  repeat match goal with
         | H : logs quiet _ _ |- _ =>
             apply (extends_weaken _ (spesh_events host) _ _ quiet_spesh_events) in H
         end.
  trace_chain.
Qed.


Lemma create_instance_returns (w : World) :
  exists inst w',
    MVM_vm_create_instance host MAX_COUNT w = Return inst w'
    /\ inst = instance w'
    /\ thread_ids inst = (1, 2)
    /\ spesh_switches inst = configured_switches host (0, 0, 0)
    /\ cross_thread_write_logging inst
       = Z_of_bool (is_set (env "MVM_CROSS_THREAD_WRITE_LOG"))
    /\ coverage_logging inst = Z_of_bool (is_set (env "MVM_COVERAGE_LOG"))
    /\ instrumentation_level inst
       = 1 + Z_of_bool (is_set (env "MVM_CROSS_THREAD_WRITE_LOG"))
         + Z_of_bool (is_set (env "MVM_COVERAGE_LOG"))
    /\ (env "MVM_COVERAGE_LOG" = Some EmptyString ->
        coverage_log_fh inst = Some stderr)
    /\ logs (spesh_events host) w w'.
Proof.
  destruct (returns_inv _ _ _ (create_instance_summary w)) as (inst & w' & Hrun & H).
  exists inst, w'. split; [exact Hrun | exact H].
Qed.

(** Threads created later take their ids from the counter as it stands. *)
Lemma spawn_threads_ids (n : nat) (w : World) :
  returns (spawn_threads n)
    (fun ids _ => Forall (fun id => next_user_thread_id (instance w) <= id) ids) w.
Proof.
  revert w. induction n as [|n IH]; intros w; [constructor|].
  cbn [spawn_threads]. unfold next_thread_id.
  apply returns_bind, returns_load_bind, returns_store_bind, returns_ret.
  apply returns_bind. eapply returns_weaken; [apply IH|].
  intros ids w' Hids. apply returns_ret. constructor; [lia|].
  eapply Forall_impl; [exact Hids|]. cbn. intros id. lia.
Qed.

(** C9: when [MVM_vm_create_instance] returns, the main thread's context has
    thread id 1 and the counter for the next thread id holds 2, so any number
    of threads created from then on all get ids of at least 2. *)
Theorem create_instance_thread_ids (w : World) :
  exists inst w',
    MVM_vm_create_instance host MAX_COUNT w = Return inst w'
    /\ inst = instance w'
    /\ thread_id (main_thread inst) = 1
    /\ next_user_thread_id inst = 2
    /\ forall n, returns (spawn_threads n)
                   (fun ids _ => Forall (fun id => 2 <= id) ids) w'.
Proof.
  destruct (create_instance_returns w) as (inst & w' & Hrun & Hinst & [= H1 H2] & _).
  exists inst, w'. repeat split; try assumption.
  intros n. eapply returns_weaken; [apply spawn_threads_ids|].
  cbn. intros ids _ Hids. now rewrite <- Hinst, H2 in Hids.
Qed.

(** C7: at the end of [MVM_vm_create_instance] the instrumentation level is
    1 plus one for each of cross-thread write logging and coverage logging
    that is enabled: 3 with both, 1 with neither. *)
Theorem create_instance_instrumentation_level (w : World) :
  exists inst w',
    MVM_vm_create_instance host MAX_COUNT w = Return inst w'
    /\ cross_thread_write_logging inst
       = Z_of_bool (is_set (env "MVM_CROSS_THREAD_WRITE_LOG"))
    /\ coverage_logging inst = Z_of_bool (is_set (env "MVM_COVERAGE_LOG"))
    /\ instrumentation_level inst
       = 1 + cross_thread_write_logging inst + coverage_logging inst
    /\ (cross_thread_write_logging inst = 1 -> coverage_logging inst = 1 ->
        instrumentation_level inst = 3)
    /\ (cross_thread_write_logging inst = 0 -> coverage_logging inst = 0 ->
        instrumentation_level inst = 1).
Proof.
  destruct (create_instance_returns w)
    as (inst & w' & Hrun & _ & _ & _ & Hctwl & Hcov & Hlevel & _).
  exists inst, w'. rewrite Hctwl, Hcov, Hlevel.
  repeat split; try assumption; intros H1 H2; rewrite H1, H2; reflexivity.
Qed.

(** C6: with the coverage variable present and empty, coverage logging is
    on, its sink is the standard error stream, and the instrumentation level
    is one more than cross-thread write logging alone makes it. *)
Theorem create_instance_coverage_to_stderr (w : World) :
  env "MVM_COVERAGE_LOG" = Some EmptyString ->
  exists inst w',
    MVM_vm_create_instance host MAX_COUNT w = Return inst w'
    /\ coverage_logging inst = 1
    /\ coverage_log_fh inst = Some stderr
    /\ instrumentation_level inst
       = (1 + Z_of_bool (is_set (env "MVM_CROSS_THREAD_WRITE_LOG"))) + 1.
Proof.
  intros Hcov_env.
  destruct (create_instance_returns w)
    as (inst & w' & Hrun & _ & _ & _ & _ & Hcov & Hlevel & Hfh & _).
  exists inst, w'. rewrite Hcov_env in *.
  repeat split; auto.
Qed.

(** C5 (as amended): with the specializer not disabled, inlining disabled
    and OSR not disabled, the switches come out (1, 0, 1); and whatever the
    environment, a [getenv] of the inlining or OSR toggle happens only in a
    run that enables the specializer, and with the specializer disabled both
    stay off. *)
Theorem create_instance_spesh_switches (w : World) :
  exists inst w' l,
    MVM_vm_create_instance host MAX_COUNT w = Return inst w'
    /\ trace w' = l ++ trace w
    /\ (unset_or_empty (env "MVM_SPESH_DISABLE") = true ->
        set_and_nonempty (env "MVM_SPESH_INLINE_DISABLE") = true ->
        unset_or_empty (env "MVM_SPESH_OSR_DISABLE") = true ->
        spesh_enabled inst = 1 /\ spesh_inline_enabled inst = 0
        /\ spesh_osr_enabled inst = 1)
    /\ (forall e, e ∈ l -> toggle_consulted e = true -> spesh_enabled inst = 1)
    /\ (unset_or_empty (env "MVM_SPESH_DISABLE") = false ->
        spesh_enabled inst = 0 /\ spesh_inline_enabled inst = 0
        /\ spesh_osr_enabled inst = 0).
Proof.
  destruct (create_instance_returns w)
    as (inst & w' & Hrun & _ & _ & Hs & _ & _ & _ & _ & l & Hl & Hev).
  exists inst, w', l. split; [exact Hrun|]. split; [exact Hl|].
  unfold spesh_switches, configured_switches in Hs.
  split; [|split].
  - intros Hd Hi Ho. rewrite Hd, Ho in Hs.
    assert (unset_or_empty (env "MVM_SPESH_INLINE_DISABLE") = false) as Hi'.
    { destruct (env "MVM_SPESH_INLINE_DISABLE") as [v|]; [|discriminate Hi].
      cbn in *. now destruct (strlen v =? 0). }
    rewrite Hi' in Hs. now injection Hs.
  - intros e He Htoggle.
    rewrite Forall_forall in Hev. destruct (Hev e He) as [Hq | Hd]; [congruence|].
    rewrite Hd in Hs. now injection Hs.
  - intros Hd. rewrite Hd in Hs. now injection Hs.
Qed.

End Bootstrap.

(** ** A mutex that cannot be initialised *)

Section MutexFailure.

Variable host : Host.
Variable MAX_COUNT : nat.

Lemma bind_bind {A B C} (m : M A) (k1 : A -> M B) (k2 : B -> M C) (w : World) :
  bind (bind m k1) k2 w = bind m (fun a => bind (k1 a) k2) w.
Proof. unfold bind. now destruct (m w). Qed.

Lemma bind_store {B} (f : MVMInstance -> MVMInstance) (k : unit -> M B) (w : World) :
  bind (store f) k w = k tt (with_instance f w).
Proof. reflexivity. Qed.

Lemma bind_collaborator {B} (name : string) (k : unit -> M B) (w : World) :
  bind (collaborator name) k w = k tt w.
Proof. reflexivity. Qed.

Lemma bind_init_mutex {B} (loc : mutex) (name : string) (k : unit -> M B) (w : World) :
  bind (init_mutex host loc name) k w =
  if uv_mutex_init host loc <? 0 then
    Exit 1 (with_event (ev_exit 1)
              (with_event
                 (ev_stderr (mutex_failure_message name
                               (uv_strerror host (uv_mutex_init host loc)))) w))
  else k tt (with_mutexes (cons loc) w).
Proof. unfold bind, init_mutex. now destruct (uv_mutex_init host loc <? 0). Qed.

(** X3: if one of the seventeen mutexes that bootstrap always initialises
    cannot be initialised, the process prints the diagnostic of that call of
    [init_mutex] and exits with status 1: no instance is returned. *)
Lemma create_instance_mutex_failure (w : World) :
  forallb (mutex_init_ok host) bootstrap_mutexes = false ->
  mutex_failure_exit host w (MVM_vm_create_instance host MAX_COUNT w).
Proof.
  intros Hfail.
  unfold MVM_vm_create_instance, create_main_thread, create_registries, configure_spesh.
  repeat first
    [ rewrite bind_bind
    | rewrite bind_store
    | rewrite bind_collaborator
    | rewrite bind_init_mutex;
      match goal with
      | |- context [uv_mutex_init host ?loc <? 0] =>
          destruct (Z.ltb_spec (uv_mutex_init host loc) 0);
          [eexists loc, _, _; split; [|split; [eassumption|split; reflexivity]];
           unfold init_mutex_sites; set_solver|]
      end ].
  exfalso. cbn in Hfail. unfold mutex_init_ok in Hfail.
  repeat match type of Hfail with
         | context [0 <=? ?x] =>
             destruct (Z.leb_spec 0 x); [|lia]
         end.
  discriminate Hfail.
Qed.

End MutexFailure.

(** ** [MVM_vm_set_lib_path] *)

(** C8: a count above the capacity of [instance->lib_path] ends the process
    with status 1 after one diagnostic, and the instance (its library paths
    included) is as it was before the call. *)
Theorem set_lib_path_overflow (MAX_COUNT : nat) (count : Z)
    (new_lib_path : list (option string)) (w : World) :
  Z.of_nat MAX_COUNT < count ->
  exists w',
    MVM_vm_set_lib_path MAX_COUNT count new_lib_path w = Exit 1 w'
    /\ instance w' = instance w
    /\ lib_path (instance w') = lib_path (instance w)
    /\ trace w'
       = ev_exit 1
         :: ev_stderr ("Cannot set more than " +:+ decimal (Z.of_nat MAX_COUNT)
                       +:+ " library paths")
         :: trace w.
Proof.
  intros Hcount. unfold MVM_vm_set_lib_path.
  destruct (Z.gtb_spec count (Z.of_nat MAX_COUNT)) as [_|]; [|lia].
  unfold bind at 1. unfold MVM_panic, bind, fprintf_stderr, exit.
  eexists. split; [reflexivity|]. split; [reflexivity|]. split; reflexivity.
Qed.

(** ** Teardown *)

Section Teardown.

Lemma bind_load {A B} (f : MVMInstance -> A) (k : A -> M B) (w : World) :
  bind (load f) k w = k (f (instance w)) w.
Proof. reflexivity. Qed.

Lemma bind_uv_mutex_destroy {B} (loc : mutex) (k : unit -> M B) (w : World) :
  bind (uv_mutex_destroy loc) k w = k tt (with_mutexes (filter (fun m => m <> loc)) w).
Proof. reflexivity. Qed.

Lemma fclose_open (fh : FILE) (w : World) :
  is_open fh w ->
  fclose fh w = Return tt (with_event (ev_fclose fh) (without_stream fh w)).
Proof. intros Hopen. unfold fclose. now rewrite decide_True. Qed.

(** Closing a stream that is not open is undefined. *)
Lemma fclose_closed (fh : FILE) (w : World) :
  ~ is_open fh w -> fclose fh w = Undefined.
Proof. intros Hclosed. unfold fclose. now rewrite decide_False. Qed.

Lemma bind_fclose_if_set {B} (fh : option FILE) (k : unit -> M B) (w : World) :
  (forall f, fh = Some f -> is_open f w) ->
  bind (fclose_if_set fh) k w = k tt (after_fclose fh w).
Proof.
  intros Hopen. destruct fh as [f|]; [|reflexivity].
  unfold bind, fclose_if_set. now rewrite fclose_open by auto.
Qed.

Lemma is_open_without_stream (id : nat) (f : FILE) (w : World) :
  is_open (stream id) (without_stream f w) <-> is_open (stream id) w /\ f <> stream id.
Proof.
  unfold is_open, without_stream. cbn [open_files].
  rewrite !list_elem_of_fmap. split.
  - intros ([id' path] & -> & Hin). apply list_elem_of_filter in Hin as [Hne Hin].
    apply bool_decide_unpack in Hne. cbn in Hne.
    split; [exists (id', path); auto | cbn; congruence].
  - intros [([id' path] & -> & Hin) Hne]. exists (id', path). split; [reflexivity|].
    apply list_elem_of_filter. split; [|exact Hin].
    apply bool_decide_pack. cbn in *. congruence.
Qed.

Lemma instance_with_mutexes (f : list mutex -> list mutex) (w : World) :
  instance (with_mutexes f w) = instance w.
Proof. reflexivity. Qed.

Lemma instance_with_event (e : event) (w : World) :
  instance (with_event e w) = instance w.
Proof. reflexivity. Qed.

Lemma instance_without_stream (f : FILE) (w : World) :
  instance (without_stream f w) = instance w.
Proof. reflexivity. Qed.

Lemma is_open_with_mutexes (fh : FILE) (f : list mutex -> list mutex) (w : World) :
  is_open fh (with_mutexes f w) <-> is_open fh w.
Proof. reflexivity. Qed.

Lemma is_open_with_event (fh : FILE) (e : event) (w : World) :
  is_open fh (with_event e w) <-> is_open fh w.
Proof. reflexivity. Qed.

Lemma instance_after_fclose (fh : option FILE) (w : World) :
  instance (after_fclose fh w) = instance w.
Proof. now destruct fh. Qed.

Lemma live_mutexes_after_fclose (fh : option FILE) (w : World) :
  live_mutexes (after_fclose fh w) = live_mutexes w.
Proof. now destruct fh. Qed.

Lemma is_open_after_fclose (id : nat) (fh : option FILE) (w : World) :
  is_open (stream id) (after_fclose fh w)
  <-> is_open (stream id) w /\ fh <> Some (stream id).
Proof.
  destruct fh as [f|]; cbn [after_fclose].
  - rewrite is_open_with_event, is_open_without_stream.
    split; (intros [? ?]; split; [assumption | congruence]).
  - split; [intros ?; split; [assumption | discriminate] | tauto].
Qed.

(** A stream other than the one closed is as open as it was. *)
Lemma is_open_after_fclose_other (f : FILE) (fh : option FILE) (w : World) :
  is_open f w -> fh <> Some f -> is_open f (after_fclose fh w).
Proof.
  destruct f as [|id]; [intros; exact I|].
  intros Hopen Hne. now apply is_open_after_fclose.
Qed.

Lemma closable_three (a b c : option FILE) (w : World) :
  closable [a; b; c] w ->
  (forall f, a = Some f -> is_open f w /\ b <> Some f /\ c <> Some f)
  /\ (forall f, b = Some f -> is_open f w /\ a <> Some f /\ c <> Some f)
  /\ (forall f, c = Some f -> is_open f w /\ a <> Some f /\ b <> Some f).
Proof.
  intros [Hnodup Hopen].
  assert (forall f, a = Some f \/ b = Some f \/ c = Some f -> is_open f w) as Hopen'.
  { intros f Hf. apply Hopen. rewrite !elem_of_cons. intuition congruence. }
  split; [|split]; intros f Hf; (split; [apply Hopen'; tauto|]); subst;
    repeat match goal with
           | fh : option FILE |- _ => destruct fh
           end;
    cbn in Hnodup; rewrite ?NoDup_cons, ?not_elem_of_cons in Hnodup;
    split; try discriminate; intros [= ->]; tauto.
Qed.

Lemma closable_four (a b c d : option FILE) (w : World) :
  closable [a; b; c; d] w ->
  (forall f, a = Some f -> is_open f w /\ b <> Some f /\ c <> Some f /\ d <> Some f)
  /\ (forall f, b = Some f -> is_open f w /\ a <> Some f /\ c <> Some f /\ d <> Some f)
  /\ (forall f, c = Some f -> is_open f w /\ a <> Some f /\ b <> Some f /\ d <> Some f)
  /\ (forall f, d = Some f -> is_open f w /\ a <> Some f /\ b <> Some f /\ c <> Some f).
Proof.
  intros [Hnodup Hopen].
  assert (forall f, a = Some f \/ b = Some f \/ c = Some f \/ d = Some f -> is_open f w)
    as Hopen'.
  { intros f Hf. apply Hopen. rewrite !elem_of_cons. intuition congruence. }
  split; [|split; [|split]]; intros f Hf; (split; [apply Hopen'; tauto|]); subst;
    repeat match goal with
           | fh : option FILE |- _ => destruct fh
           end;
    cbn in Hnodup; rewrite ?NoDup_cons, ?not_elem_of_cons in Hnodup;
    (split; [|split]); try discriminate; intros [= ->]; tauto.
Qed.

Ltac teardown_step :=
  first
    [ rewrite bind_collaborator | rewrite bind_uv_mutex_destroy
    | rewrite bind_load
    | rewrite instance_with_mutexes | rewrite instance_with_event
    | rewrite instance_without_stream | rewrite instance_after_fclose ].

Ltac teardown_run := repeat teardown_step.

Ltac open_streams :=
  repeat first
    [ rewrite is_open_with_mutexes | rewrite is_open_with_event
    | rewrite is_open_after_fclose | rewrite is_open_without_stream ].

(** A handle is still open when its turn to be closed comes. *)
Ltac still_open H :=
  let f := fresh "f" in
  let Hf := fresh "Hf" in
  intros f Hf; destruct (H f Hf);
  repeat (apply is_open_after_fclose_other; [|tauto]);
  tauto.

(** [MVM_vm_destroy_instance] on an instance whose three logs can be
    closed: it returns, the streams open afterwards are those that were open
    and are not the specializer log, the JIT log or the dynamic variable log,
    and the mutexes initialised afterwards are those that were and are not
    among the ones the function destroys. *)
Lemma destroy_instance_run (w : World) :
  closable (closed_by_destroy (instance w)) w ->
  exists w',
    MVM_vm_destroy_instance w = Return tt w'
    /\ (forall id, is_open (stream id) w'
                   <-> is_open (stream id) w
                       /\ Some (stream id) ∉ closed_by_destroy (instance w))
    /\ (forall m, m ∈ live_mutexes w' <-> m ∈ live_mutexes w /\ m ∉ destroyed_mutexes).
Proof.
  intros Hclosable. apply closable_three in Hclosable as (Hs & Hj & Hd).
  unfold MVM_vm_destroy_instance, closed_by_destroy, destroyed_mutexes. teardown_run.
  rewrite bind_fclose_if_set by still_open Hs. teardown_run.
  rewrite bind_fclose_if_set by still_open Hj. teardown_run.
  rewrite bind_fclose_if_set by still_open Hd. teardown_run.
  unfold collaborator, ret. eexists. split; [reflexivity|]. split.
  - intros id. open_streams. rewrite !not_elem_of_cons.
    pose proof (not_elem_of_nil (Some (stream id))).
    intuition congruence.
  - intros m. cbn [live_mutexes with_mutexes].
    rewrite !live_mutexes_after_fclose. cbn [live_mutexes with_mutexes].
    rewrite !list_elem_of_filter, !not_elem_of_cons.
    pose proof (not_elem_of_nil m). tauto.
Qed.

Lemma destroy_instance_streams (w : World) :
  closable (closed_by_destroy (instance w)) w ->
  exists w',
    MVM_vm_destroy_instance w = Return tt w'
    /\ forall id, is_open (stream id) w'
                  <-> is_open (stream id) w
                      /\ Some (stream id) ∉ closed_by_destroy (instance w).
Proof.
  intros Hclosable.
  destruct (destroy_instance_run w Hclosable) as (w' & Hrun & Hstreams & _). eauto.
Qed.

(** [MVM_vm_exit] on an instance whose four logs can be closed: it ends the
    process with status 0 as the last thing it does, the streams open at that
    point are those that were open and are not the specializer log, the JIT
    log, the JIT bytecode map or the dynamic variable log, and the instance
    and the mutexes are as they were. *)
Lemma exit_run (w : World) :
  closable (closed_by_exit (instance w)) w ->
  exists w',
    MVM_vm_exit w = Exit 0 w'
    /\ instance w' = instance w
    /\ live_mutexes w' = live_mutexes w
    /\ head (trace w') = Some (ev_exit 0)
    /\ forall id, is_open (stream id) w'
                  <-> is_open (stream id) w
                      /\ Some (stream id) ∉ closed_by_exit (instance w).
Proof.
  intros Hclosable. apply closable_four in Hclosable as (Hs & Hj & Hm & Hd).
  unfold MVM_vm_exit, closed_by_exit. teardown_run.
  rewrite bind_fclose_if_set by still_open Hs. teardown_run.
  rewrite bind_fclose_if_set by still_open Hj. teardown_run.
  rewrite bind_fclose_if_set by still_open Hm. teardown_run.
  assert (forall (B : Type) (fh : option FILE) (k : unit -> M B) (w0 : World),
             bind match fh with
                  | Some f => fprintf fh >> fclose f
                  | None => ret tt
                  end k w0
             = bind (fclose_if_set fh) k w0) as Hlast
    by (intros B [f|] k w0; reflexivity).
  rewrite Hlast, bind_fclose_if_set by still_open Hd.
  unfold exit. eexists. split; [reflexivity|].
  split; [cbn [instance with_event]; now rewrite !instance_after_fclose|].
  split; [cbn [live_mutexes with_event]; now rewrite !live_mutexes_after_fclose|].
  split; [reflexivity|].
  intros id. open_streams. rewrite !not_elem_of_cons.
  pose proof (not_elem_of_nil (Some (stream id))).
  intuition congruence.
Qed.

Lemma exit_streams (w : World) :
  closable (closed_by_exit (instance w)) w ->
  exists w',
    MVM_vm_exit w = Exit 0 w'
    /\ forall id, is_open (stream id) w'
                  <-> is_open (stream id) w
                      /\ Some (stream id) ∉ closed_by_exit (instance w).
Proof.
  intros Hclosable.
  destruct (exit_run w Hclosable) as (w' & Hrun & _ & _ & _ & Hstreams). eauto.
Qed.

Lemma bind_fclose_if_set_closed {B} (f : FILE) (k : unit -> M B) (w : World) :
  ~ is_open f w -> bind (fclose_if_set (Some f)) k w = Undefined.
Proof. intros Hclosed. unfold bind, fclose_if_set. now rewrite fclose_closed. Qed.

Lemma is_open_before_fclose (f : FILE) (fh : option FILE) (w : World) :
  is_open f (after_fclose fh w) -> is_open f w.
Proof.
  destruct f as [|id]; [intros; exact I|]. rewrite is_open_after_fclose. tauto.
Qed.

Lemma handle_cases (fh : option FILE) (w : World) :
  (forall f, fh = Some f -> is_open f w) \/ (exists f, fh = Some f /\ ~ is_open f w).
Proof.
  destruct fh as [f|]; [|left; discriminate].
  destruct (decide (is_open f w)); [left; now intros ? [= <-] | right; eauto].
Qed.

(** One [if (fh) fclose(fh);] of a run that is not undefined: the handle was
    open, and the run goes on. *)
Ltac defined_fclose H Hopen :=
  match type of H with
  | bind (fclose_if_set ?fh) _ ?w0 <> Undefined =>
      destruct (handle_cases fh w0) as [Hopen | (? & Hopen & ?)];
      [ rewrite bind_fclose_if_set in H by exact Hopen
      | rewrite Hopen, bind_fclose_if_set_closed in H by assumption;
        now contradiction H ]
  end.

(** A run of [MVM_vm_destroy_instance] that is not undefined started with
    its three logs open, where set. *)
Lemma destroy_instance_defined (w : World) :
  MVM_vm_destroy_instance w <> Undefined ->
  forall f, Some f ∈ closed_by_destroy (instance w) -> is_open f w.
Proof.
  unfold MVM_vm_destroy_instance, closed_by_destroy. teardown_run. intros Hdef.
  defined_fclose Hdef Hs. revert Hdef. teardown_run. intros Hdef.
  defined_fclose Hdef Hj. revert Hdef. teardown_run. intros Hdef.
  defined_fclose Hdef Hd. clear Hdef.
  intros f Hin. rewrite !elem_of_cons in Hin.
  destruct Hin as [Hf | [Hf | [Hf | Hin]]]; [| | | now apply elem_of_nil in Hin];
    symmetry in Hf;
    [ specialize (Hs f Hf) | specialize (Hj f Hf) | specialize (Hd f Hf) ];
    repeat match goal with
           | H : is_open _ (after_fclose _ _) |- _ => apply is_open_before_fclose in H
           end;
    assumption.
Qed.

(** The same for [MVM_vm_exit] and its four logs. *)
Lemma exit_defined (w : World) :
  MVM_vm_exit w <> Undefined ->
  forall f, Some f ∈ closed_by_exit (instance w) -> is_open f w.
Proof.
  unfold MVM_vm_exit, closed_by_exit. teardown_run. intros Hdef.
  defined_fclose Hdef Hs. revert Hdef. teardown_run. intros Hdef.
  defined_fclose Hdef Hj. revert Hdef. teardown_run. intros Hdef.
  defined_fclose Hdef Hm. revert Hdef. teardown_run.
  assert (forall (B : Type) (fh : option FILE) (k : unit -> M B) (w0 : World),
             bind match fh with
                  | Some f => fprintf fh >> fclose f
                  | None => ret tt
                  end k w0
             = bind (fclose_if_set fh) k w0) as Hlast
    by (intros B [f|] k w0; reflexivity).
  rewrite Hlast. intros Hdef.
  defined_fclose Hdef Hd. clear Hdef.
  intros f Hin. rewrite !elem_of_cons in Hin.
  destruct Hin as [Hf | [Hf | [Hf | [Hf | Hin]]]]; [| | | | now apply elem_of_nil in Hin];
    symmetry in Hf;
    [ specialize (Hs f Hf) | specialize (Hj f Hf) | specialize (Hm f Hf)
    | specialize (Hd f Hf) ];
    repeat match goal with
           | H : is_open _ (after_fclose _ _) |- _ => apply is_open_before_fclose in H
           end;
    assumption.
Qed.

(** The general form of C2's failure: a JIT bytecode map or coverage log
    that is open, and is not also one of the three logs that are closed,
    stays open across [MVM_vm_destroy_instance]. *)
Lemma destroy_instance_leaves_open (w : World) (id : nat) :
  closable (closed_by_destroy (instance w)) w ->
  Some (stream id) ∈ [jit_bytecode_map (instance w); coverage_log_fh (instance w)] ->
  is_open (stream id) w ->
  Some (stream id) ∉ closed_by_destroy (instance w) ->
  exists w', MVM_vm_destroy_instance w = Return tt w' /\ is_open (stream id) w'.
Proof.
  intros Hclosable _ Hopen Hother.
  destruct (destroy_instance_streams w Hclosable) as (w' & Hrun & Hstreams).
  exists w'. split; [exact Hrun|]. now apply Hstreams.
Qed.

End Teardown.

(** ** More on the log-path sanitizer *)

Lemma strstr_pd_percent (c : ascii) (s : string) :
  Ascii.eqb c "%" = false -> strstr (String c s) "%d" = strstr s "%d".
Proof.
  intros Hc. rewrite strstr_unfold.
  assert (String.prefix "%d" (String c s) = false) as ->; [|reflexivity].
  cbn [String.prefix]. destruct (ascii_dec "%" c) as [<-|]; [discriminate Hc | reflexivity].
Qed.

Lemma length_unescape_pairs (s : string) :
  directives s = 0%nat -> is_Some (strstr s "%d") ->
  (String.length (unescape s) < String.length s)%nat.
Proof.
  induction s as [| c | c1 c2 s IH1 IH2] using string_pair_ind; intros H [t Ht].
  - discriminate Ht.
  - rewrite directives_cons in H.
    destruct (Ascii.eqb c "%") eqn:E; [discriminate H|].
    rewrite strstr_pd_percent in Ht by assumption. discriminate Ht.
  - rewrite directives_cons in H. rewrite unescape_cons.
    destruct (Ascii.eqb c1 "%") eqn:E1.
    + destruct (Ascii.eqb c2 "%"); [|discriminate H].
      pose proof (length_unescape s). cbn [String.length]. lia.
    + rewrite strstr_pd_percent in Ht by assumption.
      cbn [String.length]. apply -> Nat.succ_lt_mono. apply IH2; eauto.
Qed.

(** X1: the counting loop of [fopen_perhaps_with_pid] ends within
    [strlen(path)] iterations, without wrap-around of its 64-bit counters, and
    leaves in [found_percents] the number of [%] characters that are not half
    of a [%%] pair read from left to right. *)
Theorem count_percents_counts_directives (path : string) (fuel : nat) :
  strlen path < 2 ^ 64 ->
  (String.length path <= fuel)%nat ->
  count_percents fuel path (MVMuint64 (strlen path)) 0 0
  = Some (Z.of_nat (directives path)).
Proof.
  intros Hlen Hfuel.
  rewrite MVMuint64_small by (unfold strlen in *; lia).
  exact (count_percents_directives path Hlen fuel 0%nat 0
           (Nat.le_0_l _) ltac:(lia) ltac:(lia)).
Qed.


(** X2: a path without independent directives in which the text [%d] occurs
    (which can only be as the tail of a [%%] pair followed by [d]) is not
    opened as it is: it goes through [snprintf], and the file opened is the
    path with every [%%] pair written as one [%], a strictly shorter name. *)
Theorem fopen_perhaps_with_pid_escaped_only (host : Host) (path mode : string) (w : World) :
  strlen path + 16 < 2 ^ 64 ->
  directives path = 0%nat ->
  is_Some (strstr path "%d") ->
  fopen_perhaps_with_pid host path mode w
  = fopen host (unescape path) mode (with_event (ev_snprintf path (getpid host)) w)
  /\ (String.length (unescape path) < String.length path)%nat.
Proof.
  intros Hlen Hdir Hpd.
  assert (0 <= strlen path) as Hlen0 by (unfold strlen; lia).
  split; [|now apply length_unescape_pairs].
  unfold fopen_perhaps_with_pid. destruct Hpd as [suffix ->].
  fold (found_percents_of path). rewrite found_percents_total by lia.
  rewrite Hdir. change (1 <? Z.of_nat 0) with false. cbv iota.
  unfold bind, snprintf_path, snprintf.
  rewrite vformat_plain by assumption.
  cbn [fmap option_fmap option_map].
  rewrite truncate_all; [reflexivity|].
  rewrite (MVMuint64_small (strlen path)) by lia.
  rewrite (MVMuint64_small (strlen path + 16)) by lia.
  pose proof (length_unescape path). unfold strlen in *. lia.
Qed.

(** ** The state after bootstrap *)

Lemma stream_ids_app (hs1 hs2 : list (option FILE)) :
  stream_ids (hs1 ++ hs2) = stream_ids hs1 ++ stream_ids hs2.
Proof.
  induction hs1 as [|[[|id]|] hs1 IH]; cbn [stream_ids app]; now rewrite ?IH.
Qed.

Lemma stream_ids_elem (hs : list (option FILE)) (id : nat) :
  id ∈ stream_ids hs <-> Some (stream id) ∈ hs.
Proof.
  induction hs as [|[[|id']|] hs IH]; cbn [stream_ids].
  - set_solver.
  - rewrite elem_of_cons, IH. split; [tauto | intros [?|?]; [discriminate | assumption]].
  - rewrite !elem_of_cons, IH. split; (intros [?|?]; [left; congruence | now right]).
  - rewrite elem_of_cons, IH. split; [tauto | intros [?|?]; [discriminate | assumption]].
Qed.

Lemma opens_none (st : list nat * nat) : opens [None] st st.
Proof. destruct st. repeat split. cbn. lia. Qed.

Lemma opens_nil (st : list nat * nat) : opens [] st st.
Proof. destruct st. repeat split. cbn. lia. Qed.

Lemma opens_stderr (st : list nat * nat) : opens [Some stderr] st st.
Proof. destruct st. repeat split. cbn. lia. Qed.

Lemma opens_app (hs1 hs2 : list (option FILE)) (st0 st1 st2 : list nat * nat) :
  opens hs1 st0 st1 -> opens hs2 st1 st2 -> opens (hs1 ++ hs2) st0 st2.
Proof.
  intros (Hids1 & Hopen1 & Hnext1) (Hids2 & Hopen2 & Hnext2).
  unfold opens. rewrite stream_ids_app, length_app, rev_app_distr.
  split; [|split].
  - rewrite seq_app, <- Hids1, <- Hnext1, <- Hids2. reflexivity.
  - rewrite Hopen2, Hopen1. now rewrite app_assoc.
  - rewrite Hnext2, Hnext1. lia.
Qed.

Lemma evolves_refl (w : World) : evolves (fun i => i) [] [] w w.
Proof. repeat split. apply opens_nil. Qed.

Lemma evolves_trans T1 T2 ms1 ms2 hs1 hs2 (w0 w1 w2 : World) :
  evolves T1 ms1 hs1 w0 w1 -> evolves T2 ms2 hs2 w1 w2 ->
  evolves (fun i => T2 (T1 i)) (ms2 ++ ms1) (hs1 ++ hs2) w0 w2.
Proof.
  intros (Hi1 & Hm1 & Ho1) (Hi2 & Hm2 & Ho2). split; [|split].
  - now rewrite Hi2, Hi1.
  - now rewrite Hm2, Hm1, app_assoc.
  - eapply opens_app; eauto.
Qed.

Lemma MVMInstance_eta (i : MVMInstance) :
  i = {| main_thread := main_thread i; next_user_thread_id := next_user_thread_id i;
         instrumentation_level := instrumentation_level i;
         spesh_log_fh := spesh_log_fh i; spesh_enabled := spesh_enabled i;
         spesh_inline_enabled := spesh_inline_enabled i;
         spesh_osr_enabled := spesh_osr_enabled i; spesh_nodelay := spesh_nodelay i;
         spesh_limit := spesh_limit i; jit_enabled := jit_enabled i;
         jit_log_fh := jit_log_fh i; jit_bytecode_map := jit_bytecode_map i;
         jit_bytecode_dir := jit_bytecode_dir i; jit_seq_nr := jit_seq_nr i;
         dynvar_log_fh := dynvar_log_fh i; nfa_debug_enabled := nfa_debug_enabled i;
         cross_thread_write_logging := cross_thread_write_logging i;
         cross_thread_write_logging_include_locked :=
           cross_thread_write_logging_include_locked i;
         coverage_logging := coverage_logging i; coverage_log_fh := coverage_log_fh i;
         lib_path := lib_path i |}.
Proof. now destruct i. Qed.

Lemma bind_getenv {B} (host : Host) (name : string) (k : option string -> M B) (w : World) :
  bind (getenv host name) k w = k (environ host !! name) (with_event (ev_getenv name) w).
Proof. reflexivity. Qed.

Lemma bind_ret {A B} (a : A) (k : A -> M B) (w : World) : bind (ret a) k w = k a w.
Proof. reflexivity. Qed.

Lemma bind_return {A B} (m : M A) (k : A -> M B) (w : World) (a : A) (w' : World) :
  m w = Return a w' -> bind m k w = k a w'.
Proof. unfold bind. now intros ->. Qed.

Lemma init_mutex_ok (host : Host) (loc : mutex) :
  mutex_init_ok host loc = true -> (uv_mutex_init host loc <? 0) = false.
Proof. unfold mutex_init_ok. intros H. apply Z.ltb_ge. now apply Z.leb_le. Qed.

(** One step of a run whose statements do not depend on the state. *)
Ltac run_step :=
  first
    [ rewrite bind_bind | rewrite bind_store | rewrite bind_ret | rewrite bind_getenv
    | rewrite bind_collaborator | rewrite bind_load ].

Ltac run := repeat run_step.

(** The instance equations that close a block: both sides are built from
    setters on the same instance. *)
Ltac same_instance w :=
  cbn [instance with_instance with_event with_mutexes];
  repeat match goal with
         | H : instance _ = _ |- _ => rewrite H; clear H
         end;
  cbn [instance with_instance with_event with_mutexes];
  rewrite (MVMInstance_eta (instance w)); reflexivity.

Section BootstrapState.

Variable host : Host.
Variable MAX_COUNT : nat.

Local Abbreviation env name := (environ host !! name).

(** [fopen] hands out the next stream id, or NULL. *)
Lemma fopen_opens (path mode : string) (w : World) :
  exists fh w',
    fopen host path mode w = Return fh w'
    /\ evolves (fun i => i) [] [fh] w w'
    /\ fh <> Some stderr
    /\ is_set fh = fopen_succeeds host path mode.
Proof.
  unfold fopen. destruct (fopen_succeeds host path mode).
  - do 2 eexists. split; [reflexivity|]. repeat split; [|discriminate].
    cbn. lia.
  - do 2 eexists. split; [reflexivity|]. repeat split; [|discriminate].
    cbn. lia.
Qed.

Lemma fopen_perhaps_with_pid_opens (path mode fixed_path : string) (w : World) :
  sanitized host path = Some fixed_path ->
  exists fh w',
    fopen_perhaps_with_pid host path mode w = Return fh w'
    /\ evolves (fun i => i) [] [fh] w w'
    /\ fh <> Some stderr
    /\ is_set fh = fopen_succeeds host fixed_path mode.
Proof.
  intros Hs.
  destruct (fopen_perhaps_with_pid_sanitized host path mode fixed_path w Hs)
    as (w1 & Hw1 & ->).
  destruct (fopen_opens fixed_path mode w1) as (fh & w' & Hrun & Hev & Hfh).
  exists fh, w'. split; [exact Hrun|]. split; [|exact Hfh].
  now destruct Hw1 as [-> | ->].
Qed.

Lemma create_main_thread_state (w : World) :
  exists w',
    create_main_thread MAX_COUNT w = Return tt w'
    /\ evolves (main_thread_created MAX_COUNT) [] [] w w'.
Proof.
  eexists. split; [reflexivity|]. repeat split. apply opens_nil.
Qed.

Lemma create_registries_state (w : World) :
  forallb (mutex_init_ok host) bootstrap_mutexes = true ->
  exists w',
    create_registries host w = Return tt w'
    /\ evolves (fun i => i) (tail (rev bootstrap_mutexes)) [] w w'.
Proof.
  intros Hok. rewrite forallb_forall in Hok.
  unfold create_registries.
  repeat first
    [ rewrite bind_collaborator
    | rewrite bind_init_mutex, init_mutex_ok by (apply Hok; cbn; tauto) ].
  unfold init_mutex. rewrite init_mutex_ok by (apply Hok; cbn; tauto).
  eexists. split; [reflexivity|]. repeat split. apply opens_nil.
Qed.

Lemma configure_spesh_state (w : World) :
  mutex_init_ok host mutex_spesh_install = true ->
  log_path_ok host "MVM_SPESH_LOG" = true ->
  exists s w',
    configure_spesh host w = Return tt w'
    /\ evolves (spesh_configured host s) [mutex_spesh_install] [s] w w'
    /\ s <> Some stderr
    /\ is_set s = log_opened host "MVM_SPESH_LOG" "w".
Proof.
  intros Hmutex Hlog. unfold configure_spesh, log_opened, log_path_ok in *.
  rewrite bind_init_mutex, init_mutex_ok by assumption. rewrite bind_getenv.
  set (rest := bind (getenv host "MVM_SPESH_DISABLE") _).
  assert (forall w0, exists w',
             rest w0 = Return tt w'
             /\ evolves (fun i => spesh_configured host (spesh_log_fh i) i) [] [] w0 w')
    as Hrest.
  { intros w0. subst rest. unfold spesh_configured. run.
    (destruct (unset_or_empty (env "MVM_SPESH_DISABLE")); run;
      [destruct (unset_or_empty (env "MVM_SPESH_INLINE_DISABLE")); run;
       destruct (unset_or_empty (env "MVM_SPESH_OSR_DISABLE")); run|]);
      (destruct (set_and_nonempty (env "MVM_SPESH_NODELAY")); run;
       (destruct (env "MVM_SPESH_LIMIT") as [limit|];
        [destruct (strlen limit =? 0)|]); cbn [negb andb];
       unfold store, ret;
       (eexists; split; [reflexivity|]; split; [|split; [reflexivity | apply opens_nil]]);
       destruct (set_and_nonempty (env "MVM_SPESH_LOG")); same_instance w0). }
  destruct (env "MVM_SPESH_LOG") as [path|] eqn:Henv; cbn [set_and_nonempty] in *.
  - destruct (strlen path =? 0) eqn:Hlen; cbn [negb andb] in *.
    + rewrite bind_ret.
      destruct (Hrest (with_event (ev_getenv "MVM_SPESH_LOG")
                         (with_mutexes (cons mutex_spesh_install) w)))
        as (w' & Hrun & Hi & Hm & Ho).
      exists None, w'. split; [exact Hrun|]. split; [|split; [discriminate | reflexivity]].
      split; [|split; [exact Hm | exact Ho]].
      rewrite Hi. unfold spesh_configured. rewrite Henv. cbn [set_and_nonempty].
      rewrite Hlen. reflexivity.
    + destruct (sanitized host path) as [fixed_path|] eqn:Hs; [|discriminate].
      destruct (fopen_perhaps_with_pid_opens path "w" fixed_path
                  (with_event (ev_getenv "MVM_SPESH_LOG")
                     (with_mutexes (cons mutex_spesh_install) w)) Hs)
        as (s & w1 & Hrun1 & Hev1 & Hs1 & Hs2).
      rewrite bind_bind, (bind_return _ _ _ _ _ Hrun1), bind_store.
      destruct (Hrest (with_instance (set_spesh_log_fh s) w1))
        as (w' & Hrun & Hev).
      exists s, w'. split; [exact Hrun|]. split; [|split; assumption].
      pose proof (evolves_trans _ _ _ _ _ _ _ _ _ Hev1
                    (evolves_trans _ _ _ _ _ _ _ _ _
                       (conj eq_refl (conj eq_refl (opens_nil _)) :
                          evolves (set_spesh_log_fh s) [] [] w1
                            (with_instance (set_spesh_log_fh s) w1)) Hev)) as H.
      destruct H as (Hi & Hm & Ho). split; [|split].
      * rewrite Hi. cbn [instance with_event with_mutexes].
        unfold spesh_configured. rewrite Henv. cbn [set_and_nonempty].
        rewrite Hlen. reflexivity.
      * rewrite Hm. reflexivity.
      * exact Ho.
  - rewrite bind_ret.
    destruct (Hrest (with_event (ev_getenv "MVM_SPESH_LOG")
                       (with_mutexes (cons mutex_spesh_install) w)))
      as (w' & Hrun & Hi & Hm & Ho).
    exists None, w'. split; [exact Hrun|]. split; [|split; [discriminate | reflexivity]].
    split; [|split; [exact Hm | exact Ho]].
    rewrite Hi. unfold spesh_configured. rewrite Henv. reflexivity.
Qed.

(** A log that is opened when its variable is set and not empty. *)
Lemma open_log_state (v : option string) (mode : string)
    (setter : option FILE -> MVMInstance -> MVMInstance) (w : World) :
  (forall path, v = Some path -> is_set (sanitized host path) = true) ->
  exists fh w',
    match v with
    | Some path =>
        if negb (strlen path =? 0) then
          let* fh := fopen_perhaps_with_pid host path mode in
          store (setter fh)
        else ret tt
    | None => ret tt
    end w = Return tt w'
    /\ evolves (fun i => if set_and_nonempty v then setter fh i else i) [] [fh] w w'
    /\ fh <> Some stderr
    /\ is_set fh
       = match v with
         | Some path =>
             negb (strlen path =? 0)
             && match sanitized host path with
                | Some fixed_path => fopen_succeeds host fixed_path mode
                | None => false
                end
         | None => false
         end.
Proof.
  intros Hok. destruct v as [path|]; cbn [set_and_nonempty].
  - destruct (strlen path =? 0); cbn [negb andb].
    + exists None, w. repeat split; [apply opens_none | discriminate].
    + specialize (Hok path eq_refl).
      destruct (sanitized host path) as [fixed_path|] eqn:Hs; [|discriminate].
      destruct (fopen_perhaps_with_pid_opens path mode fixed_path w Hs)
        as (fh & w1 & Hrun1 & (Hi & Hm & Ho) & Hfh).
      exists fh, (with_instance (setter fh) w1).
      rewrite (bind_return _ _ _ _ _ Hrun1).
      split; [reflexivity|]. split; [|exact Hfh].
      split; [cbn; now rewrite Hi | split; [exact Hm | exact Ho]].
  - exists None, w. repeat split; [apply opens_none | discriminate].
Qed.

Lemma configure_jit_state (w : World) :
  log_path_ok host "MVM_JIT_LOG" = true ->
  exists j m w',
    configure_jit host w = Return tt w'
    /\ evolves (jit_configured host j m) [] [j; m] w w'
    /\ j <> Some stderr /\ m <> Some stderr
    /\ is_set j = log_opened host "MVM_JIT_LOG" "w"
    /\ is_set m = bytecode_map_opened host.
Proof.
  intros Hlog. unfold configure_jit, log_opened, log_path_ok, bytecode_map_opened in *.
  rewrite bind_getenv.
  set (w0 := with_event (ev_getenv "MVM_JIT_DISABLE") w).
  assert (exists w1,
             (if unset_or_empty (env "MVM_JIT_DISABLE")
              then store (set_jit_enabled 1) else ret tt) w0 = Return tt w1
             /\ evolves (fun i => set_jit_enabled
                                    (if unset_or_empty (env "MVM_JIT_DISABLE")
                                     then 1 else jit_enabled i) i) [] [] w w1)
    as (w1 & Hrun1 & Hev1).
  { subst w0. destruct (unset_or_empty (env "MVM_JIT_DISABLE")); eexists;
      (split; [reflexivity|]); (split; [|split; [reflexivity | apply opens_nil]]);
      same_instance w. }
  rewrite (bind_return _ _ _ _ _ Hrun1), bind_getenv.
  destruct (open_log_state (env "MVM_JIT_LOG") "w" set_jit_log_fh
              (with_event (ev_getenv "MVM_JIT_LOG") w1))
    as (j & w2 & Hrun2 & Hev2 & Hj1 & Hj2).
  { intros path Hpath. now rewrite Hpath in Hlog. }
  rewrite (bind_return _ _ _ _ _ Hrun2), bind_getenv.
  set (w3 := with_event (ev_getenv "MVM_JIT_BYTECODE_DIR") w2).
  assert (exists m w4,
             match env "MVM_JIT_BYTECODE_DIR" with
             | Some dir =>
                 if negb (strlen dir =? 0) then
                   let bytecode_map_name := dir +:+ "/jit-map.txt" in
                   let* fh := fopen host bytecode_map_name "w" in
                   store (set_jit_bytecode_map fh) >>
                   store (set_jit_bytecode_dir (Some dir))
                 else ret tt
             | None => ret tt
             end w3 = Return tt w4
             /\ evolves (fun i =>
                           let with_dir :=
                             set_and_nonempty (env "MVM_JIT_BYTECODE_DIR") in
                           set_jit_bytecode_dir
                             (if with_dir then env "MVM_JIT_BYTECODE_DIR"
                              else jit_bytecode_dir i)
                             (set_jit_bytecode_map
                                (if with_dir then m else jit_bytecode_map i) i))
                  [] [m] w2 w4
             /\ m <> Some stderr
             /\ is_set m = bytecode_map_opened host)
    as (m & w4 & Hrun4 & Hev4 & Hm1 & Hm2).
  { unfold bytecode_map_opened. subst w3.
    destruct (env "MVM_JIT_BYTECODE_DIR") as [dir|]; cbn [set_and_nonempty].
    - destruct (strlen dir =? 0); cbn [negb andb].
      + exists None. eexists. split; [reflexivity|].
        split; [|split; [discriminate | reflexivity]].
        split; [same_instance w2 | split; [reflexivity | apply opens_none]].
      + cbv zeta.
        destruct (fopen_opens (dir +:+ "/jit-map.txt") "w"
                    (with_event (ev_getenv "MVM_JIT_BYTECODE_DIR") w2))
          as (m & w4 & Hrun4 & (Hi & Hm & Ho) & Hm1 & Hm2).
        rewrite (bind_return _ _ _ _ _ Hrun4), bind_store.
        exists m. eexists. split; [reflexivity|]. split; [|split; assumption].
        split; [|split; [exact Hm | exact Ho]].
        same_instance w2.
    - exists None. eexists. split; [reflexivity|].
      split; [|split; [discriminate | reflexivity]].
      split; [same_instance w2 | split; [reflexivity | apply opens_none]]. }
  rewrite (bind_return _ _ _ _ _ Hrun4).
  exists j, m. eexists. split; [reflexivity|].
  split; [|repeat split; assumption].
  change (evolves (fun i => if set_and_nonempty (env "MVM_JIT_LOG")
                            then set_jit_log_fh j i else i) [] [j] w1 w2) in Hev2.
  pose proof (evolves_trans _ _ _ _ _ _ _ _ _ Hev1
                (evolves_trans _ _ _ _ _ _ _ _ _ Hev2 Hev4)) as (Hi & Hm & Ho).
  split; [|split; [exact Hm | exact Ho]].
  cbn [instance with_instance]. rewrite Hi. unfold jit_configured.
  destruct (set_and_nonempty (env "MVM_JIT_LOG")),
    (set_and_nonempty (env "MVM_JIT_BYTECODE_DIR")); reflexivity.
Qed.

Lemma configure_dynvar_log_state (w : World) :
  dynvar_log_ok host = true ->
  exists d w',
    configure_dynvar_log host w = Return tt w'
    /\ evolves (dynvar_configured host d) [] [d] w w'
    /\ d <> Some stderr
    /\ is_set d = log_opened host "MVM_DYNVAR_LOG" "w".
Proof.
  intros Hok. unfold configure_dynvar_log, log_opened, dynvar_log_ok in *.
  rewrite bind_getenv.
  destruct (env "MVM_DYNVAR_LOG") as [path|]; cbn [set_and_nonempty].
  - destruct (strlen path =? 0); cbn [negb andb].
    + run. exists None. eexists. split; [reflexivity|].
      split; [|split; [discriminate | reflexivity]].
      split; [reflexivity | split; [reflexivity | apply opens_none]].
    + destruct (sanitized host path) as [fixed_path|] eqn:Hs; [|discriminate].
      destruct (fopen_perhaps_with_pid_opens path "w" fixed_path
                  (with_event (ev_getenv "MVM_DYNVAR_LOG") w) Hs)
        as (d & w1 & Hrun1 & (Hi & Hm & Ho) & Hd1 & Hd2).
      rewrite Hok in Hd2. destruct d as [f|]; [|discriminate].
      rewrite bind_bind, (bind_return _ _ _ _ _ Hrun1). run.
      cbn [instance with_instance dynvar_log_fh set_dynvar_log_fh fprintf]. run.
      exists (Some f). eexists. split; [reflexivity|].
      split; [|split; [exact Hd1 | now rewrite Hok]].
      split; [|split; [exact Hm | exact Ho]].
      cbn [instance with_instance with_event] in *. now rewrite Hi.
  - run. exists None. eexists. split; [reflexivity|].
    split; [|split; [discriminate | reflexivity]].
    split; [reflexivity | split; [reflexivity | apply opens_none]].
Qed.

Lemma configure_cross_thread_write_log_state (w : World) :
  (is_set (env "MVM_CROSS_THREAD_WRITE_LOG") = true ->
   mutex_init_ok host mutex_cross_thread_write_logging = true) ->
  exists w',
    configure_cross_thread_write_log host w = Return tt w'
    /\ evolves (cross_thread_write_log_configured host)
         (if is_set (env "MVM_CROSS_THREAD_WRITE_LOG")
          then [mutex_cross_thread_write_logging] else []) [] w w'.
Proof.
  intros Hok. unfold configure_cross_thread_write_log, cross_thread_write_log_configured.
  rewrite bind_getenv.
  destruct (is_set (env "MVM_CROSS_THREAD_WRITE_LOG")).
  - run. unfold init_mutex. rewrite init_mutex_ok by auto.
    eexists. split; [reflexivity|]. repeat split. apply opens_nil.
  - eexists. split; [reflexivity|]. repeat split. apply opens_nil.
Qed.

Lemma strlen_zero (s : string) : (strlen s =? 0) = true <-> s = EmptyString.
Proof.
  unfold strlen. destruct s; cbn [String.length]; split; try reflexivity; discriminate.
Qed.

Lemma configure_coverage_log_state (w : World) :
  log_path_ok host "MVM_COVERAGE_LOG" = true ->
  exists c w',
    configure_coverage_log host w = Return tt w'
    /\ evolves (coverage_configured host c) [] [c] w w'
    /\ (c = Some stderr <-> env "MVM_COVERAGE_LOG" = Some EmptyString)
    /\ (c <> Some stderr -> is_set c = log_opened host "MVM_COVERAGE_LOG" "a").
Proof.
  intros Hlog. unfold configure_coverage_log, coverage_configured, log_opened, log_path_ok in *.
  rewrite bind_getenv.
  destruct (env "MVM_COVERAGE_LOG") as [path|] eqn:Henv; cbn [is_set].
  - run. rewrite Henv. destruct (strlen path =? 0) eqn:Hlen; cbn [negb andb].
    + apply strlen_zero in Hlen as ->.
      exists (Some stderr). eexists. split; [reflexivity|].
      split; [|split; [tauto | congruence]].
      split; [reflexivity | split; [reflexivity | apply opens_stderr]].
    + destruct (sanitized host path) as [fixed_path|] eqn:Hs; [|discriminate].
      destruct (fopen_perhaps_with_pid_opens path "a" fixed_path
                  (with_instance incr_instrumentation_level
                     (with_instance (set_coverage_logging 1)
                        (with_event (ev_getenv "MVM_COVERAGE_LOG")
                           (with_event (ev_getenv "MVM_COVERAGE_LOG") w)))) Hs)
        as (c & w1 & Hrun1 & (Hi & Hm & Ho) & Hc1 & Hc2).
      rewrite (bind_return _ _ _ _ _ Hrun1).
      exists c. eexists. split; [reflexivity|].
      split; [|split; [|auto]].
      * split; [|split; [exact Hm | exact Ho]].
        cbn [instance with_instance with_event] in *. now rewrite Hi.
      * split; [contradiction|]. intros [= ->]. discriminate Hlen.
  - exists None. eexists. split; [reflexivity|].
    split; [|split; [split; discriminate | reflexivity]].
    split; [reflexivity | split; [reflexivity | apply opens_none]].
Qed.

(** The whole of [MVM_vm_create_instance] on a host where bootstrap runs to
    its end. *)
Lemma create_instance_state (w : World) :
  bootable host = true ->
  exists s j m d c w',
    MVM_vm_create_instance host MAX_COUNT w = Return (instance w') w'
    /\ evolves (fun _ => bootstrapped host MAX_COUNT s j m d c)
         (bootstrapped_mutexes host) [s; j; m; d; c] w w'
    /\ bootstrapped_handles host s j m d c.
Proof.
  intros Hboot.
  destruct (bootable_parts host Hboot) as (Hmutex & Hctwl & Hspesh & Hjit & Hcov & Hdyn).
  unfold MVM_vm_create_instance.
  destruct (create_main_thread_state w) as (w1 & Hrun1 & Hev1).
  rewrite (bind_return _ _ _ _ _ Hrun1).
  destruct (create_registries_state w1) as (w2 & Hrun2 & Hev2).
  { apply forallb_forall. exact Hmutex. }
  rewrite (bind_return _ _ _ _ _ Hrun2), bind_store.
  destruct (configure_spesh_state (with_instance (set_instrumentation_level 1) w2))
    as (s & w3 & Hrun3 & Hev3 & Hs1 & Hs2); [apply Hmutex; cbn; tauto | exact Hspesh |].
  rewrite (bind_return _ _ _ _ _ Hrun3).
  destruct (configure_jit_state w3 Hjit)
    as (j & m & w4 & Hrun4 & Hev4 & Hj1 & Hm1 & Hj2 & Hm2).
  rewrite (bind_return _ _ _ _ _ Hrun4).
  destruct (configure_dynvar_log_state w4 Hdyn) as (d & w5 & Hrun5 & Hev5 & Hd1 & Hd2).
  rewrite (bind_return _ _ _ _ _ Hrun5).
  destruct (configure_cross_thread_write_log_state w5 Hctwl) as (w6 & Hrun6 & Hev6).
  rewrite (bind_return _ _ _ _ _ Hrun6).
  destruct (configure_coverage_log_state w6 Hcov) as (c & w7 & Hrun7 & Hev7 & Hc1 & Hc2).
  rewrite (bind_return _ _ _ _ _ Hrun7).
  exists s, j, m, d, c, w7. split; [reflexivity|]. split.
  - pose proof
      (evolves_trans _ _ _ _ _ _ _ _ _ Hev1
         (evolves_trans _ _ _ _ _ _ _ _ _ Hev2
            (evolves_trans _ _ _ _ _ _ _ _ _
               (conj eq_refl (conj eq_refl (opens_nil _)) :
                  evolves (set_instrumentation_level 1) [] [] w2
                    (with_instance (set_instrumentation_level 1) w2))
               (evolves_trans _ _ _ _ _ _ _ _ _ Hev3
                  (evolves_trans _ _ _ _ _ _ _ _ _ Hev4
                     (evolves_trans _ _ _ _ _ _ _ _ _ Hev5
                        (evolves_trans _ _ _ _ _ _ _ _ _ Hev6 Hev7)))))))
      as (Hi & Hm & Ho).
    split; [|split].
    + rewrite Hi. reflexivity.
    + rewrite Hm. unfold bootstrapped_mutexes.
      destruct (is_set (env "MVM_CROSS_THREAD_WRITE_LOG")); reflexivity.
    + exact Ho.
  - unfold bootstrapped_handles.
    do 6 (split; [assumption|]).
    rewrite !not_elem_of_cons. pose proof (not_elem_of_nil (Some stderr)).
    intuition congruence.
Qed.

End BootstrapState.

(** ** What bootstrap leaves behind, and what teardown does with it *)

Lemma opens_fresh (hs : list (option FILE)) (st st' : list nat * nat) (id : nat) :
  opens hs st st' -> Some (stream id) ∈ hs -> (st.2 <= id < st'.2)%nat.
Proof.
  intros (Hids & _ & Hnext) Hin. apply stream_ids_elem in Hin.
  rewrite Hids in Hin. apply elem_of_seq in Hin. lia.
Qed.

Lemma opens_NoDup (hs : list (option FILE)) (st st' : list nat * nat) :
  opens hs st st' -> NoDup (stream_ids hs).
Proof. intros (-> & _). apply NoDup_seq. Qed.

Lemma stream_ids_distinct (l1 l2 : list (option FILE)) (id : nat) :
  NoDup (stream_ids (l1 ++ Some (stream id) :: l2)) ->
  (Some (stream id) ∉ l1) /\ (Some (stream id) ∉ l2).
Proof.
  rewrite stream_ids_app. cbn [stream_ids].
  rewrite NoDup_app, NoDup_cons. intros (_ & Hl1 & Hl2 & _).
  rewrite <- !stream_ids_elem. split; [|exact Hl2].
  intros Hin. apply (Hl1 id Hin). now left.
Qed.

Lemma elem_of_rev {A} (x : A) (l : list A) : x ∈ rev l <-> x ∈ l.
Proof. rewrite !list_elem_of_In. symmetry. apply in_rev. Qed.

Lemma is_open_streams (id : nat) (w : World) :
  is_open (stream id) w <-> id ∈ (streams w).1.
Proof. reflexivity. Qed.

Lemma opens_is_open (hs : list (option FILE)) (w w' : World) (id : nat) :
  opens hs (streams w) (streams w') ->
  is_open (stream id) w' <-> Some (stream id) ∈ hs \/ is_open (stream id) w.
Proof.
  intros (_ & Hopen & _). rewrite !is_open_streams, Hopen.
  rewrite elem_of_app, elem_of_rev, stream_ids_elem. reflexivity.
Qed.

Section AfterBootstrap.

Variable host : Host.
Variable MAX_COUNT : nat.

Local Abbreviation env name := (environ host !! name).

Lemma is_set_false {A} (v : option A) : is_set v = false -> v = None.
Proof. now destruct v. Qed.

Lemma bootstrapped_log_handles (s j m d c : option FILE) :
  bootstrapped_handles host s j m d c ->
  log_handles (bootstrapped host MAX_COUNT s j m d c) = [s; j; m; d; c].
Proof.
  intros (Hs & Hj & Hm & Hd & Hc1 & Hc2 & _).
  unfold log_handles, bootstrapped, coverage_configured, cross_thread_write_log_configured.
  unfold log_opened, bytecode_map_opened in *.
  assert ((if set_and_nonempty (env "MVM_SPESH_LOG") then s else None) = s) as Es.
  { destruct (env "MVM_SPESH_LOG") as [p|]; cbn [set_and_nonempty] in *;
      [destruct (strlen p =? 0)|]; cbn [negb andb] in *;
      first [reflexivity | symmetry; now apply is_set_false]. }
  assert ((if set_and_nonempty (env "MVM_JIT_LOG") then j else None) = j) as Ej.
  { destruct (env "MVM_JIT_LOG") as [p|]; cbn [set_and_nonempty] in *;
      [destruct (strlen p =? 0)|]; cbn [negb andb] in *;
      first [reflexivity | symmetry; now apply is_set_false]. }
  assert ((if set_and_nonempty (env "MVM_JIT_BYTECODE_DIR") then m else None) = m) as Em.
  { destruct (env "MVM_JIT_BYTECODE_DIR") as [p|]; cbn [set_and_nonempty] in *;
      [destruct (strlen p =? 0)|]; cbn [negb andb] in *;
      first [reflexivity | symmetry; now apply is_set_false]. }
  assert ((if is_set (env "MVM_COVERAGE_LOG") then c else None) = c) as Ec.
  { destruct (env "MVM_COVERAGE_LOG") as [p|]; cbn [is_set] in *; [reflexivity|].
    symmetry. apply is_set_false, Hc2. intros ->.
    destruct Hc1 as [Hc1 _]. discriminate (Hc1 eq_refl). }
  destruct (is_set (env "MVM_CROSS_THREAD_WRITE_LOG")), (is_set (env "MVM_COVERAGE_LOG"));
    cbn in Es, Ej, Em, Ec |- *; congruence.
Qed.

(** The handles bootstrap leaves can be closed: those that are set are
    streams it opened, open and pairwise different. *)
Lemma stream_ids_without (l1 l2 : list (option FILE)) (x : option FILE) :
  NoDup (stream_ids (l1 ++ x :: l2)) -> NoDup (stream_ids (l1 ++ l2)).
Proof.
  rewrite !stream_ids_app. destruct x as [[|id]|]; cbn [stream_ids]; try tauto.
  rewrite !NoDup_app, NoDup_cons. intros (H1 & H2 & _ & H3).
  split; [exact H1|]. split; [|exact H3].
  intros id' Hin Hin'. apply (H2 id' Hin). now right.
Qed.

Lemma omap_stream_ids (hs : list (option FILE)) :
  Some stderr ∉ hs -> omap id hs = stream <$> stream_ids hs.
Proof.
  induction hs as [|[[|id']|] hs IH]; intros Hstderr; cbn [stream_ids omap list_omap fmap];
    try reflexivity.
  - exfalso. apply Hstderr. now left.
  - cbn. f_equal. apply IH. intros Hin. apply Hstderr. now right.
  - apply IH. intros Hin. apply Hstderr. now right.
Qed.

Lemma closable_stream_ids (hs : list (option FILE)) (w : World) :
  Some stderr ∉ hs ->
  NoDup (stream_ids hs) ->
  (forall id, Some (stream id) ∈ hs -> is_open (stream id) w) ->
  closable hs w.
Proof.
  intros Hstderr Hnodup Hopen. split.
  - rewrite omap_stream_ids by assumption.
    apply NoDup_fmap_2; [|exact Hnodup]. intros id1 id2 [= ->]. reflexivity.
  - intros [|id] Hin; [exact I | now apply Hopen].
Qed.

Lemma bootstrapped_closable (s j m d c : option FILE) (w w' : World) :
  opens [s; j; m; d; c] (streams w) (streams w') ->
  Some stderr ∉ [s; j; m; d] ->
  closable [s; j; m; d] w' /\ closable [s; j; d] w'.
Proof.
  intros Ho Hstderr.
  pose proof (opens_NoDup _ _ _ Ho) as Hnodup.
  pose proof (stream_ids_without [s; j; m; d] [] c Hnodup) as Hnodup4.
  pose proof (stream_ids_without [s; j] [d] m Hnodup4) as Hnodup3.
  rewrite !not_elem_of_cons in Hstderr.
  split; (apply closable_stream_ids; [| assumption |]).
  - rewrite !not_elem_of_cons. tauto.
  - intros id Hin. apply (opens_is_open _ _ _ id Ho). left.
    rewrite !elem_of_cons in *. tauto.
  - rewrite !not_elem_of_cons. tauto.
  - intros id Hin. apply (opens_is_open _ _ _ id Ho). left.
    rewrite !elem_of_cons in *. tauto.
Qed.

(** X6: the switches bootstrap reads from the environment. The JIT is on
    unless [MVM_JIT_DISABLE] is set and not empty; [MVM_SPESH_NODELAY] and
    [MVM_SPESH_LIMIT] count only when set and not empty, the limit being
    [atoi] of the value; NFA debugging and the inclusion of locked objects in
    cross-thread write logging are decided by the mere presence of their
    variables (the latter only when cross-thread write logging is on); the JIT
    bytecode directory is kept when set and not empty; the JIT sequence number
    is 0 and no library path is set. *)
Theorem create_instance_configuration (w : World) :
  bootable host = true ->
  exists inst w',
    MVM_vm_create_instance host MAX_COUNT w = Return inst w'
    /\ jit_enabled inst = Z_of_bool (unset_or_empty (env "MVM_JIT_DISABLE"))
    /\ spesh_nodelay inst = Z_of_bool (set_and_nonempty (env "MVM_SPESH_NODELAY"))
    /\ spesh_limit inst
       = match env "MVM_SPESH_LIMIT" with
         | Some limit => if strlen limit =? 0 then 0 else atoi host limit
         | None => 0
         end
    /\ nfa_debug_enabled inst = Z_of_bool (is_set (env "MVM_NFA_DEB"))
    /\ cross_thread_write_logging_include_locked inst
       = Z_of_bool (is_set (env "MVM_CROSS_THREAD_WRITE_LOG")
                    && is_set (env "MVM_CROSS_THREAD_WRITE_LOG_INCLUDE_LOCKED"))
    /\ jit_bytecode_dir inst
       = (if set_and_nonempty (env "MVM_JIT_BYTECODE_DIR")
          then env "MVM_JIT_BYTECODE_DIR" else None)
    /\ jit_seq_nr inst = 0
    /\ lib_path inst = replicate MAX_COUNT None.
Proof.
  intros Hboot.
  destruct (create_instance_state host MAX_COUNT w Hboot)
    as (s & j & m & d & c & w' & Hrun & (Hi & _) & _).
  exists (instance w'), w'. split; [exact Hrun|]. rewrite Hi.
  unfold bootstrapped, coverage_configured, cross_thread_write_log_configured.
  destruct (is_set (env "MVM_CROSS_THREAD_WRITE_LOG")), (is_set (env "MVM_COVERAGE_LOG"));
    cbn [andb]; repeat split; cbn;
    try (destruct (env "MVM_SPESH_LIMIT") as [limit|];
         [destruct (strlen limit =? 0)|]; reflexivity).
Qed.

(** X7: the log handles after bootstrap. Each of the specializer log, JIT log,
    JIT bytecode map and dynamic variable log handles is non-NULL exactly when
    its variable is set, not empty, and [fopen] succeeded on the sanitized
    path; the coverage handle is the standard error stream exactly when
    [MVM_COVERAGE_LOG] is set and empty, and otherwise obeys the same rule as
    the other logs. The streams open afterwards are those open before
    together with the ones these five handles hold, and the streams held are
    new and pairwise different. *)
Theorem create_instance_log_handles (w : World) :
  bootable host = true ->
  exists inst w',
    MVM_vm_create_instance host MAX_COUNT w = Return inst w'
    /\ is_set (spesh_log_fh inst) = log_opened host "MVM_SPESH_LOG" "w"
    /\ is_set (jit_log_fh inst) = log_opened host "MVM_JIT_LOG" "w"
    /\ is_set (jit_bytecode_map inst) = bytecode_map_opened host
    /\ is_set (dynvar_log_fh inst) = log_opened host "MVM_DYNVAR_LOG" "w"
    /\ (coverage_log_fh inst = Some stderr
        <-> env "MVM_COVERAGE_LOG" = Some EmptyString)
    /\ (coverage_log_fh inst <> Some stderr ->
        is_set (coverage_log_fh inst) = log_opened host "MVM_COVERAGE_LOG" "a")
    /\ (forall id, is_open (stream id) w'
                   <-> Some (stream id) ∈ log_handles inst \/ is_open (stream id) w)
    /\ (forall id, Some (stream id) ∈ log_handles inst -> (next_stream w <= id)%nat)
    /\ NoDup (stream_ids (log_handles inst)).
Proof.
  intros Hboot.
  destruct (create_instance_state host MAX_COUNT w Hboot)
    as (s & j & m & d & c & w' & Hrun & (Hi & _ & Ho) & Hh).
  pose proof (bootstrapped_log_handles s j m d c Hh) as Hlist.
  rewrite <- Hi in Hlist.
  exists (instance w'), w'. split; [exact Hrun|].
  assert (spesh_log_fh (instance w') = s /\ jit_log_fh (instance w') = j
          /\ jit_bytecode_map (instance w') = m /\ dynvar_log_fh (instance w') = d
          /\ coverage_log_fh (instance w') = c) as (-> & -> & -> & -> & ->)
    by (unfold log_handles in Hlist; repeat split; congruence).
  rewrite Hlist.
  destruct Hh as (Hs & Hj & Hm & Hd & Hc & Hc' & _).
  do 6 (split; [assumption|]).
  split; [intros id; now apply opens_is_open|].
  split; [|eapply opens_NoDup; exact Ho].
  intros id Hin. now apply (opens_fresh _ _ _ id Ho).
Qed.

(** X8: bootstrap followed by [MVM_vm_exit]. The process ends with status 0,
    and of the streams bootstrap opened only the coverage log is still open:
    a stream is open at the exit exactly if it was open before bootstrap or
    is the coverage log handle. *)
Theorem bootstrap_then_exit_streams (w : World) :
  bootable host = true ->
  (forall id, is_open (stream id) w -> (id < next_stream w)%nat) ->
  exists inst w' w'',
    MVM_vm_create_instance host MAX_COUNT w = Return inst w'
    /\ MVM_vm_exit w' = Exit 0 w''
    /\ forall id, is_open (stream id) w''
                  <-> is_open (stream id) w \/ coverage_log_fh inst = Some (stream id).
Proof.
  intros Hboot Hwf.
  destruct (create_instance_state host MAX_COUNT w Hboot)
    as (s & j & m & d & c & w' & Hrun & (Hi & _ & Ho) & Hh).
  pose proof (bootstrapped_log_handles s j m d c Hh) as Hlist.
  rewrite <- Hi in Hlist.
  assert (spesh_log_fh (instance w') = s /\ jit_log_fh (instance w') = j
          /\ jit_bytecode_map (instance w') = m /\ dynvar_log_fh (instance w') = d
          /\ coverage_log_fh (instance w') = c) as (Es & Ej & Em & Ed & Ec)
    by (unfold log_handles in Hlist; repeat split; congruence).
  destruct (exit_streams w') as (w'' & Hexit & Hopen).
  { unfold closed_by_exit. rewrite Es, Ej, Em, Ed.
    apply (bootstrapped_closable s j m d c w w' Ho), Hh. }
  exists (instance w'), w', w''. split; [exact Hrun|]. split; [exact Hexit|].
  intros id. rewrite Hopen, (opens_is_open _ _ _ id Ho).
  unfold closed_by_exit. rewrite Es, Ej, Em, Ed, Ec.
  pose proof (fun H => opens_fresh _ _ _ id Ho H) as Hfresh. cbn [streams snd] in Hfresh.
  pose proof (stream_ids_distinct [s; j; m; d] [] id) as Hlast.
  pose proof (opens_NoDup _ _ _ Ho) as Hnodup.
  specialize (Hwf id).
  split.
  - intros [[Hin | Hold] Hclosed]; [|now left].
    right. rewrite !elem_of_cons in Hin. rewrite !not_elem_of_cons in Hclosed.
    pose proof (not_elem_of_nil (Some (stream id))).
    destruct Hin as [?|[?|[?|[?|[?|?]]]]];
      first [tauto | congruence | left; congruence | right; congruence].
  - intros [Hold | ->].
    + split; [now right|]. intros Hin.
      assert (Some (stream id) ∈ [s; j; m; d; c]) as Hin'
        by (rewrite !elem_of_cons in *; tauto).
      specialize (Hfresh Hin'). specialize (Hwf Hold). lia.
    + split; [left; rewrite !elem_of_cons; tauto|]. now apply Hlast.
Qed.

(** X9: bootstrap followed by [MVM_vm_destroy_instance]. Of the streams
    bootstrap opened, the JIT bytecode map and the coverage log are left open
    and the others are closed: a stream is open afterwards exactly if it was
    open before bootstrap or is one of these two handles. *)
Theorem bootstrap_then_destroy_streams (w : World) :
  bootable host = true ->
  (forall id, is_open (stream id) w -> (id < next_stream w)%nat) ->
  exists inst w' w'',
    MVM_vm_create_instance host MAX_COUNT w = Return inst w'
    /\ MVM_vm_destroy_instance w' = Return tt w''
    /\ forall id, is_open (stream id) w''
                  <-> is_open (stream id) w
                      \/ jit_bytecode_map inst = Some (stream id)
                      \/ coverage_log_fh inst = Some (stream id).
Proof.
  intros Hboot Hwf.
  destruct (create_instance_state host MAX_COUNT w Hboot)
    as (s & j & m & d & c & w' & Hrun & (Hi & _ & Ho) & Hh).
  pose proof (bootstrapped_log_handles s j m d c Hh) as Hlist.
  rewrite <- Hi in Hlist.
  assert (spesh_log_fh (instance w') = s /\ jit_log_fh (instance w') = j
          /\ jit_bytecode_map (instance w') = m /\ dynvar_log_fh (instance w') = d
          /\ coverage_log_fh (instance w') = c) as (Es & Ej & Em & Ed & Ec)
    by (unfold log_handles in Hlist; repeat split; congruence).
  destruct (destroy_instance_streams w') as (w'' & Hdestroy & Hopen).
  { unfold closed_by_destroy. rewrite Es, Ej, Ed.
    apply (bootstrapped_closable s j m d c w w' Ho), Hh. }
  exists (instance w'), w', w''. split; [exact Hrun|]. split; [exact Hdestroy|].
  intros id. rewrite Hopen, (opens_is_open _ _ _ id Ho).
  unfold closed_by_destroy. rewrite Es, Ej, Em, Ed, Ec.
  pose proof (fun H => opens_fresh _ _ _ id Ho H) as Hfresh. cbn [streams snd] in Hfresh.
  pose proof (stream_ids_distinct [s; j; m; d] [] id) as Hlast.
  pose proof (stream_ids_distinct [s; j] [d; c] id) as Hmid.
  pose proof (opens_NoDup _ _ _ Ho) as Hnodup.
  specialize (Hwf id).
  pose proof (not_elem_of_nil (Some (stream id))) as Hnil.
  split.
  - intros [[Hin | Hold] Hclosed]; [|now left].
    right. rewrite !elem_of_cons in Hin. rewrite !not_elem_of_cons in Hclosed.
    destruct Hin as [?|[?|[?|[?|[?|?]]]]];
      first [tauto | congruence | left; congruence | right; congruence].
  - intros [Hold | [-> | ->]].
    + split; [now right|]. intros Hin.
      assert (Some (stream id) ∈ [s; j; m; d; c]) as Hin'
        by (rewrite !elem_of_cons in *; tauto).
      specialize (Hfresh Hin'). specialize (Hwf Hold). lia.
    + split; [left; rewrite !elem_of_cons; tauto|].
      destruct (Hmid Hnodup) as [H1 H2].
      rewrite !not_elem_of_cons in *. tauto.
    + split; [left; rewrite !elem_of_cons; tauto|].
      specialize (Hlast Hnodup) as [H1 _].
      rewrite !not_elem_of_cons in *. tauto.
Qed.

(** X10: bootstrap followed by [MVM_vm_destroy_instance], for the mutexes:
    every mutex bootstrap initialised is destroyed again except the one of the
    persistent object id hash, which stays initialised. *)
Theorem bootstrap_then_destroy_mutexes (w : World) :
  bootable host = true ->
  exists inst w' w'',
    MVM_vm_create_instance host MAX_COUNT w = Return inst w'
    /\ MVM_vm_destroy_instance w' = Return tt w''
    /\ mutex_object_ids ∈ live_mutexes w''
    /\ forall m, m ∈ live_mutexes w''
                 <-> m = mutex_object_ids
                     \/ (m ∈ live_mutexes w /\ m ∉ destroyed_mutexes).
Proof.
  intros Hboot.
  destruct (create_instance_state host MAX_COUNT w Hboot)
    as (s & j & m & d & c & w' & Hrun & (Hi & Hm & Ho) & Hh).
  pose proof (bootstrapped_log_handles s j m d c Hh) as Hlist.
  rewrite <- Hi in Hlist.
  assert (spesh_log_fh (instance w') = s /\ jit_log_fh (instance w') = j
          /\ dynvar_log_fh (instance w') = d) as (Es & Ej & Ed)
    by (unfold log_handles in Hlist; repeat split; congruence).
  destruct (destroy_instance_run w') as (w'' & Hdestroy & _ & Hlive).
  { unfold closed_by_destroy. rewrite Es, Ej, Ed.
    apply (bootstrapped_closable s j m d c w w' Ho), Hh. }
  exists (instance w'), w', w''. split; [exact Hrun|]. split; [exact Hdestroy|].
  assert (forall m0, m0 ∈ bootstrapped_mutexes host /\ m0 ∉ destroyed_mutexes
                     <-> m0 = mutex_object_ids) as Hkept.
  { intros m0. unfold bootstrapped_mutexes.
    rewrite <- (bool_decide_spec (_ /\ _)), <- (bool_decide_spec (m0 = _)).
    assert (bool_decide
              (m0 ∈ (if is_set (env "MVM_CROSS_THREAD_WRITE_LOG")
                     then [mutex_cross_thread_write_logging] else [])
                    ++ rev bootstrap_mutexes
               /\ m0 ∉ destroyed_mutexes)
            = bool_decide (m0 = mutex_object_ids)) as ->; [|reflexivity].
    destruct (is_set (env "MVM_CROSS_THREAD_WRITE_LOG")); destruct m0; reflexivity. }
  assert (forall m0, m0 ∈ live_mutexes w''
                     <-> m0 = mutex_object_ids
                         \/ (m0 ∈ live_mutexes w /\ m0 ∉ destroyed_mutexes)) as Hall.
  { intros m0. rewrite Hlive, Hm, elem_of_app, <- Hkept. tauto. }
  split; [apply Hall; now left | exact Hall].
Qed.

End AfterBootstrap.

(** ** Teardown of an instance whose logs can be closed *)

(** X11: [MVM_vm_destroy_instance] on an instance whose specializer log, JIT
    log and dynamic variable log handles, where set, are open and pairwise
    different streams. It returns; a stream is open afterwards exactly if it
    was open and is not one of these three; and a mutex is initialised
    afterwards exactly if it was and is not one of the eighteen the function
    destroys, among which the object id hash mutex is not. With one of the
    three handles set to a stream that is not open the call is undefined. *)
Theorem destroy_instance_effect (w : World) :
  (closable (closed_by_destroy (instance w)) w ->
   exists w',
     MVM_vm_destroy_instance w = Return tt w'
     /\ (forall id, is_open (stream id) w'
                    <-> is_open (stream id) w
                        /\ Some (stream id) ∉ closed_by_destroy (instance w))
     /\ (forall m, m ∈ live_mutexes w'
                   <-> m ∈ live_mutexes w /\ m ∉ destroyed_mutexes)
     /\ (mutex_object_ids ∈ live_mutexes w -> mutex_object_ids ∈ live_mutexes w'))
  /\ (forall f, Some f ∈ closed_by_destroy (instance w) -> ~ is_open f w ->
      MVM_vm_destroy_instance w = Undefined).
Proof.
  split.
  - intros Hclosable.
    destruct (destroy_instance_run w Hclosable) as (w' & Hrun & Hstreams & Hmutexes).
    exists w'. split; [exact Hrun|]. split; [exact Hstreams|].
    split; [exact Hmutexes|].
    intros Hlive. apply Hmutexes. split; [exact Hlive|].
    unfold destroyed_mutexes. rewrite !not_elem_of_cons.
    repeat split; try discriminate. apply not_elem_of_nil.
  - intros f Hin Hclosed.
    destruct (MVM_vm_destroy_instance w) eqn:Hrun; [exfalso | exfalso | reflexivity];
      apply Hclosed, (destroy_instance_defined w); try exact Hin;
      rewrite Hrun; discriminate.
Qed.

(** X12: [MVM_vm_exit] on an instance whose specializer log, JIT log, JIT
    bytecode map and dynamic variable log handles, where set, are open and
    pairwise different streams. It never returns: it ends the process with
    status 0, the exit being the last thing it does. A stream is open at that
    point exactly if it was open and is not one of these four; no mutex is
    destroyed and the instance is left as it was. With one of the four
    handles set to a stream that is not open the call is undefined. *)
Theorem exit_effect (w : World) :
  (closable (closed_by_exit (instance w)) w ->
   exists w',
     MVM_vm_exit w = Exit 0 w'
     /\ instance w' = instance w
     /\ live_mutexes w' = live_mutexes w
     /\ head (trace w') = Some (ev_exit 0)
     /\ forall id, is_open (stream id) w'
                   <-> is_open (stream id) w
                       /\ Some (stream id) ∉ closed_by_exit (instance w))
  /\ (forall f, Some f ∈ closed_by_exit (instance w) -> ~ is_open f w ->
      MVM_vm_exit w = Undefined).
Proof.
  split; [apply exit_run|].
  intros f Hin Hclosed.
  destruct (MVM_vm_exit w) eqn:Hrun; [exfalso | exfalso | reflexivity];
    apply Hclosed, (exit_defined w); try exact Hin;
    rewrite Hrun; discriminate.
Qed.

(** ** Bootstrap runs that do not return *)

Section BootstrapFailure.

Variable host : Host.
Variable MAX_COUNT : nat.

Local Abbreviation env name := (environ host !! name).

(** The run of bootstrap up to the dynamic variable log. *)
Lemma create_instance_prefix (w : World) :
  forallb (mutex_init_ok host) bootstrap_mutexes = true ->
  log_path_ok host "MVM_SPESH_LOG" = true ->
  log_path_ok host "MVM_JIT_LOG" = true ->
  exists w4,
    MVM_vm_create_instance host MAX_COUNT w
    = (configure_dynvar_log host >>
       configure_cross_thread_write_log host >>
       configure_coverage_log host >>
       setup_std_handles >>
       collaborator "MVM_gc_allocate_gen2_default_clear" >>
       load (fun instance => instance)) w4.
Proof.
  intros Hmutex Hspesh Hjit. unfold MVM_vm_create_instance.
  destruct (create_main_thread_state MAX_COUNT w) as (w1 & Hrun1 & _).
  rewrite (bind_return _ _ _ _ _ Hrun1).
  destruct (create_registries_state host w1 Hmutex) as (w2 & Hrun2 & _).
  rewrite (bind_return _ _ _ _ _ Hrun2), bind_store.
  destruct (configure_spesh_state host (with_instance (set_instrumentation_level 1) w2))
    as (s & w3 & Hrun3 & _); [|exact Hspesh|].
  { rewrite forallb_forall in Hmutex. apply Hmutex. cbn. tauto. }
  rewrite (bind_return _ _ _ _ _ Hrun3).
  destruct (configure_jit_state host w3 Hjit) as (j & m & w4 & Hrun4 & _).
  rewrite (bind_return _ _ _ _ _ Hrun4).
  now exists w4.
Qed.

(** X5: when the mutexes can be initialised and the specializer and JIT log
    paths are usable, a dynamic variable log that is asked for and cannot be
    opened makes bootstrap undefined: the NULL that [fopen] returned is stored
    in the instance and handed to [fprintf] without a check. *)
Theorem create_instance_dynvar_log_unopenable (w : World) (path fixed_path : string) :
  forallb (mutex_init_ok host) bootstrap_mutexes = true ->
  log_path_ok host "MVM_SPESH_LOG" = true ->
  log_path_ok host "MVM_JIT_LOG" = true ->
  env "MVM_DYNVAR_LOG" = Some path ->
  strlen path <> 0 ->
  sanitized host path = Some fixed_path ->
  fopen_succeeds host fixed_path "w" = false ->
  MVM_vm_create_instance host MAX_COUNT w = Undefined.
Proof.
  intros Hmutex Hspesh Hjit Henv Hlen Hs Hfail.
  destruct (create_instance_prefix w Hmutex Hspesh Hjit) as (w4 & ->).
  unfold configure_dynvar_log. rewrite !bind_bind, bind_getenv, Henv.
  cbn [set_and_nonempty]. apply Z.eqb_neq in Hlen. rewrite Hlen. cbn [negb].
  destruct (fopen_perhaps_with_pid_opens host path "w" fixed_path
              (with_event (ev_getenv "MVM_DYNVAR_LOG") w4) Hs)
    as (d & w5 & Hrun5 & _ & _ & Hd).
  rewrite Hfail in Hd. apply is_set_false in Hd as ->.
  rewrite !bind_bind, (bind_return _ _ _ _ _ Hrun5). run. reflexivity.
Qed.

(** X4: when bootstrap gets as far as cross-thread write logging and that is
    asked for, a failure to initialise its mutex ends the process with status
    1 after the diagnostic of that [init_mutex] call; the flag is already set
    at that point. *)
Theorem create_instance_write_log_mutex_failure (w : World) :
  forallb (mutex_init_ok host) bootstrap_mutexes = true ->
  log_path_ok host "MVM_SPESH_LOG" = true ->
  log_path_ok host "MVM_JIT_LOG" = true ->
  dynvar_log_ok host = true ->
  is_set (env "MVM_CROSS_THREAD_WRITE_LOG") = true ->
  uv_mutex_init host mutex_cross_thread_write_logging < 0 ->
  exists w' t,
    MVM_vm_create_instance host MAX_COUNT w = Exit 1 w'
    /\ trace w'
       = ev_exit 1
         :: ev_stderr (mutex_failure_message "cross thread write logging output"
                         (uv_strerror host
                            (uv_mutex_init host mutex_cross_thread_write_logging)))
         :: t
    /\ cross_thread_write_logging (instance w') = 1.
Proof.
  intros Hmutex Hspesh Hjit Hdyn Hset Hfail.
  destruct (create_instance_prefix w Hmutex Hspesh Hjit) as (w4 & ->).
  destruct (configure_dynvar_log_state host w4 Hdyn) as (d & w5 & Hrun5 & _).
  rewrite (bind_return _ _ _ _ _ Hrun5).
  unfold configure_cross_thread_write_log.
  run. rewrite Hset. run. rewrite bind_init_mutex.
  apply Z.ltb_lt in Hfail. rewrite Hfail.
  do 2 eexists. split; [reflexivity|]. split; reflexivity.
Qed.

End BootstrapFailure.

(** ** [MVM_vm_set_lib_path] within the capacity *)

Section LibPath.

Variable MAX_COUNT : nat.

Local Abbreviation paths w := (lib_path (instance w)).

Lemma with_instance_lib_path (w : World) :
  with_instance (set_lib_path (paths w)) w = w.
Proof. destruct w as [[] ? ? ? ?]. reflexivity. Qed.

(** The copying loop started at [i] overwrites the entries from [i] up to
    [count] with the caller's and returns the index it stopped at. *)
Lemma copy_lib_path_run (count : Z) (new_lib_path : list (option string)) (fuel : nat) :
  forall (i : Z) (w : World),
    0 <= i -> count - i <= Z.of_nat fuel ->
    (Z.to_nat count <= length new_lib_path)%nat ->
    (Z.to_nat count <= length (paths w))%nat ->
    exists l,
      copy_lib_path fuel i count new_lib_path w
      = Return (Z.max i count) (with_instance (set_lib_path l) w)
      /\ length l = length (paths w)
      /\ forall j : nat,
           l !! j = if bool_decide (Z.to_nat i <= j < Z.to_nat count)%nat
                    then new_lib_path !! j else paths w !! j.
Proof.
  induction fuel as [|fuel IH]; intros i w Hi Hfuel Harr Hlen.
  - cbn [copy_lib_path]. destruct (Z.ltb_spec i count); [lia|].
    exists (paths w). rewrite with_instance_lib_path.
    split; [f_equal; lia|]. split; [reflexivity|].
    intros j. now rewrite bool_decide_eq_false_2 by lia.
  - cbn [copy_lib_path]. destruct (Z.ltb_spec i count) as [Hlt|Hge].
    + destruct (lookup_lt_is_Some_2 new_lib_path (Z.to_nat i)) as [p Hp]; [lia|].
      rewrite Hp, bind_store.
      destruct (IH (i + 1)
                  (with_instance
                     (fun inst => set_lib_path (<[Z.to_nat i := p]> (lib_path inst)) inst) w))
        as (l & Hrun & Hl & Hlookup); try lia.
      { cbn. rewrite length_insert. lia. }
      cbn [instance with_instance lib_path set_lib_path] in Hl, Hlookup.
      rewrite length_insert in Hl.
      exists l. split; [|split; [exact Hl|]].
      * rewrite Hrun. replace (Z.max (i + 1) count) with (Z.max i count) by lia.
        reflexivity.
      * intros j. rewrite Hlookup.
        destruct (decide (j = Z.to_nat i)) as [->|Hne].
        -- rewrite bool_decide_eq_false_2, bool_decide_eq_true_2 by lia.
           rewrite list_lookup_insert_eq by lia. now rewrite Hp.
        -- rewrite list_lookup_insert_ne by congruence.
           destruct (decide (Z.to_nat i <= j < Z.to_nat count)%nat).
           ++ now rewrite !bool_decide_eq_true_2 by lia.
           ++ now rewrite !bool_decide_eq_false_2 by lia.
    + exists (paths w). rewrite with_instance_lib_path.
      split; [f_equal; lia|]. split; [reflexivity|].
      intros j. now rewrite bool_decide_eq_false_2 by lia.
Qed.

(** The clearing loop started at [i] overwrites the entries from [i] to the
    end of the array with NULL. *)
Lemma clear_lib_path_run (fuel : nat) :
  forall (i : Z) (w : World),
    0 <= i -> Z.of_nat MAX_COUNT - i <= Z.of_nat fuel ->
    length (paths w) = MAX_COUNT ->
    exists l,
      clear_lib_path MAX_COUNT fuel i w = Return tt (with_instance (set_lib_path l) w)
      /\ length l = MAX_COUNT
      /\ forall j : nat,
           l !! j = if bool_decide (Z.to_nat i <= j < MAX_COUNT)%nat
                    then Some None else paths w !! j.
Proof.
  induction fuel as [|fuel IH]; intros i w Hi Hfuel Hlen.
  - cbn [clear_lib_path]. destruct (Z.ltb_spec i (Z.of_nat MAX_COUNT)); [lia|].
    exists (paths w). rewrite with_instance_lib_path.
    split; [reflexivity|]. split; [exact Hlen|].
    intros j. now rewrite bool_decide_eq_false_2 by lia.
  - cbn [clear_lib_path]. destruct (Z.ltb_spec i (Z.of_nat MAX_COUNT)) as [Hlt|Hge].
    + rewrite bind_store.
      destruct (IH (i + 1)
                  (with_instance
                     (fun inst => set_lib_path (<[Z.to_nat i := None]> (lib_path inst)) inst) w))
        as (l & Hrun & Hl & Hlookup); try lia.
      { cbn. rewrite length_insert. lia. }
      cbn [instance with_instance lib_path set_lib_path] in Hlookup.
      exists l. split; [|split; [exact Hl|]].
      * rewrite Hrun. reflexivity.
      * intros j. rewrite Hlookup.
        destruct (decide (j = Z.to_nat i)) as [->|Hne].
        -- rewrite bool_decide_eq_false_2, bool_decide_eq_true_2 by lia.
           now rewrite list_lookup_insert_eq by lia.
        -- rewrite list_lookup_insert_ne by congruence.
           destruct (decide (Z.to_nat i <= j < MAX_COUNT)%nat).
           ++ now rewrite !bool_decide_eq_true_2 by lia.
           ++ now rewrite !bool_decide_eq_false_2 by lia.
    + exists (paths w). rewrite with_instance_lib_path.
      split; [reflexivity|]. split; [exact Hlen|].
      intros j. now rewrite bool_decide_eq_false_2 by lia.
Qed.

Lemma set_lib_path_run (count : Z) (new_lib_path : list (option string)) (w : World) :
  count <= Z.of_nat MAX_COUNT ->
  (Z.to_nat count <= length new_lib_path)%nat ->
  length (paths w) = MAX_COUNT ->
  MVM_vm_set_lib_path MAX_COUNT count new_lib_path w
  = Return tt (with_instance (set_lib_path (installed_lib_path MAX_COUNT count new_lib_path)) w).
Proof.
  intros Hcount Harr Hlen. unfold MVM_vm_set_lib_path.
  destruct (Z.gtb_spec count (Z.of_nat MAX_COUNT)) as [|_]; [lia|].
  change (bind (ret tt) ?k w) with (k tt w). cbv beta.
  destruct (copy_lib_path_run count new_lib_path MAX_COUNT 0 w)
    as (l1 & Hrun1 & Hl1 & Hlookup1); try lia.
  unfold bind at 1. rewrite Hrun1.
  destruct (clear_lib_path_run MAX_COUNT (Z.max 0 count)
              (with_instance (set_lib_path l1) w))
    as (l2 & Hrun2 & Hl2 & Hlookup2); try lia.
  { cbn. lia. }
  rewrite Hrun2. cbn [instance with_instance lib_path set_lib_path] in Hlookup2.
  change (with_instance (set_lib_path l2) (with_instance (set_lib_path l1) w))
    with (with_instance (set_lib_path l2) w).
  do 3 f_equal. apply list_eq. intros j.
  rewrite Hlookup2, Hlookup1. unfold installed_lib_path.
  destruct (decide (j < Z.to_nat count)%nat) as [Hj|Hj].
  - rewrite bool_decide_eq_false_2, bool_decide_eq_true_2 by lia.
    rewrite lookup_app_l by (rewrite length_take; lia).
    now rewrite lookup_take_lt by lia.
  - rewrite lookup_app_r by (rewrite length_take; lia).
    rewrite length_take, Nat.min_l by lia.
    destruct (decide (j < MAX_COUNT)%nat).
    + rewrite bool_decide_eq_true_2 by lia.
      now rewrite lookup_replicate_2 by lia.
    + rewrite !bool_decide_eq_false_2 by lia.
      rewrite (lookup_ge_None_2 (paths w)) by lia.
      symmetry. apply lookup_replicate_None. lia.
Qed.

End LibPath.

Lemma length_installed_lib_path (MAX_COUNT : nat) (count : Z)
    (new_lib_path : list (option string)) :
  count <= Z.of_nat MAX_COUNT ->
  (Z.to_nat count <= length new_lib_path)%nat ->
  length (installed_lib_path MAX_COUNT count new_lib_path) = MAX_COUNT.
Proof.
  intros Hcount Harr. unfold installed_lib_path.
  rewrite length_app, length_take, length_replicate. lia.
Qed.

(** X13: a call of [MVM_vm_set_lib_path] with a count within the capacity
    (a count of zero or less included) and an array of at least [count]
    entries returns; afterwards the first [count] library paths are the
    caller's, in order, all the others are NULL, and nothing else in the
    process has changed. *)
Theorem set_lib_path_installs (MAX_COUNT : nat) (count : Z)
    (new_lib_path : list (option string)) (w : World) :
  count <= Z.of_nat MAX_COUNT ->
  (Z.to_nat count <= length new_lib_path)%nat ->
  length (lib_path (instance w)) = MAX_COUNT ->
  exists w',
    MVM_vm_set_lib_path MAX_COUNT count new_lib_path w = Return tt w'
    /\ lib_path (instance w')
       = take (Z.to_nat count) new_lib_path
         ++ replicate (MAX_COUNT - Z.to_nat count) None
    /\ length (lib_path (instance w')) = MAX_COUNT
    /\ w' = with_instance (set_lib_path (lib_path (instance w'))) w.
Proof.
  intros Hcount Harr Hlen. eexists.
  split; [now apply set_lib_path_run|].
  split; [reflexivity|]. split; [|reflexivity].
  now apply length_installed_lib_path.
Qed.


(** ** [cleanup_callsite_interns] *)

Section CallsiteInternsFacts.

Variable MVM_INTERN_ARITY_LIMIT : nat.
Variable MVM_callsite_is_common : MVMCallsite -> bool.

Local Abbreviation common := MVM_callsite_is_common.

Lemma destroy_callsites_run (callsites : list MVMCallsite) (callsite_count : Z)
    (fuel : nat) :
  forall (j : nat) (released : list release),
    callsite_count <= Z.of_nat (length callsites) ->
    callsite_count - Z.of_nat j <= Z.of_nat fuel ->
    destroy_callsites common fuel callsites (Z.of_nat j) callsite_count released
    = Some (released
            ++ (callsite_destroyed
                  <$> filter (fun callsite => common callsite = false)
                        (drop j (take (Z.to_nat callsite_count) callsites)))).
Proof.
  induction fuel as [|fuel IH]; intros j released Hlen Hfuel.
  - cbn [destroy_callsites]. destruct (Z.ltb_spec (Z.of_nat j) callsite_count); [lia|].
    rewrite drop_ge by (rewrite length_take; lia). now rewrite app_nil_r.
  - cbn [destroy_callsites].
    destruct (Z.ltb_spec (Z.of_nat j) callsite_count) as [Hlt|Hge].
    + rewrite Nat2Z.id.
      destruct (lookup_lt_is_Some_2 callsites j) as [callsite Hcallsite]; [lia|].
      rewrite Hcallsite. cbn [mbind option_bind].
      replace (Z.of_nat j + 1) with (Z.of_nat (S j)) by lia.
      rewrite (drop_S _ callsite j)
        by (rewrite lookup_take_lt by lia; exact Hcallsite).
      rewrite filter_cons.
      destruct (common callsite) eqn:Hcommon.
      * rewrite IH by lia. rewrite decide_False by congruence. reflexivity.
      * rewrite IH by lia. rewrite decide_True by reflexivity.
        rewrite fmap_cons, <- app_assoc. reflexivity.
    + rewrite drop_ge by (rewrite length_take; lia). now rewrite app_nil_r.
Qed.

Lemma cleanup_arities_run (interns : MVMCallsiteInterns) (fuel : nat) :
  forall (i : nat) (released : list release),
    well_formed MVM_INTERN_ARITY_LIMIT interns ->
    (MVM_INTERN_ARITY_LIMIT - i <= fuel)%nat ->
    cleanup_arities MVM_INTERN_ARITY_LIMIT common fuel interns (Z.of_nat i) released
    = Some (released
            ++ releases_from common i (drop i (by_arity interns))
                 (drop i (num_by_arity interns))).
Proof.
  induction fuel as [|fuel IH]; intros i released Hwf Hfuel;
    pose proof Hwf as (Harrays & Hcounts & Hbounds).
  - cbn [cleanup_arities].
    destruct (Z.ltb_spec (Z.of_nat i) (Z.of_nat MVM_INTERN_ARITY_LIMIT)); [lia|].
    rewrite drop_ge by lia. now rewrite app_nil_r.
  - cbn [cleanup_arities].
    destruct (Z.ltb_spec (Z.of_nat i) (Z.of_nat MVM_INTERN_ARITY_LIMIT)) as [Hlt|Hge].
    + rewrite Nat2Z.id.
      destruct (lookup_lt_is_Some_2 (num_by_arity interns) i)
        as [callsite_count Hcount]; [lia|].
      destruct (lookup_lt_is_Some_2 (by_arity interns) i)
        as [callsites Hcallsites]; [lia|].
      rewrite Hcount. cbn [mbind option_bind].
      rewrite (drop_S _ _ _ Hcount), (drop_S _ _ _ Hcallsites).
      cbn [releases_from].
      replace (Z.of_nat i + 1) with (Z.of_nat (S i)) by lia.
      destruct (callsite_count =? 0) eqn:Hzero; cbn [negb].
      * rewrite IH by (assumption || lia). reflexivity.
      * rewrite Hcallsites. cbn [mbind option_bind].
        assert (callsite_count <= Z.of_nat (length callsites)) as Hbound.
        { rewrite Forall2_lookup in Hbounds. specialize (Hbounds i).
          rewrite Hcount, Hcallsites in Hbounds. now inversion Hbounds. }
        rewrite (destroy_callsites_run callsites callsite_count _ 0%nat released)
          by (assumption || lia).
        cbn [mbind option_bind drop]. rewrite IH by (assumption || lia).
        unfold destroyed_of. now rewrite <- !app_assoc.
    + rewrite !drop_ge by lia. now rewrite app_nil_r.
Qed.

Lemma cleanup_callsite_interns_run (interns : MVMCallsiteInterns) :
  well_formed MVM_INTERN_ARITY_LIMIT interns ->
  cleanup_callsite_interns MVM_INTERN_ARITY_LIMIT common interns
  = Some (releases_from common 0 (by_arity interns) (num_by_arity interns)
          ++ [interns_freed]).
Proof.
  intros Hwf. unfold cleanup_callsite_interns.
  rewrite (cleanup_arities_run interns _ 0%nat []) by (assumption || lia).
  reflexivity.
Qed.

Lemma destroyed_callsites_app (l1 l2 : list release) :
  destroyed_callsites (l1 ++ l2) = destroyed_callsites l1 ++ destroyed_callsites l2.
Proof. apply omap_app. Qed.

Lemma destroyed_callsites_fmap (l : list MVMCallsite) :
  destroyed_callsites (callsite_destroyed <$> l) = l.
Proof. induction l as [|c l IH]; [reflexivity|]. cbn. now f_equal. Qed.

Lemma destroyed_callsites_elem (c : MVMCallsite) (released : list release) :
  c ∈ destroyed_callsites released <-> callsite_destroyed c ∈ released.
Proof.
  unfold destroyed_callsites. rewrite list_elem_of_omap. split.
  - intros (r & Hr & Hc). destruct r; try discriminate. now injection Hc as ->.
  - intros Hin. now exists (callsite_destroyed c).
Qed.

Lemma destroyed_releases_from (i : nat) (arrays : list (list MVMCallsite))
    (counts : list Z) :
  destroyed_callsites (releases_from common i arrays counts)
  = filter (fun callsite => common callsite = false)
      (concat (zip_with (fun callsites callsite_count =>
                           take (Z.to_nat callsite_count) callsites) arrays counts)).
Proof.
  revert i counts. induction arrays as [|callsites arrays IH]; intros i [|n counts];
    try reflexivity.
  cbn [releases_from zip_with concat].
  rewrite destroyed_callsites_app, filter_app, IH. f_equal.
  destruct (Z.eqb_spec n 0) as [->|_]; [reflexivity|].
  rewrite destroyed_callsites_app, destroyed_callsites_fmap. cbn. now rewrite app_nil_r.
Qed.

Lemma freed_releases_from (k i : nat) (arrays : list (list MVMCallsite))
    (counts : list Z) :
  length arrays = length counts ->
  callsites_freed k ∈ releases_from common i arrays counts
  <-> (i <= k)%nat /\ exists n, counts !! (k - i)%nat = Some n /\ n <> 0.
Proof.
  revert i counts. induction arrays as [|callsites arrays IH]; intros i [|n counts] Hlen;
    try discriminate Hlen.
  - cbn [releases_from]. rewrite elem_of_nil. split; [tauto|].
    intros (_ & n & Hn & _). discriminate Hn.
  - cbn [releases_from]. rewrite elem_of_app, IH by (cbn in Hlen; lia).
    assert (callsites_freed k
              ∈ (if n =? 0 then []
                 else (callsite_destroyed <$> destroyed_of common callsites n)
                      ++ [callsites_freed i])
            <-> k = i /\ n <> 0) as ->.
    { destruct (Z.eqb_spec n 0) as [->|Hn].
      - rewrite elem_of_nil. tauto.
      - rewrite elem_of_app, list_elem_of_fmap, list_elem_of_singleton. split.
        + intros [(c & Hc & _) | [= ->]]; [discriminate Hc | tauto].
        + intros [-> _]. now right. }
    split.
    + intros [[-> Hn] | (Hle & n' & Hn' & Hnz)].
      * split; [lia|]. exists n. now rewrite Nat.sub_diag.
      * split; [lia|]. exists n'. split; [|exact Hnz].
        replace (k - i)%nat with (S (k - S i)) by lia. exact Hn'.
    + intros (Hle & n' & Hn' & Hnz).
      destruct (decide (k = i)) as [->|Hne].
      * left. rewrite Nat.sub_diag in Hn'. injection Hn' as ->. tauto.
      * right. split; [lia|]. exists n'. split; [|exact Hnz].
        replace (k - i)%nat with (S (k - S i)) in Hn' by lia. exact Hn'.
Qed.

(** X15: [cleanup_callsite_interns] on well-formed tables runs to its end.
    It destroys exactly the interned callsites that are not common ones, each
    once per entry and in the order of the tables, and never a common one; it
    frees the array of exactly the arities whose count is not zero; and the
    last thing it frees is the table structure itself. *)
Theorem cleanup_callsite_interns_effect (interns : MVMCallsiteInterns) :
  well_formed MVM_INTERN_ARITY_LIMIT interns ->
  exists released,
    cleanup_callsite_interns MVM_INTERN_ARITY_LIMIT common interns = Some released
    /\ destroyed_callsites released
       = filter (fun callsite => common callsite = false) (interned interns)
    /\ (forall callsite,
          callsite_destroyed callsite ∈ released
          <-> callsite ∈ interned interns /\ common callsite = false)
    /\ (forall arity,
          callsites_freed arity ∈ released
          <-> exists n, num_by_arity interns !! arity = Some n /\ n <> 0)
    /\ last released = Some interns_freed.
Proof.
  intros Hwf. eexists. split; [now apply cleanup_callsite_interns_run|].
  assert (destroyed_callsites
            (releases_from common 0 (by_arity interns) (num_by_arity interns)
             ++ [interns_freed])
          = filter (fun callsite => common callsite = false) (interned interns))
    as Hdestroyed.
  { rewrite destroyed_callsites_app, destroyed_releases_from. cbn. now rewrite app_nil_r. }
  split; [exact Hdestroyed|]. split; [|split].
  - intros callsite. rewrite <- destroyed_callsites_elem, Hdestroyed.
    now rewrite list_elem_of_filter, (and_comm (common callsite = false)).
  - intros arity. destruct Hwf as (Harrays & Hcounts & _).
    rewrite elem_of_app, freed_releases_from, Nat.sub_0_r by congruence.
    rewrite list_elem_of_singleton. split.
    + intros [[_ H] | [=]]. exact H.
    + intros H. left. split; [lia | exact H].
  - apply last_snoc.
Qed.

End CallsiteInternsFacts.

(** ** The output loop of [MVM_vm_dump_file] *)

Lemma substring_nil (n m : nat) : substring n m EmptyString = EmptyString.
Proof. now destruct n, m. Qed.

Lemma substring_extend (s : string) :
  forall p r : nat,
    (p + r <= String.length s)%nat ->
    substring 0 p s +:+ substring p r s = substring 0 (p + r) s.
Proof.
  induction s as [|c s IH]; intros p r Hlen.
  - cbn [String.length] in Hlen. assert (p = 0%nat) as -> by lia.
    assert (r = 0%nat) as -> by lia. reflexivity.
  - destruct p as [|p].
    + cbn [substring Nat.add]. destruct r; reflexivity.
    + cbn [substring Nat.add]. rewrite append_cons.
      cbn [String.length] in Hlen. rewrite <- IH by lia. reflexivity.
Qed.

Lemma substring_all (s : string) : substring 0 (String.length s) s = s.
Proof. induction s as [|c s IH]; [reflexivity|]. cbn. now rewrite IH. Qed.

Section DumpFileFacts.

Variable write : nat -> Z -> Z.

Lemma size_t_small (z : Z) : 0 <= z < 2 ^ 64 -> size_t z = z.
Proof. apply Z.mod_small. Qed.

Lemma int_small (z : Z) : - 2 ^ 31 <= z < 2 ^ 31 -> int z = z.
Proof. intros H. unfold int. rewrite Z.mod_small; lia. Qed.

Lemma write_dump_complete (dump : string) (fuel : nat) :
  strlen dump < 2 ^ 31 ->
  (forall calls count, 0 < count -> 0 < write calls count <= count) ->
  forall (position calls : nat),
    (position <= String.length dump)%nat ->
    (String.length dump - position <= fuel)%nat ->
    write_dump write fuel dump (strlen dump) (Z.of_nat position) calls
      (substring 0 position dump)
    = Written dump.
Proof.
  unfold strlen. intros Hlen Hwrite.
  induction fuel as [|fuel IH]; intros position calls Hpos Hfuel.
  - cbn [write_dump]. rewrite size_t_small by lia.
    destruct (Z.ltb_spec (Z.of_nat position) (Z.of_nat (String.length dump))); [lia|].
    assert (position = String.length dump) as -> by lia. now rewrite substring_all.
  - cbn [write_dump]. rewrite !(size_t_small (Z.of_nat position)) by lia.
    destruct (Z.ltb_spec (Z.of_nat position) (Z.of_nat (String.length dump)))
      as [Hlt|Hge].
    2: { assert (position = String.length dump) as -> by lia.
         now rewrite substring_all. }
    destruct (Z.ltb_spec (Z.of_nat position) 0); [lia|].
    unfold strlen.
    destruct (Z.ltb_spec (Z.of_nat (String.length dump)) (Z.of_nat position)); [lia|].
    cbn [orb]. cbv zeta.
    rewrite (size_t_small (Z.of_nat (String.length dump) - Z.of_nat position)) by lia.
    pose proof (Hwrite calls (Z.of_nat (String.length dump) - Z.of_nat position)
                  ltac:(lia)) as Hresult.
    set (result := write calls _) in *.
    rewrite (size_t_small result) by lia.
    destruct (Z.ltb_spec 0 result); [|lia].
    rewrite (size_t_small (Z.of_nat position + result)) by lia.
    rewrite int_small by lia.
    rewrite Nat2Z.id, substring_extend by lia.
    replace (Z.of_nat position + result) with (Z.of_nat (position + Z.to_nat result))
      by lia.
    apply IH; lia.
Qed.

(** X16: the output loop of [MVM_vm_dump_file] on a dump shorter than 2^31
    bytes, when every [write] takes at least one byte: however the system
    cuts the output into pieces, the loop ends within [strlen(dump)]
    iterations and exactly the dump has gone to the standard output. *)
Theorem dump_to_stdout_complete (dump : string) (fuel : nat) :
  strlen dump < 2 ^ 31 ->
  (forall calls count, 0 < count -> 0 < write calls count <= count) ->
  (String.length dump <= fuel)%nat ->
  dump_to_stdout write fuel dump = Written dump.
Proof.
  intros Hlen Hwrite Hfuel. unfold dump_to_stdout.
  rewrite size_t_small by (unfold strlen in *; lia).
  pose proof (write_dump_complete dump fuel Hlen Hwrite 0 0 ltac:(lia) ltac:(lia)) as H.
  destruct dump; exact H.
Qed.

(** X17: a [write] that fails on its first call ends the loop at once with
    nothing written: the result -1 is stored in the unsigned [written], which
    counts as more than 0 and is added to [position]; [position] becomes -1,
    and converted for the comparison with [dumplen] that is the largest
    [size_t] value. *)
Theorem dump_to_stdout_first_write_fails (dump : string) (fuel : nat) :
  0 < strlen dump < 2 ^ 63 ->
  write 0%nat (strlen dump) = -1 ->
  dump_to_stdout write (S fuel) dump = Written EmptyString.
Proof.
  intros Hlen Hfail. unfold dump_to_stdout.
  rewrite size_t_small by lia. cbn [write_dump].
  change (size_t 0) with 0. rewrite Z.sub_0_r, (size_t_small (strlen dump)) by lia.
  destruct (Z.ltb_spec 0 (strlen dump)); [|lia].
  destruct (Z.ltb_spec (strlen dump) 0); [lia|].
  change (0 <? 0) with false. cbn [orb]. cbv zeta. rewrite Hfail.
  change (0 <? -1) with false. change (0 <? size_t (-1)) with true. cbv iota.
  change (int (size_t (0 + size_t (-1)))) with (-1).
  destruct fuel; cbn [write_dump]; change (size_t (-1)) with (2 ^ 64 - 1);
    (destruct (Z.ltb_spec (2 ^ 64 - 1) (strlen dump)); [lia | reflexivity]).
Qed.

End DumpFileFacts.

Lemma length_substring (s : string) :
  forall n m : nat,
    (n + m <= String.length s)%nat -> String.length (substring n m s) = m.
Proof.
  induction s as [|c s IH]; intros n m Hlen; cbn [String.length] in Hlen.
  - assert (n = 0%nat) as -> by lia. assert (m = 0%nat) as -> by lia. reflexivity.
  - destruct n as [|n].
    + destruct m as [|m]; [reflexivity|]. cbn [substring String.length].
      rewrite IH by lia. reflexivity.
    + cbn [substring]. apply IH. lia.
Qed.

Section DumpFileRetry.

Variable write : nat -> Z -> Z.

(** X18: a [write] that fails after part of the dump has been written does
    not make the loop try again from where it was: [position] goes back by
    one, so the next [write] sends the last byte once more and the output is
    one byte longer than the dump. *)
Theorem dump_to_stdout_failed_write_resends (dump : string) (first : Z) (fuel : nat) :
  strlen dump < 2 ^ 31 ->
  0 < first < strlen dump ->
  write 0%nat (strlen dump) = first ->
  write 1%nat (strlen dump - first) = -1 ->
  write 2%nat (strlen dump - first + 1) = strlen dump - first + 1 ->
  let stdout :=
    substring 0 (Z.to_nat first) dump
    +:+ substring (Z.to_nat (first - 1)) (Z.to_nat (strlen dump - first + 1)) dump in
  dump_to_stdout write (3 + fuel) dump = Written stdout
  /\ String.length stdout = S (String.length dump).
Proof.
  intros Hlen Hfirst Hwrite0 Hwrite1 Hwrite2 stdout. split.
  - unfold dump_to_stdout. rewrite size_t_small by lia.
    change (3 + fuel)%nat with (S (S (S fuel))).
    (* the first call *)
    cbn [write_dump]. change (size_t 0) with 0.
    rewrite Z.sub_0_r, (size_t_small (strlen dump)) by lia.
    destruct (Z.ltb_spec 0 (strlen dump)); [|lia].
    destruct (Z.ltb_spec (strlen dump) 0); [lia|].
    change (0 <? 0) with false. cbn [orb]. cbv zeta. rewrite Hwrite0.
    destruct (Z.ltb_spec 0 first); [|lia].
    rewrite (size_t_small first) by lia.
    destruct (Z.ltb_spec 0 first); [|lia].
    change (0 + first) with first. rewrite (size_t_small first), int_small by lia.
    rewrite append_nil.
    (* the second call fails *)
    rewrite (size_t_small first) by lia.
    destruct (Z.ltb_spec first (strlen dump)); [|lia].
    destruct (Z.ltb_spec first 0); [lia|].
    destruct (Z.ltb_spec (strlen dump) first); [lia|].
    cbn [orb]. rewrite (size_t_small (strlen dump - first)) by lia.
    rewrite Hwrite1. change (0 <? -1) with false. change (0 <? size_t (-1)) with true.
    cbv iota.
    assert (int (size_t (first + size_t (-1))) = first - 1) as ->.
    { change (size_t (-1)) with (2 ^ 64 - 1). unfold size_t.
      replace (first + (2 ^ 64 - 1)) with (first - 1 + 1 * 2 ^ 64) by lia.
      rewrite Z.mod_add, Z.mod_small by lia. apply int_small. lia. }
    (* the third call sends the rest, from one byte back *)
    rewrite (size_t_small (first - 1)) by lia.
    destruct (Z.ltb_spec (first - 1) (strlen dump)); [|lia].
    destruct (Z.ltb_spec (first - 1) 0); [lia|].
    destruct (Z.ltb_spec (strlen dump) (first - 1)); [lia|].
    cbn [orb]. rewrite (size_t_small (strlen dump - (first - 1))) by lia.
    replace (strlen dump - (first - 1)) with (strlen dump - first + 1) by lia.
    rewrite Hwrite2.
    destruct (Z.ltb_spec 0 (strlen dump - first + 1)); [|lia].
    rewrite (size_t_small (strlen dump - first + 1)) by lia.
    destruct (Z.ltb_spec 0 (strlen dump - first + 1)); [|lia].
    replace (first - 1 + (strlen dump - first + 1)) with (strlen dump) by lia.
    rewrite (size_t_small (strlen dump)), int_small by lia.
    assert (forall out, write_dump write fuel dump (strlen dump) (strlen dump) 3 out
                        = Written out) as ->; [|reflexivity].
    intros out. destruct fuel; cbn [write_dump];
      rewrite (size_t_small (strlen dump)) by lia;
      now rewrite Z.ltb_irrefl.
  - subst stdout. unfold strlen in *.
    rewrite length_append, !length_substring by lia. lia.
Qed.

End DumpFileRetry.

(** ** Failing inputs *)

(** C1: when the DLL registry mutex cannot be initialised, the process does
    end with status 1 after one diagnostic, but the diagnostic names the REPR
    registry: it is the very text printed when the REPR registry mutex
    fails. *)
Theorem dll_registry_mutex_diagnostic :
  exists w_dll w_repr,
    MVM_vm_create_instance (failing_host mutex_dll_registry) 8 (process_start 8)
    = Exit 1 w_dll
    /\ MVM_vm_create_instance (failing_host mutex_repr_registry) 8 (process_start 8)
       = Exit 1 w_repr
    /\ trace w_dll
       = [ev_exit 1;
          ev_stderr (mutex_failure_message "REPR registry" "not enough memory")]
    /\ trace w_repr = trace w_dll.
Proof.
  set (r1 := MVM_vm_create_instance (failing_host mutex_dll_registry) 8 _).
  set (r2 := MVM_vm_create_instance (failing_host mutex_repr_registry) 8 _).
  vm_compute in r1, r2. subst r1 r2. do 2 eexists.
  split; [reflexivity|]. split; [reflexivity|]. split; reflexivity.
Qed.

(** C2: a JIT bytecode map opened at bootstrap is still open after
    [MVM_vm_destroy_instance], whereas [MVM_vm_exit] closes it. *)
Theorem destroy_instance_leaves_bytecode_map_open :
  exists w_destroyed w_exited,
    (MVM_vm_create_instance (example_host {["MVM_JIT_BYTECODE_DIR" := "dump"]}) 8
     >> MVM_vm_destroy_instance) (process_start 8)
    = Return tt w_destroyed
    /\ jit_bytecode_map (instance w_destroyed) = Some (stream 0)
    /\ open_files w_destroyed = [(0%nat, "dump/jit-map.txt")]
    /\ (MVM_vm_create_instance (example_host {["MVM_JIT_BYTECODE_DIR" := "dump"]}) 8
        >> MVM_vm_exit) (process_start 8)
       = Exit 0 w_exited
    /\ open_files w_exited = [].
Proof.
  set (r1 := (_ >> MVM_vm_destroy_instance) _).
  set (r2 := (_ >> MVM_vm_exit) _).
  vm_compute in r1, r2. subst r1 r2. do 2 eexists.
  split; [reflexivity|]. split; [reflexivity|]. split; [reflexivity|].
  split; reflexivity.
Qed.

(** The same for a coverage log file: neither teardown path closes it. *)
Lemma destroy_instance_leaves_coverage_log_open :
  exists w_destroyed,
    (MVM_vm_create_instance (example_host {["MVM_COVERAGE_LOG" := "coverage.log"]}) 8
     >> MVM_vm_destroy_instance) (process_start 8)
    = Return tt w_destroyed
    /\ coverage_log_fh (instance w_destroyed) = Some (stream 0)
    /\ open_files w_destroyed = [(0%nat, "coverage.log")].
Proof.
  set (r := (_ >> MVM_vm_destroy_instance) _). vm_compute in r. subst r.
  eexists. split; [reflexivity|]. split; reflexivity.
Qed.

(** ** The theorems at concrete inputs *)

Lemma create_instance_thread_ids_witness :
  bootable (example_host ∅) = true
  /\ exists inst w',
      MVM_vm_create_instance (example_host ∅) 8 (process_start 8) = Return inst w'
      /\ inst = instance w'
      /\ thread_id (main_thread inst) = 1
      /\ next_user_thread_id inst = 2
      /\ forall n, returns (spawn_threads n)
                     (fun ids _ => Forall (fun id => 2 <= id) ids) w'.
Proof.
  split; [reflexivity|].
  apply (create_instance_thread_ids (example_host ∅) 8). reflexivity.
Defined.

Lemma create_instance_instrumentation_level_witness :
  bootable (example_host {["MVM_CROSS_THREAD_WRITE_LOG" := "1";
                           "MVM_COVERAGE_LOG" := "coverage.log"]}) = true
  /\ exists inst w',
      MVM_vm_create_instance
        (example_host {["MVM_CROSS_THREAD_WRITE_LOG" := "1";
                        "MVM_COVERAGE_LOG" := "coverage.log"]}) 8 (process_start 8)
      = Return inst w'
      /\ instrumentation_level inst = 3.
Proof.
  assert (bootable (example_host {["MVM_CROSS_THREAD_WRITE_LOG" := "1";
                                   "MVM_COVERAGE_LOG" := "coverage.log"]}) = true)
    as Hboot by reflexivity.
  split; [exact Hboot|].
  destruct (create_instance_instrumentation_level _ 8 Hboot (process_start 8))
    as (inst & w' & Hrun & Hctwl & Hcov & _ & Hboth & _).
  exists inst, w'. split; [exact Hrun|]. apply Hboth; assumption.
Defined.

Lemma create_instance_coverage_to_stderr_witness :
  exists inst w',
    MVM_vm_create_instance (example_host {["MVM_COVERAGE_LOG" := ""]}) 8
      (process_start 8) = Return inst w'
    /\ coverage_logging inst = 1
    /\ coverage_log_fh inst = Some stderr
    /\ instrumentation_level inst = 2.
Proof.
  assert (bootable (example_host {["MVM_COVERAGE_LOG" := ""]}) = true)
    as Hboot by reflexivity.
  assert (environ (example_host {["MVM_COVERAGE_LOG" := ""]}) !! "MVM_COVERAGE_LOG"
          = Some EmptyString) as Henv by reflexivity.
  exact (create_instance_coverage_to_stderr _ 8 Hboot (process_start 8) Henv).
Defined.

Lemma create_instance_spesh_switches_witness :
  exists inst w' l,
    MVM_vm_create_instance (example_host {["MVM_SPESH_INLINE_DISABLE" := "1"]}) 8
      (process_start 8) = Return inst w'
    /\ trace w' = l ++ trace (process_start 8)
    /\ spesh_enabled inst = 1 /\ spesh_inline_enabled inst = 0
    /\ spesh_osr_enabled inst = 1.
Proof.
  assert (bootable (example_host {["MVM_SPESH_INLINE_DISABLE" := "1"]}) = true)
    as Hboot by reflexivity.
  destruct (create_instance_spesh_switches _ 8 Hboot (process_start 8))
    as (inst & w' & l & Hrun & Hl & Hswitches & _).
  exists inst, w', l. split; [exact Hrun|]. split; [exact Hl|].
  apply Hswitches; reflexivity.
Defined.

(** C5 as stated fails: with inlining and OSR both disabled by their toggles
    the premises hold and OSR ends up off. *)
Lemma spesh_switches_counterexample :
  unset_or_empty
    (environ (example_host {["MVM_SPESH_INLINE_DISABLE" := "1";
                             "MVM_SPESH_OSR_DISABLE" := "1"]})
       !! "MVM_SPESH_DISABLE") = true
  /\ set_and_nonempty
       (environ (example_host {["MVM_SPESH_INLINE_DISABLE" := "1";
                                "MVM_SPESH_OSR_DISABLE" := "1"]})
          !! "MVM_SPESH_INLINE_DISABLE") = true
  /\ exists inst w',
      MVM_vm_create_instance
        (example_host {["MVM_SPESH_INLINE_DISABLE" := "1";
                        "MVM_SPESH_OSR_DISABLE" := "1"]}) 8 (process_start 8)
      = Return inst w'
      /\ spesh_enabled inst = 1
      /\ spesh_inline_enabled inst = 0
      /\ spesh_osr_enabled inst = 0.
Proof.
  split; [reflexivity|]. split; [reflexivity|].
  set (r := MVM_vm_create_instance _ _ _). vm_compute in r. subst r.
  do 2 eexists. split; [reflexivity|]. repeat split.
Qed.

Lemma fopen_perhaps_with_pid_many_directives_witness :
  fopen_perhaps_with_pid (example_host ∅) "%d-%d.log" "w" (process_start 8)
  = fopen (example_host ∅) "%d-%d.log" "w" (process_start 8)
  /\ exists fh w',
      fopen_perhaps_with_pid (example_host ∅) "%d-%d.log" "w" (process_start 8)
      = Return fh w'
      /\ trace w' = ev_fopen "%d-%d.log" "w" :: trace (process_start 8).
Proof.
  apply (fopen_perhaps_with_pid_many_directives (example_host ∅) "%d-%d.log" "w");
    [reflexivity | cbn; lia].
Defined.

Lemma fopen_perhaps_with_pid_substitution_gate_witness :
  fopen_perhaps_with_pid (example_host ∅) "log-%s.txt" "w" (process_start 8)
  = fopen (example_host ∅) "log-%s.txt" "w" (process_start 8)
  /\ exists fh w',
      fopen_perhaps_with_pid (example_host ∅) "log-%s.txt" "w" (process_start 8)
      = Return fh w'
      /\ trace w' = ev_fopen "log-%s.txt" "w" :: trace (process_start 8).
Proof.
  destruct (fopen_perhaps_with_pid_substitution_gate (example_host ∅) "log-%s.txt" "w"
              (process_start 8)) as [Hliteral _]; [reflexivity|].
  apply Hliteral. left. reflexivity.
Defined.

(** C10 as stated fails: the only directive of ["%%d-%x.log"] is [%x], yet
    the path holds the two characters [%d] (the tail of its [%%] pair and the
    letter after it), the loop counts one directive, and [snprintf] is called
    with the process id: the file opened is ["%d-1092.log"] (4242 in
    hexadecimal), not the literal path. *)
Lemma other_directive_counterexample :
  directives "%%d-" = 0%nat
  /\ directives ".log" = 0%nat
  /\ directives ("%%d-" +:+ "%x" +:+ ".log") = 1%nat
  /\ strstr "%%d-%x.log" "%d" = Some "%d-%x.log"
  /\ sanitized (example_host ∅) "%%d-%x.log" = Some "%d-1092.log"
  /\ "%d-1092.log" <> "%%d-%x.log"
  /\ exists fh w',
      fopen_perhaps_with_pid (example_host ∅) "%%d-%x.log" "w" (process_start 8)
      = Return fh w'
      /\ trace w' = [ev_fopen "%d-1092.log" "w"; ev_snprintf "%%d-%x.log" 4242].
Proof.
  repeat (split; [reflexivity|]).
  split; [discriminate|].
  set (r := fopen_perhaps_with_pid _ _ _ _). vm_compute in r. subst r.
  do 2 eexists. split; reflexivity.
Qed.

Lemma fopen_perhaps_with_pid_single_pd_witness :
  fopen_perhaps_with_pid (example_host ∅) "spesh-%d.log" "w" (process_start 8)
  = fopen (example_host ∅) "spesh-4242.log" "w"
      (with_event (ev_snprintf "spesh-%d.log" 4242) (process_start 8))
  /\ strstr "spesh-4242.log" "%d" = None.
Proof.
  destruct (fopen_perhaps_with_pid_single_pd (example_host ∅) "spesh-" ".log" "w"
              (process_start 8))
    as [Hopen Hclean]; [reflexivity | cbn; lia | reflexivity | reflexivity |].
  split; [exact Hopen | apply Hclean; reflexivity].
Defined.

(** C3 as stated fails: ["%%d%d"] holds exactly one [%d] directive (its first
    [%] is half of a [%%] pair), the process id is substituted for it, and the
    path that is opened, ["%d4242"], holds a literal [%d] and is not the path
    with the directive replaced, ["%%d4242"]. *)
Lemma single_pd_counterexample :
  directives "%%d" = 0%nat
  /\ directives ("%%d" +:+ "%d" +:+ "") = 1%nat
  /\ sanitized (example_host ∅) "%%d%d" = Some "%d4242"
  /\ strstr "%d4242" "%d" = Some "%d4242"
  /\ "%d4242" <> "%%d" +:+ decimal 4242
  /\ exists fh w',
      fopen_perhaps_with_pid (example_host ∅) "%%d%d" "w" (process_start 8)
      = Return fh w'
      /\ trace w' = [ev_fopen "%d4242" "w"; ev_snprintf "%%d%d" 4242].
Proof.
  repeat (split; [reflexivity|]).
  split; [discriminate|].
  set (r := fopen_perhaps_with_pid _ _ _ _). vm_compute in r. subst r.
  do 2 eexists. split; reflexivity.
Qed.

Lemma set_lib_path_overflow_witness :
  exists w',
    MVM_vm_set_lib_path 8 9 (replicate 9 (Some "lib")) (process_start 8) = Exit 1 w'
    /\ instance w' = instance (process_start 8)
    /\ lib_path (instance w') = lib_path (instance (process_start 8))
    /\ trace w'
       = ev_exit 1 :: ev_stderr "Cannot set more than 8 library paths"
         :: trace (process_start 8).
Proof.
  apply (set_lib_path_overflow 8 9 (replicate 9 (Some "lib")) (process_start 8)).
  lia.
Defined.

(** ** The further theorems at concrete inputs *)

Lemma count_percents_counts_directives_witness :
  count_percents 9 "%d%%x%s%" (MVMuint64 (strlen "%d%%x%s%")) 0 0
  = Some (Z.of_nat (directives "%d%%x%s%")).
Proof.
  apply (count_percents_counts_directives "%d%%x%s%" 9); [reflexivity | cbn; lia].
Defined.

Lemma fopen_perhaps_with_pid_escaped_only_witness :
  fopen_perhaps_with_pid (example_host ∅) "100%%done.log" "w" (process_start 8)
  = fopen (example_host ∅) "100%done.log" "w"
      (with_event (ev_snprintf "100%%done.log" 4242) (process_start 8))
  /\ (String.length "100%done.log" < String.length "100%%done.log")%nat.
Proof.
  apply (fopen_perhaps_with_pid_escaped_only (example_host ∅) "100%%done.log" "w"
           (process_start 8));
    [reflexivity | reflexivity | now eexists].
Defined.

Lemma create_instance_mutex_failure_witness :
  mutex_failure_exit (failing_host mutex_hll_syms) (process_start 8)
    (MVM_vm_create_instance (failing_host mutex_hll_syms) 8 (process_start 8)).
Proof.
  apply (create_instance_mutex_failure (failing_host mutex_hll_syms) 8 (process_start 8)).
  reflexivity.
Defined.

Lemma create_instance_write_log_mutex_failure_witness :
  exists w' t,
    MVM_vm_create_instance
      (failing_host_with {["MVM_CROSS_THREAD_WRITE_LOG" := "1"]}
         mutex_cross_thread_write_logging) 8 (process_start 8)
    = Exit 1 w'
    /\ trace w'
       = ev_exit 1
         :: ev_stderr (mutex_failure_message "cross thread write logging output"
                         "not enough memory")
         :: t
    /\ cross_thread_write_logging (instance w') = 1.
Proof.
  apply (create_instance_write_log_mutex_failure
           (failing_host_with {["MVM_CROSS_THREAD_WRITE_LOG" := "1"]}
              mutex_cross_thread_write_logging) 8 (process_start 8));
    reflexivity.
Defined.

Lemma create_instance_dynvar_log_unopenable_witness :
  MVM_vm_create_instance (closed_host {["MVM_DYNVAR_LOG" := "dynvar.log"]}) 8
    (process_start 8)
  = Undefined.
Proof.
  apply (create_instance_dynvar_log_unopenable
           (closed_host {["MVM_DYNVAR_LOG" := "dynvar.log"]}) 8 (process_start 8)
           "dynvar.log" "dynvar.log");
    first [reflexivity | discriminate].
Defined.

Lemma create_instance_configuration_witness :
  exists inst w',
    MVM_vm_create_instance
      (example_host {["MVM_JIT_DISABLE" := "1"; "MVM_NFA_DEB" := "";
                      "MVM_SPESH_NODELAY" := ""]}) 8 (process_start 8)
    = Return inst w'
    /\ jit_enabled inst = 0
    /\ spesh_nodelay inst = 0
    /\ nfa_debug_enabled inst = 1.
Proof.
  assert (bootable (example_host {["MVM_JIT_DISABLE" := "1"; "MVM_NFA_DEB" := "";
                                   "MVM_SPESH_NODELAY" := ""]}) = true)
    as Hboot by reflexivity.
  destruct (create_instance_configuration _ 8 (process_start 8) Hboot)
    as (inst & w' & Hrun & Hjit & Hnodelay & _ & Hnfa & _).
  exists inst, w'. split; [exact Hrun|].
  rewrite Hjit, Hnodelay, Hnfa. repeat split.
Defined.

Lemma create_instance_log_handles_witness :
  exists inst w',
    MVM_vm_create_instance
      (example_host {["MVM_SPESH_LOG" := "spesh-%d.log"; "MVM_COVERAGE_LOG" := ""]}) 8
      (process_start 8)
    = Return inst w'
    /\ is_set (spesh_log_fh inst) = true
    /\ is_set (jit_log_fh inst) = false
    /\ coverage_log_fh inst = Some stderr.
Proof.
  assert (bootable (example_host {["MVM_SPESH_LOG" := "spesh-%d.log";
                                   "MVM_COVERAGE_LOG" := ""]}) = true)
    as Hboot by reflexivity.
  destruct (create_instance_log_handles _ 8 (process_start 8) Hboot)
    as (inst & w' & Hrun & Hspesh & Hjit & _ & _ & Hcov & _).
  exists inst, w'. split; [exact Hrun|].
  rewrite Hspesh, Hjit. split; [reflexivity|]. split; [reflexivity|].
  apply Hcov. reflexivity.
Defined.

Lemma process_start_streams (MAX_COUNT : nat) (id : nat) :
  is_open (stream id) (process_start MAX_COUNT) ->
  (id < next_stream (process_start MAX_COUNT))%nat.
Proof. intros H. now apply elem_of_nil in H. Qed.

Lemma bootstrap_then_exit_streams_witness :
  exists inst w' w'',
    MVM_vm_create_instance
      (example_host {["MVM_JIT_BYTECODE_DIR" := "dump"; "MVM_COVERAGE_LOG" := "cov.log"]})
      8 (process_start 8)
    = Return inst w'
    /\ MVM_vm_exit w' = Exit 0 w''
    /\ forall id, is_open (stream id) w''
                  <-> is_open (stream id) (process_start 8)
                      \/ coverage_log_fh inst = Some (stream id).
Proof.
  apply (bootstrap_then_exit_streams
           (example_host {["MVM_JIT_BYTECODE_DIR" := "dump";
                           "MVM_COVERAGE_LOG" := "cov.log"]}) 8 (process_start 8));
    [reflexivity | apply process_start_streams].
Defined.

Lemma bootstrap_then_destroy_streams_witness :
  exists inst w' w'',
    MVM_vm_create_instance
      (example_host {["MVM_JIT_BYTECODE_DIR" := "dump"; "MVM_SPESH_LOG" := "spesh.log"]})
      8 (process_start 8)
    = Return inst w'
    /\ MVM_vm_destroy_instance w' = Return tt w''
    /\ forall id, is_open (stream id) w''
                  <-> is_open (stream id) (process_start 8)
                      \/ jit_bytecode_map inst = Some (stream id)
                      \/ coverage_log_fh inst = Some (stream id).
Proof.
  apply (bootstrap_then_destroy_streams
           (example_host {["MVM_JIT_BYTECODE_DIR" := "dump";
                           "MVM_SPESH_LOG" := "spesh.log"]}) 8 (process_start 8));
    [reflexivity | apply process_start_streams].
Defined.

Lemma bootstrap_then_destroy_mutexes_witness :
  exists inst w' w'',
    MVM_vm_create_instance (example_host {["MVM_CROSS_THREAD_WRITE_LOG" := "1"]}) 8
      (process_start 8)
    = Return inst w'
    /\ MVM_vm_destroy_instance w' = Return tt w''
    /\ mutex_object_ids ∈ live_mutexes w''
    /\ forall m, m ∈ live_mutexes w''
                 <-> m = mutex_object_ids
                     \/ (m ∈ live_mutexes (process_start 8) /\ m ∉ destroyed_mutexes).
Proof.
  apply (bootstrap_then_destroy_mutexes
           (example_host {["MVM_CROSS_THREAD_WRITE_LOG" := "1"]}) 8 (process_start 8)).
  reflexivity.
Defined.

Lemma set_lib_path_installs_witness :
  exists w',
    MVM_vm_set_lib_path 8 2 [Some "lib"; Some "blib"; Some "unused"] (process_start 8)
    = Return tt w'
    /\ lib_path (instance w')
       = [Some "lib"; Some "blib"; None; None; None; None; None; None].
Proof.
  destruct (set_lib_path_installs 8 2 [Some "lib"; Some "blib"; Some "unused"]
              (process_start 8))
    as (w' & Hrun & Hpaths & _); [lia | cbn; lia | reflexivity |].
  exists w'. split; [exact Hrun | exact Hpaths].
Defined.


(** Three arities; the callsites below 2 are the common ones. *)
Lemma cleanup_callsite_interns_effect_witness :
  exists released,
    cleanup_callsite_interns 3 (fun callsite => callsite <? 2)%nat
      {| by_arity := [[0; 5]; []; [1; 7; 8]]%nat; num_by_arity := [2; 0; 2] |}
    = Some released
    /\ destroyed_callsites released = [5; 7]%nat
    /\ last released = Some interns_freed.
Proof.
  destruct (cleanup_callsite_interns_effect 3 (fun callsite => callsite <? 2)%nat
              {| by_arity := [[0; 5]; []; [1; 7; 8]]%nat; num_by_arity := [2; 0; 2] |})
    as (released & Hrun & Hdestroyed & _ & _ & Hlast).
  { split; [reflexivity|]. split; [reflexivity|].
    repeat constructor; cbn; lia. }
  exists released. split; [exact Hrun|]. split; [exact Hdestroyed | exact Hlast].
Defined.

Lemma dump_to_stdout_complete_witness :
  dump_to_stdout (fun _ count => Z.min count 3) 7 "frame 0" = Written "frame 0".
Proof.
  apply (dump_to_stdout_complete (fun _ count => Z.min count 3) "frame 0" 7);
    [reflexivity | intros; lia | cbn; lia].
Defined.

Lemma dump_to_stdout_first_write_fails_witness :
  dump_to_stdout (fun calls count => match calls with O => -1 | S _ => count end) 1
    "frame 0"
  = Written EmptyString.
Proof.
  apply (dump_to_stdout_first_write_fails
           (fun calls count => match calls with O => -1 | S _ => count end) "frame 0" 0);
    [split; reflexivity | reflexivity].
Defined.

Lemma dump_to_stdout_failed_write_resends_witness :
  dump_to_stdout
    (fun calls count => match calls with O => 3 | S O => -1 | S (S _) => count end) 3
    "frame 0"
  = Written "fraame 0"
  /\ String.length "fraame 0" = 8%nat.
Proof.
  apply (dump_to_stdout_failed_write_resends
           (fun calls count => match calls with O => 3 | S O => -1 | S (S _) => count end)
           "frame 0" 3 0);
    first [reflexivity | split; reflexivity].
Defined.

(** A process whose specializer log is the open stream 0, and one whose
    specializer log handle is a stream that is not open. *)
Lemma closable_one_log (handles : list (option FILE)) :
  omap id handles = [stream 0] ->
  closable handles (with_instance (set_spesh_log_fh (Some (stream 0)))
                      (with_stream "spesh.log" (process_start 8))).
Proof.
  intros Hhandles. split; [rewrite Hhandles; apply NoDup_singleton|].
  intros f Hf.
  assert (f ∈ omap id handles) as Hin by (apply list_elem_of_omap; eauto).
  rewrite Hhandles in Hin. apply list_elem_of_singleton in Hin as ->.
  cbn. now left.
Qed.

Lemma destroy_instance_effect_witness :
  (exists w',
      MVM_vm_destroy_instance
        (with_instance (set_spesh_log_fh (Some (stream 0)))
           (with_stream "spesh.log" (process_start 8)))
      = Return tt w'
      /\ forall id, is_open (stream id) w'
                    <-> is_open (stream id)
                          (with_instance (set_spesh_log_fh (Some (stream 0)))
                             (with_stream "spesh.log" (process_start 8)))
                        /\ Some (stream id) ∉ [Some (stream 0); None; None])
  /\ MVM_vm_destroy_instance
       (with_instance (set_spesh_log_fh (Some (stream 0))) (process_start 8))
     = Undefined.
Proof.
  split.
  - destruct (destroy_instance_effect
                (with_instance (set_spesh_log_fh (Some (stream 0)))
                   (with_stream "spesh.log" (process_start 8))))
      as [Hrun _].
    destruct Hrun as (w' & Hrun & Hstreams & _); [now apply closable_one_log|].
    exists w'. split; [exact Hrun | exact Hstreams].
  - destruct (destroy_instance_effect
                (with_instance (set_spesh_log_fh (Some (stream 0))) (process_start 8)))
      as [_ Hundefined].
    apply (Hundefined (stream 0)); [now left|].
    intros Hopen. now apply elem_of_nil in Hopen.
Defined.

Lemma exit_effect_witness :
  (exists w',
      MVM_vm_exit
        (with_instance (set_spesh_log_fh (Some (stream 0)))
           (with_stream "spesh.log" (process_start 8)))
      = Exit 0 w'
      /\ head (trace w') = Some (ev_exit 0)
      /\ forall id, is_open (stream id) w'
                    <-> is_open (stream id)
                          (with_instance (set_spesh_log_fh (Some (stream 0)))
                             (with_stream "spesh.log" (process_start 8)))
                        /\ Some (stream id) ∉ [Some (stream 0); None; None; None])
  /\ MVM_vm_exit (with_instance (set_spesh_log_fh (Some (stream 0))) (process_start 8))
     = Undefined.
Proof.
  split.
  - destruct (exit_effect
                (with_instance (set_spesh_log_fh (Some (stream 0)))
                   (with_stream "spesh.log" (process_start 8))))
      as [Hrun _].
    destruct Hrun as (w' & Hrun & _ & _ & Hlast & Hstreams);
      [now apply closable_one_log|].
    exists w'. split; [exact Hrun|]. split; [exact Hlast | exact Hstreams].
  - destruct (exit_effect
                (with_instance (set_spesh_log_fh (Some (stream 0))) (process_start 8)))
      as [_ Hundefined].
    apply (Hundefined (stream 0)); [now left|].
    intros Hopen. now apply elem_of_nil in Hopen.
Defined.
